(** * python-typing-engine: the field descriptor and model container engine

    A shallow embedding of [typing_engine/typing.py] (classes [Typing2],
    [Field] and [vField]) and the properties of it that the specification
    states.

    Python objects live in explicit stores: class objects, field objects,
    the list objects that hold a field's getter and setter chains, and a heap
    of model instances and list objects.  Every operation is a function of
    the store in a state-and-exception monad; an exception keeps the store it
    was raised in, as a Python [try]/[except] observes it. *)

From Stdlib Require Import ZArith String.
From stdpp Require Import base option list strings gmap.

Set Warnings "-register-all".

(** ** Values *)

(** Python values the engine moves around.  [VList] is sequence data that
    nobody mutates in place (a tuple, or a list the caller hands over or a
    dump hands back); a list object that the engine itself appends to lives
    in the heap and is referred to by [VRef], as a model instance is.
    [VDict] is an insertion-ordered dictionary with string keys. *)
Inductive value : Type :=
| VNone
| VBool (b : bool)
| VInt (z : Z)
| VStr (s : string)
| VBytes (b : string)
| VList (l : list value)
| VDict (d : list (string * value))
| VRef (r : nat).

(** Exceptions the engine raises or lets through. *)
Inductive exn : Type :=
| AttributeError
| TypeError
| ValueError
| UnsupportedOperation.

(** Result of a pure callable that may raise. *)
Inductive res (A : Type) : Type :=
| Ok (a : A)
| Err (e : exn).
Arguments Ok {A} a.
Arguments Err {A} e.

(** A getter or setter function.  [__get__] and [__set__] look at
    [type(func).__name__]: a bound method is called on the value alone, any
    other callable on the instance and the value. *)
Inductive func : Type :=
| Method (f : value -> value)
| Function (f : nat -> value -> value).

(** What [instanciator] and [inside_instanciator] can hold: a [Typing2]
    subclass (by class id), the builtin [list], another class, or a callable
    that is not a class.  The call of a class or function is given on no
    argument ([None]) and on one argument ([Some data]). *)
Inductive factory : Type :=
| FTyping (c : nat)
| FList
| FClass (call : option value -> res value)
| FFunction (call : option value -> res value).

Inductive field_kind : Type := KField | KvField.

(** The attributes of a [Field] object, as [Field.__init__] creates them.
    [setters_funcs] and [getters_funcs] are references to list objects. *)
Record Field : Type := mkField {
  kind : field_kind;
  name : option string;
  instanciator : option factory;
  default_value : value;
  inside_instanciator : option factory;
  is_list : bool;
  hidden : bool;
  mapping_name : option string;
  dumps_converter : option (value -> res value);
  loads_converter : option (value -> res value);
  instance_name : option string;
  setters_funcs : nat;
  getters_funcs : nat
}.

(** A class derived from [Typing2]: its ancestors in method resolution order
    after the class itself ([__mro__[1:-1]]), the [Field]-valued entries of
    its [__dict__] in insertion order, and the two private class attributes
    [_Typing2__fields] and [_Typing2__init_done] when set. *)
Record Class : Type := mkClass {
  cls_ancestors : list nat;
  cls_dict : list (string * nat);
  cls_fields : option (list nat);
  cls_init_done : bool
}.

(** A heap cell: a model instance with its class and its [__dict__], or a
    list object. *)
Inductive cell : Type :=
| Inst (cls : nat) (attrs : gmap string value)
| LObj (items : list value).

Record state : Type := mkState {
  classes : list Class;
  field_objs : list Field;
  chains : list (list func);
  heap : list cell
}.

(** ** The monad *)

Inductive abort : Type :=
| OutOfFuel
| BadRef
| Loops.

Inductive outcome (A : Type) : Type :=
| Ret (a : A) (s : state)
| Raise (e : exn) (s : state)
| Abort (w : abort).
Arguments Ret {A} a s.
Arguments Raise {A} e s.
Arguments Abort {A} w.

Definition M (A : Type) : Type := state -> outcome A.

Definition ret {A} (a : A) : M A := fun s => Ret a s.

Definition bind {A B} (m : M A) (k : A -> M B) : M B :=
  fun s =>
    match m s with
    | Ret a s' => k a s'
    | Raise e s' => Raise e s'
    | Abort w => Abort w
    end.

Definition raise {A} (e : exn) : M A := fun s => Raise e s.

Definition stop {A} (w : abort) : M A := fun _ => Abort w.

Notation "'let*' x ':=' m 'in' k" := (bind m (fun x => k))
  (at level 10, x name, m at level 100, k at level 200).
Notation "m ';;;' k" := (bind m (fun _ => k))
  (at level 100, k at level 200, right associativity).

Definition lift {A} (r : res A) : M A :=
  match r with
  | Ok a => ret a
  | Err e => raise e
  end.

Definition gets {A} (f : state -> A) : M A := fun s => Ret (f s) s.

Definition modify (f : state -> state) : M unit := fun s => Ret tt (f s).

(** [for x in l: body x]. *)
Fixpoint for_each {A} (l : list A) (body : A -> M unit) : M unit :=
  match l with
  | [] => ret tt
  | x :: l' => body x ;;; for_each l' body
  end.

(** ** Store access *)

Definition set_classes (cs : list Class) (s : state) : state :=
  mkState cs (field_objs s) (chains s) (heap s).
Definition set_field_objs (fs : list Field) (s : state) : state :=
  mkState (classes s) fs (chains s) (heap s).
Definition set_chains (ch : list (list func)) (s : state) : state :=
  mkState (classes s) (field_objs s) ch (heap s).
Definition set_heap (h : list cell) (s : state) : state :=
  mkState (classes s) (field_objs s) (chains s) h.

Definition deref (f : nat) : M Field :=
  fun s =>
    match field_objs s !! f with
    | Some fd => Ret fd s
    | None => Abort BadRef
    end.

Definition update_field (f : nat) (g : Field -> Field) : M unit :=
  let* fd := deref f in
  modify (fun s => set_field_objs (<[f := g fd]> (field_objs s)) s).

Definition alloc_field (fd : Field) : M nat :=
  fun s => Ret (length (field_objs s)) (set_field_objs (field_objs s ++ [fd]) s).

Definition read_chain (c : nat) : M (list func) :=
  fun s =>
    match chains s !! c with
    | Some l => Ret l s
    | None => Abort BadRef
    end.

Definition write_chain (c : nat) (l : list func) : M unit :=
  read_chain c ;;;
  modify (fun s => set_chains (<[c := l]> (chains s)) s).

(** [list()] for a chain. *)
Definition alloc_chain : M nat :=
  fun s => Ret (length (chains s)) (set_chains (chains s ++ [[]]) s).

Definition get_class (c : nat) : M Class :=
  fun s =>
    match classes s !! c with
    | Some k => Ret k s
    | None => Abort BadRef
    end.

Definition update_class (c : nat) (g : Class -> Class) : M unit :=
  let* k := get_class c in
  modify (fun s => set_classes (<[c := g k]> (classes s)) s).

Definition read_cell (r : nat) : M cell :=
  fun s =>
    match heap s !! r with
    | Some c => Ret c s
    | None => Abort BadRef
    end.

Definition write_cell (r : nat) (c : cell) : M unit :=
  read_cell r ;;;
  modify (fun s => set_heap (<[r := c]> (heap s)) s).

Definition alloc_cell (c : cell) : M nat :=
  fun s => Ret (length (heap s)) (set_heap (heap s ++ [c]) s).

(** ** Field: configuration *)

Definition with_name (x : option string) (fd : Field) : Field :=
  mkField (kind fd) x (instanciator fd) (default_value fd)
    (inside_instanciator fd) (is_list fd) (hidden fd) (mapping_name fd)
    (dumps_converter fd) (loads_converter fd) (instance_name fd)
    (setters_funcs fd) (getters_funcs fd).
Definition with_instanciator (x : option factory) (fd : Field) : Field :=
  mkField (kind fd) (name fd) x (default_value fd)
    (inside_instanciator fd) (is_list fd) (hidden fd) (mapping_name fd)
    (dumps_converter fd) (loads_converter fd) (instance_name fd)
    (setters_funcs fd) (getters_funcs fd).
Definition with_default_value (x : value) (fd : Field) : Field :=
  mkField (kind fd) (name fd) (instanciator fd) x
    (inside_instanciator fd) (is_list fd) (hidden fd) (mapping_name fd)
    (dumps_converter fd) (loads_converter fd) (instance_name fd)
    (setters_funcs fd) (getters_funcs fd).
Definition with_inside_instanciator (x : option factory) (fd : Field) : Field :=
  mkField (kind fd) (name fd) (instanciator fd) (default_value fd)
    x (is_list fd) (hidden fd) (mapping_name fd)
    (dumps_converter fd) (loads_converter fd) (instance_name fd)
    (setters_funcs fd) (getters_funcs fd).
Definition with_is_list (x : bool) (fd : Field) : Field :=
  mkField (kind fd) (name fd) (instanciator fd) (default_value fd)
    (inside_instanciator fd) x (hidden fd) (mapping_name fd)
    (dumps_converter fd) (loads_converter fd) (instance_name fd)
    (setters_funcs fd) (getters_funcs fd).
Definition with_hidden (x : bool) (fd : Field) : Field :=
  mkField (kind fd) (name fd) (instanciator fd) (default_value fd)
    (inside_instanciator fd) (is_list fd) x (mapping_name fd)
    (dumps_converter fd) (loads_converter fd) (instance_name fd)
    (setters_funcs fd) (getters_funcs fd).
Definition with_mapping_name (x : option string) (fd : Field) : Field :=
  mkField (kind fd) (name fd) (instanciator fd) (default_value fd)
    (inside_instanciator fd) (is_list fd) (hidden fd) x
    (dumps_converter fd) (loads_converter fd) (instance_name fd)
    (setters_funcs fd) (getters_funcs fd).
Definition with_dumps_converter (x : option (value -> res value)) (fd : Field) : Field :=
  mkField (kind fd) (name fd) (instanciator fd) (default_value fd)
    (inside_instanciator fd) (is_list fd) (hidden fd) (mapping_name fd)
    x (loads_converter fd) (instance_name fd)
    (setters_funcs fd) (getters_funcs fd).
Definition with_loads_converter (x : option (value -> res value)) (fd : Field) : Field :=
  mkField (kind fd) (name fd) (instanciator fd) (default_value fd)
    (inside_instanciator fd) (is_list fd) (hidden fd) (mapping_name fd)
    (dumps_converter fd) x (instance_name fd)
    (setters_funcs fd) (getters_funcs fd).
Definition with_instance_name (x : option string) (fd : Field) : Field :=
  mkField (kind fd) (name fd) (instanciator fd) (default_value fd)
    (inside_instanciator fd) (is_list fd) (hidden fd) (mapping_name fd)
    (dumps_converter fd) (loads_converter fd) x
    (setters_funcs fd) (getters_funcs fd).

(** [if name:] on a string or [None]. *)
Definition name_truthy (x : option string) : bool :=
  match x with
  | Some "" => false
  | Some _ => true
  | None => false
  end.

(** [Field.set_name]. *)
Definition Field_set_name (f : nat) (nm : option string) : M unit :=
  update_field f (with_name nm) ;;;
  match nm with
  | Some n =>
      if name_truthy nm
      then update_field f (with_instance_name (Some ("_" +:+ n)))
      else update_field f (with_instance_name None)
  | None => update_field f (with_instance_name None)
  end.

(** [Field.__init__], run on a new object of class [Field] or [vField]. *)
Definition Field_init (k : field_kind) (nm : option string)
    (inst : option factory) (dflt : value) : M nat :=
  let* ss := alloc_chain in
  let* gs := alloc_chain in
  let* f := alloc_field
              (mkField k None inst dflt None false false None None None None ss gs) in
  Field_set_name f nm ;;;
  ret f.

(** [Field.setters]. *)
Definition Field_setters (f : nat) (function : option func) (clear : bool) : M nat :=
  let* fd := deref f in
  (if clear then write_chain (setters_funcs fd) [] else ret tt) ;;;
  (match function with
   | Some fn =>
       let* l := read_chain (setters_funcs fd) in
       write_chain (setters_funcs fd) (l ++ [fn])
   | None => ret tt
   end) ;;;
  ret f.

(** [Field.getters]. *)
Definition Field_getters (f : nat) (function : option func) (clear : bool) : M nat :=
  let* fd := deref f in
  (if clear then write_chain (getters_funcs fd) [] else ret tt) ;;;
  (match function with
   | Some fn =>
       let* l := read_chain (getters_funcs fd) in
       write_chain (getters_funcs fd) (fn :: l)
   | None => ret tt
   end) ;;;
  ret f.

(** [Field.copy]. *)
Definition Field_copy (f : nat) : M nat :=
  let* self := deref f in
  let* field := Field_init (kind self) None None VNone in
  update_field field (with_name (name self)) ;;;
  update_field field (with_instanciator (instanciator self)) ;;;
  update_field field (with_inside_instanciator (inside_instanciator self)) ;;;
  update_field field (with_is_list (is_list self)) ;;;
  update_field field (with_default_value (default_value self)) ;;;
  update_field field (with_hidden (hidden self)) ;;;
  update_field field (with_mapping_name (mapping_name self)) ;;;
  update_field field (with_dumps_converter (dumps_converter self)) ;;;
  update_field field (with_loads_converter (loads_converter self)) ;;;
  update_field field (with_instance_name (instance_name self)) ;;;
  let* ss := read_chain (setters_funcs self) in
  for_each ss (fun fn => Field_setters field (Some fn) false ;;; ret tt) ;;;
  let* gs := read_chain (getters_funcs self) in
  for_each gs (fun fn => Field_getters field (Some fn) false ;;; ret tt) ;;;
  ret field.

(** [Field.mapping], [list_of], [hide], [unhide], [default], [converter]. *)
Definition Field_mapping (f : nat) (m : option string) : M nat :=
  update_field f (with_mapping_name m) ;;; ret f.

Definition Field_list_of (f : nat) (inside inst : option factory) : M nat :=
  update_field f (with_instanciator inst) ;;;
  update_field f (with_inside_instanciator inside) ;;;
  update_field f (with_is_list true) ;;;
  ret f.

Definition Field_hide (f : nat) : M nat :=
  update_field f (with_hidden true) ;;; ret f.

Definition Field_unhide (f : nat) : M nat :=
  update_field f (with_hidden false) ;;; ret f.

Definition Field_default (f : nat) (v : value) : M nat :=
  update_field f (with_default_value v) ;;; ret f.

Definition Field_converter (f : nat)
    (loads dumps : option (value -> res value)) : M nat :=
  (match dumps with
   | Some _ => update_field f (with_dumps_converter dumps)
   | None => ret tt
   end) ;;;
  (match loads with
   | Some _ => update_field f (with_loads_converter loads)
   | None => ret tt
   end) ;;;
  ret f.

(** [Field.match]. *)
Definition Field_match (fd : Field) (key : string) : bool :=
  if decide (name fd = Some key) then true
  else if name_truthy (mapping_name fd) && bool_decide (mapping_name fd = Some key)
       then true
       else false.

(** [Field.get_name]. *)
Definition Field_get_name (fd : Field) (no_mapping : bool) : option string :=
  if negb no_mapping && bool_decide (mapping_name fd <> None)
  then mapping_name fd
  else name fd.

(** [Field.loads_convert] and [Field.dumps_convert]. *)
Definition Field_loads_convert (fd : Field) (v : value) : res value :=
  match loads_converter fd, v with
  | None, _ => Ok v
  | _, VNone => Ok v
  | Some conv, _ => conv v
  end.

Definition Field_dumps_convert (fd : Field) (v : value) : res value :=
  match dumps_converter fd, v with
  | None, _ => Ok v
  | _, VNone => Ok v
  | Some conv, _ => conv v
  end.

(** The loop of [__get__] and [__set__] over a chain. *)
Definition call_func (instance : nat) (fn : func) (v : value) : value :=
  match fn with
  | Method g => g v
  | Function g => g instance v
  end.

Definition run_chain (l : list func) (instance : nat) (v : value) : value :=
  fold_left (fun acc fn => call_func instance fn acc) l v.

(** ** Typing2: class-level state *)

(** Lookup in an insertion-ordered dictionary. *)
Fixpoint assoc {A} (key : string) (d : list (string * A)) : option A :=
  match d with
  | [] => None
  | (k, a) :: d' => if decide (k = key) then Some a else assoc key d'
  end.

(** [d[key] = a]: replaces the value of an existing key in place, appends a
    new key. *)
Fixpoint dict_set {A} (key : string) (a : A) (d : list (string * A)) : list (string * A) :=
  match d with
  | [] => [(key, a)]
  | (k, b) :: d' =>
      if decide (k = key) then (k, a) :: d' else (k, b) :: dict_set key a d'
  end.

(** The [Field] found under [key] on the type, along its [__mro__]. *)
Fixpoint mro_lookup (cs : list Class) (mro : list nat) (key : string) : option nat :=
  match mro with
  | [] => None
  | c :: mro' =>
      match cs !! c with
      | Some k =>
          match assoc key (cls_dict k) with
          | Some f => Some f
          | None => mro_lookup cs mro' key
          end
      | None => mro_lookup cs mro' key
      end
  end.

Definition class_lookup (cs : list Class) (c : nat) (key : string) : option nat :=
  match cs !! c with
  | Some k => mro_lookup cs (c :: cls_ancestors k) key
  | None => None
  end.

(** [cls._Typing2__fields], found along the [__mro__]. *)
Fixpoint mro_fields (cs : list Class) (mro : list nat) : option (list nat) :=
  match mro with
  | [] => None
  | c :: mro' =>
      match cs !! c with
      | Some k =>
          match cls_fields k with
          | Some l => Some l
          | None => mro_fields cs mro'
          end
      | None => mro_fields cs mro'
      end
  end.

Definition with_cls_dict (d : list (string * nat)) (k : Class) : Class :=
  mkClass (cls_ancestors k) d (cls_fields k) (cls_init_done k).
Definition with_cls_fields (l : option (list nat)) (k : Class) : Class :=
  mkClass (cls_ancestors k) (cls_dict k) l (cls_init_done k).
Definition with_cls_init_done (b : bool) (k : Class) : Class :=
  mkClass (cls_ancestors k) (cls_dict k) (cls_fields k) b.

(** [type(self)] for a model instance. *)
Definition type_of (obj : nat) : M nat :=
  let* c := read_cell obj in
  match c with
  | Inst cls _ => ret cls
  | LObj _ => stop BadRef
  end.

(** [Typing2.get_fields]: [self.__fields]. *)
Definition Typing2_get_fields (obj : nat) : M (list nat) :=
  let* c := type_of obj in
  let* k := get_class c in
  let* cs := gets classes in
  match mro_fields cs (c :: cls_ancestors k) with
  | Some l => ret l
  | None => raise AttributeError
  end.

Fixpoint first_match (fs : list nat) (key : string) : M (option nat) :=
  match fs with
  | [] => ret None
  | f :: fs' =>
      let* fd := deref f in
      if Field_match fd key then ret (Some f) else first_match fs' key
  end.

(** [Typing2.get_field]. *)
Definition Typing2_get_field (obj : nat) (key : string) : M (option nat) :=
  let* fs := Typing2_get_fields obj in
  first_match fs key.

(** The hooks of [Typing2], which do nothing. *)
Definition Typing2_post_init (obj : nat) : M unit := ret tt.
Definition Typing2_transform_fields (c : nat) : M unit := ret tt.
Definition Typing2_pre_loads (obj : nat) (data : value) : M value := ret data.
Definition Typing2_post_loads (obj : nat) : M unit := ret tt.
Definition Typing2_pre_dumps (obj : nat) (raw : bool) : M unit := ret tt.
Definition Typing2_post_dumps (obj : nat) (raw : bool)
    (dump : list (string * value)) : M (list (string * value)) := ret dump.

(** [top_cls.__fields.append(field)]. *)
Definition append_field (top : nat) (f : nat) : M unit :=
  let* k := get_class top in
  match cls_fields k with
  | Some l => update_class top (with_cls_fields (Some (l ++ [f])))
  | None => raise AttributeError
  end.

(** The body of the two loops of [__one_time_init] for one entry of
    [cls.__dict__]. *)
Definition resolve_entry (obj top cls : nat) (entry : string * nat) : M unit :=
  let '(nm, field) := entry in
  if decide (cls = top) then
    Field_set_name field (Some nm) ;;;
    append_field top field
  else
    let* found := Typing2_get_field obj nm in
    match found with
    | None =>
        let* copied_field := Field_copy field in
        Field_set_name copied_field (Some nm) ;;;
        append_field top copied_field ;;;
        update_class top (fun k => with_cls_dict (dict_set nm copied_field (cls_dict k)) k)
    | Some _ => ret tt
    end.

(** [Typing2.__one_time_init].  The lock is taken and released around the
    second test of the flag; one thread of control runs here. *)
Definition Typing2_one_time_init (obj : nat) : M unit :=
  let* top_cls := type_of obj in
  let* k := get_class top_cls in
  if cls_init_done k then ret tt
  else
    update_class top_cls (with_cls_fields (Some [])) ;;;
    for_each (top_cls :: cls_ancestors k) (fun cls =>
      let* kc := get_class cls in
      for_each (cls_dict kc) (resolve_entry obj top_cls cls)) ;;;
    Typing2_transform_fields top_cls ;;;
    update_class top_cls (with_cls_init_done true).

(** ** Values as Python sees them *)

(** [bool(v)]. *)
Definition truthy (v : value) : M bool :=
  match v with
  | VNone => ret false
  | VBool b => ret b
  | VInt z => ret (negb (Z.eqb z 0))
  | VStr s => ret (negb (String.eqb s ""))
  | VBytes b => ret (negb (String.eqb b ""))
  | VList l => ret (match l with [] => false | _ => true end)
  | VDict d => ret (match d with [] => false | _ => true end)
  | VRef r =>
      let* c := read_cell r in
      match c with
      | Inst _ _ => ret true
      | LObj l => ret (match l with [] => false | _ => true end)
      end
  end.

(** [isinstance(v, Typing2)]. *)
Definition is_typing (v : value) : M bool :=
  match v with
  | VRef r =>
      let* c := read_cell r in
      match c with
      | Inst _ _ => ret true
      | LObj _ => ret false
      end
  | _ => ret false
  end.

Fixpoint chars (s : string) : list value :=
  match s with
  | EmptyString => []
  | String a s' => VStr (String a EmptyString) :: chars s'
  end.

Fixpoint byte_values (s : string) : list value :=
  match s with
  | EmptyString => []
  | String a s' => VInt (Z.of_nat (Ascii.nat_of_ascii a)) :: byte_values s'
  end.

(** The elements [for x in v] goes through, as they are when the loop
    starts. *)
Definition iterate (v : value) : M (list value) :=
  match v with
  | VList l => ret l
  | VDict d => ret (map (fun e => VStr (fst e)) d)
  | VStr s => ret (chars s)
  | VBytes b => ret (byte_values b)
  | VRef r =>
      let* c := read_cell r in
      match c with
      | LObj l => ret l
      | Inst _ _ => raise TypeError
      end
  | VNone | VBool _ | VInt _ => raise TypeError
  end.

Fixpoint map_m {A B} (f : A -> M B) (l : list A) : M (list B) :=
  match l with
  | [] => ret []
  | x :: l' =>
      let* y := f x in
      let* ys := map_m f l' in
      ret (y :: ys)
  end.

Fixpoint fold_m {A B} (f : B -> A -> M B) (acc : B) (l : list A) : M B :=
  match l with
  | [] => ret acc
  | x :: l' =>
      let* acc' := f acc x in
      fold_m f acc' l'
  end.

(** [try: x = m  except AttributeError: h  else: ok x]. *)
Definition try_AttributeError {A B} (m : M A) (ok : A -> M B) (h : M B) : M B :=
  fun s =>
    match m s with
    | Ret a s' => ok a s'
    | Raise AttributeError s' => h s'
    | Raise e s' => Raise e s'
    | Abort w => Abort w
    end.

(** ** The engine *)

Section Engine.

(** [json.loads(data.decode(encoding, errors))], the codec outside the
    engine. *)
Variable json_loads : string -> res value.

(** The calls that re-enter the engine: attribute access on an instance
    (which finds the descriptors of its class), [__get__] calling itself,
    the construction of a model, and the two recursive walks. *)
Record rec : Type := mkRec {
  r_getattr : nat -> option string -> M value;
  r_setattr : nat -> option string -> value -> M unit;
  r_delattr : nat -> option string -> M unit;
  r_get : nat -> nat -> M value;
  r_new : nat -> value -> value -> M value;
  r_loads_from_dict : nat -> value -> M unit;
  r_dumps : nat -> bool -> M value
}.

Section Bodies.

Variable R : rec.

(** [Field.__set__]. *)
Definition Field_set (f instance : nat) (v : value) : M unit :=
  let* self := deref f in
  let* v1 := lift (Field_loads_convert self v) in
  let* funcs := read_chain (setters_funcs self) in
  r_setattr R instance (instance_name self) (run_chain funcs instance v1).

(** [list(data)] and [list()]. *)
Definition new_list (data : option value) : M value :=
  let* l := match data with
            | Some d => iterate d
            | None => ret []
            end in
  let* r := alloc_cell (LObj l) in
  ret (VRef r).

(** [Field.get_instance].  [issubclass] raises [TypeError] on a first
    argument that is not a class. *)
Definition Field_get_instance (f typing_instance : nat) : M value :=
  let* self := deref f in
  match instanciator self with
  | None => ret (default_value self)
  | Some (FFunction _) => raise TypeError
  | Some (FTyping c) => r_new R c VNone (VRef typing_instance)
  | Some FList => new_list None
  | Some (FClass call) => lift (call None)
  end.

(** [Field.get_inside_instance]. *)
Definition Field_get_inside_instance (f : nat) (data : value)
    (typing_instance : nat) : M value :=
  let* self := deref f in
  match inside_instanciator self with
  | None => ret data
  | Some (FFunction _) => raise TypeError
  | Some (FTyping c) => r_new R c data (VRef typing_instance)
  | Some FList => new_list (Some data)
  | Some (FClass call) => lift (call (Some data))
  end.

(** [Field.__get__] on an instance. *)
Definition Field_get (f instance : nat) : M value :=
  let* self := deref f in
  try_AttributeError (r_getattr R instance (instance_name self))
    (fun v =>
       let* self := deref f in
       let* funcs := read_chain (getters_funcs self) in
       ret (run_chain funcs instance v))
    (let* self := deref f in
     r_setattr R instance (instance_name self) VNone ;;;
     let* v := Field_get_instance f instance in
     Field_set f instance v ;;;
     r_get R f instance).

(** [Field.__delete__]. *)
Definition Field_delete (f instance : nat) : M unit :=
  let* self := deref f in
  try_AttributeError (r_delattr R instance (instance_name self))
    (fun _ => ret tt)
    (ret tt).

(** [Field.direct_set] and [Field.direct_get]. *)
Definition Field_direct_set (f instance : nat) (v : value)
    (bypass_converter : bool) : M unit :=
  let* self := deref f in
  let* v1 := (if bypass_converter then ret v
              else lift (Field_loads_convert self v)) in
  r_setattr R instance (instance_name self) v1.

Definition Field_direct_get (f instance : nat) : M value :=
  let* self := deref f in
  r_getattr R instance (instance_name self).

(** [vField.__get__], [__set__], [__delete__], [direct_get], [direct_set]. *)
Definition vField_get (f instance : nat) : M value :=
  let* self := deref f in
  let* funcs := read_chain (getters_funcs self) in
  ret (run_chain funcs instance (default_value self)).

Definition vField_set (f instance : nat) (v : value) : M unit :=
  let* self := deref f in
  let* v1 := lift (Field_loads_convert self v) in
  let* funcs := read_chain (setters_funcs self) in
  let _ := run_chain funcs instance v1 in
  ret tt.

Definition vField_delete (f instance : nat) : M unit := ret tt.

Definition vField_direct_get (f instance : nat) : M value :=
  raise UnsupportedOperation.

Definition vField_direct_set (f instance : nat) (v : value)
    (bypass_converter : bool) : M unit :=
  raise UnsupportedOperation.

(** Method calls on a field object go to the class of the object. *)
Definition descr_get (f instance : nat) : M value :=
  let* self := deref f in
  match kind self with
  | KField => Field_get f instance
  | KvField => vField_get f instance
  end.

Definition descr_set (f instance : nat) (v : value) : M unit :=
  let* self := deref f in
  match kind self with
  | KField => Field_set f instance v
  | KvField => vField_set f instance v
  end.

Definition descr_delete (f instance : nat) : M unit :=
  let* self := deref f in
  match kind self with
  | KField => Field_delete f instance
  | KvField => vField_delete f instance
  end.

Definition direct_get (f instance : nat) : M value :=
  let* self := deref f in
  match kind self with
  | KField => Field_direct_get f instance
  | KvField => vField_direct_get f instance
  end.

Definition direct_set (f instance : nat) (v : value)
    (bypass_converter : bool) : M unit :=
  let* self := deref f in
  match kind self with
  | KField => Field_direct_set f instance v bypass_converter
  | KvField => vField_direct_set f instance v bypass_converter
  end.

(** [getattr(obj, key)], [setattr(obj, key, v)] and [delattr(obj, key)]: a
    field found on the type under [key] intercepts the access, otherwise
    the instance's [__dict__] is used.  A key that is not a string is a
    [TypeError]. *)
Definition py_getattr (obj : nat) (key : option string) : M value :=
  match key with
  | None => raise TypeError
  | Some n =>
      let* c := read_cell obj in
      match c with
      | LObj _ => raise AttributeError
      | Inst cls attrs =>
          let* cs := gets classes in
          match class_lookup cs cls n with
          | Some f => descr_get f obj
          | None =>
              match attrs !! n with
              | Some v => ret v
              | None => raise AttributeError
              end
          end
      end
  end.

Definition py_setattr (obj : nat) (key : option string) (v : value) : M unit :=
  match key with
  | None => raise TypeError
  | Some n =>
      let* c := read_cell obj in
      match c with
      | LObj _ => raise AttributeError
      | Inst cls attrs =>
          let* cs := gets classes in
          match class_lookup cs cls n with
          | Some f => descr_set f obj v
          | None => write_cell obj (Inst cls (<[n := v]> attrs))
          end
      end
  end.

Definition py_delattr (obj : nat) (key : option string) : M unit :=
  match key with
  | None => raise TypeError
  | Some n =>
      let* c := read_cell obj in
      match c with
      | LObj _ => raise AttributeError
      | Inst cls attrs =>
          let* cs := gets classes in
          match class_lookup cs cls n with
          | Some f => descr_delete f obj
          | None =>
              match attrs !! n with
              | Some _ => write_cell obj (Inst cls (delete n attrs))
              | None => raise AttributeError
              end
          end
      end
  end.

(** [variable.append(x)]: only a list object has [append]. *)
Definition has_append (variable : value) : M unit :=
  match variable with
  | VRef r =>
      let* c := read_cell r in
      match c with
      | LObj _ => ret tt
      | Inst _ _ => raise AttributeError
      end
  | _ => raise AttributeError
  end.

Definition list_append (variable : value) (x : value) : M unit :=
  match variable with
  | VRef r =>
      let* c := read_cell r in
      match c with
      | LObj l => write_cell r (LObj (l ++ [x]))
      | Inst _ _ => raise AttributeError
      end
  | _ => raise AttributeError
  end.

(** [for subset_data in value: variable.append(...)].  A list object that is
    appended to while it is iterated never runs out of elements. *)
Definition load_list (f self : nat) (variable v : value) : M unit :=
  let* xs := iterate v in
  match xs, variable, v with
  | _ :: _, VRef a, VRef b =>
      if decide (a = b) then stop Loops
      else
        for_each xs (fun subset_data =>
          has_append variable ;;;
          let* x := Field_get_inside_instance f subset_data self in
          list_append variable x)
  | _, _, _ =>
      for_each xs (fun subset_data =>
        has_append variable ;;;
        let* x := Field_get_inside_instance f subset_data self in
        list_append variable x)
  end.

(** The body of the loop of [loads_from_dict] for one item. *)
Definition load_entry (self : nat) (item : string * value) : M unit :=
  let '(key, v) := item in
  let* found := Typing2_get_field self key in
  match found with
  | None => ret tt
  | Some f =>
      let* field := deref f in
      let* variable := r_getattr R self (name field) in
      let* sub := is_typing variable in
      if sub then
        match variable with
        | VRef r => r_loads_from_dict R r v
        | _ => ret tt
        end
      else
        let* field := deref f in
        if is_list field then load_list f self variable v
        else
          let* field := deref f in
          r_setattr R self (name field) v
  end.

(** [preload_data.items()]. *)
Definition dict_items (data : value) : M (list (string * value)) :=
  match data with
  | VDict d => ret d
  | VRef r =>
      let* c := read_cell r in
      match c with
      | Inst _ _ => r_getattr R r (Some "items") ;;; raise TypeError
      | LObj _ => raise AttributeError
      end
  | _ => raise AttributeError
  end.

(** [Typing2.loads_from_dict]. *)
Definition Typing2_loads_from_dict (self : nat) (data : value) : M unit :=
  let* t := truthy data in
  if negb t then ret tt
  else
    let* preload_data := Typing2_pre_loads self data in
    let* items := dict_items preload_data in
    for_each items (load_entry self) ;;;
    Typing2_post_loads self.

(** [Typing2.loads_from_typing]. *)
Definition Typing2_loads_from_typing (self other : nat) : M unit :=
  let* d := r_dumps R other true in
  Typing2_loads_from_dict self d.

(** [Typing2.loads_from_bytes]. *)
Definition Typing2_loads_from_bytes (self : nat) (data : string) : M unit :=
  let* d := lift (json_loads data) in
  Typing2_loads_from_dict self d.

(** [Typing2.__dump]. *)
Definition dump_one (v : value) (raw : bool) : M value :=
  let* sub := is_typing v in
  if sub then
    match v with
    | VRef r => r_dumps R r raw
    | _ => ret v
    end
  else ret v.

Definition Typing2_dump (v : value) (raw : bool) (is_list : bool) : M value :=
  if is_list then
    let* xs := iterate v in
    let* values := map_m (fun i => dump_one i raw) xs in
    ret (VList values)
  else dump_one v raw.

(** The body of the loop of [dumps] for one field. *)
Definition dump_field (self : nat) (raw : bool)
    (dump : list (string * value)) (f : nat) : M (list (string * value)) :=
  let* field := deref f in
  if negb raw && hidden field then ret dump
  else
    let* v := try_AttributeError (r_getattr R self (name field)) ret (ret VNone) in
    let* field := deref f in
    let* v := (if raw then ret v else lift (Field_dumps_convert field v)) in
    let* d := Typing2_dump v raw (is_list field) in
    match Field_get_name field raw with
    | Some key => ret (dict_set key d dump)
    | None => raise TypeError
    end.

(** [Typing2.dumps]. *)
Definition Typing2_dumps (self : nat) (raw : bool) : M value :=
  Typing2_pre_dumps self raw ;;;
  let* fs := Typing2_get_fields self in
  let* dump := fold_m (dump_field self raw) [] fs in
  let* dump := Typing2_post_dumps self raw dump in
  ret (VDict dump).

(** [Typing2.reset]. *)
Definition Typing2_reset (self : nat) : M unit :=
  let* fs := Typing2_get_fields self in
  for_each fs (fun f => descr_delete f self).

(** [Typing2.__init__]. *)
Definition Typing2_init (self : nat) (data parent : value) : M unit :=
  r_setattr R self (Some "parent") parent ;;;
  Typing2_one_time_init self ;;;
  Typing2_post_init self ;;;
  match data with
  | VNone => ret tt
  | VRef other =>
      let* sub := is_typing data in
      if sub then Typing2_loads_from_typing self other else ret tt
  | VDict _ => Typing2_loads_from_dict self data
  | VBytes b => Typing2_loads_from_bytes self b
  | _ => ret tt
  end.

(** A call [cls(data, parent)] of a model class: a new instance, then
    [__init__]. *)
Definition Typing2_new (c : nat) (data parent : value) : M value :=
  let* self := alloc_cell (Inst c ∅) in
  Typing2_init self data parent ;;;
  ret (VRef self).

End Bodies.

(** The engine with room for [n] nested re-entrant calls. *)
Fixpoint engine (n : nat) : rec :=
  match n with
  | 0 =>
      mkRec (fun _ _ => stop OutOfFuel) (fun _ _ _ => stop OutOfFuel)
        (fun _ _ => stop OutOfFuel) (fun _ _ => stop OutOfFuel)
        (fun _ _ _ => stop OutOfFuel) (fun _ _ => stop OutOfFuel)
        (fun _ _ => stop OutOfFuel)
  | S n' =>
      let R := engine n' in
      mkRec (py_getattr R) (py_setattr R) (py_delattr R) (descr_get R)
        (Typing2_new R) (Typing2_loads_from_dict R) (Typing2_dumps R)
  end.

End Engine.

(** ** Vocabulary of the statements *)

(** The storage slots of the storage-backed fields among [fs]. *)
Definition storage_slots (fo : list Field) (fs : list nat) : list string :=
  omap (fun f =>
          match fo !! f with
          | Some fd =>
              match kind fd with
              | KField => instance_name fd
              | KvField => None
              end
          | None => None
          end) fs.

Definition clear_slots (slots : list string) (attrs : gmap string value) : gmap string value :=
  foldl (fun a slot => delete slot a) attrs slots.

(** A field whose storage slot is a plain instance attribute of class [c]:
    the slot is bound, and no field of the class is declared under the
    slot's own name. *)
Definition slot_plain (cs : list Class) (c : nat) (fd : Field) : bool :=
  match kind fd with
  | KvField => true
  | KField =>
      match instance_name fd with
      | Some slot => bool_decide (class_lookup cs c slot = None)
      | None => false
      end
  end.

Definition fields_plain (s : state) (c : nat) (fs : list nat) : bool :=
  forallb (fun f =>
             match field_objs s !! f with
             | Some fd => slot_plain (classes s) c fd
             | None => false
             end) fs.

(** Seed data of [Typing2.__init__] that is none of the shapes it tests for:
    booleans and numbers, strings, sequences. *)
Definition seed_ignored (data : value) : bool :=
  match data with
  | VBool _ | VInt _ | VStr _ | VList _ => true
  | VNone | VBytes _ | VDict _ | VRef _ => false
  end.

(** A codec that accepts nothing, for closed examples. *)
Definition no_json : string -> res value := fun _ => Err ValueError.

(** The field [Field.copy] builds from [self]: the same configuration on
    two list objects of its own. *)
Definition copy_of (self : Field) (ss gs : nat) : Field :=
  mkField (kind self) (name self) (instanciator self) (default_value self)
    (inside_instanciator self) (is_list self) (hidden self) (mapping_name self)
    (dumps_converter self) (loads_converter self) (instance_name self) ss gs.

(** The storage slot [set_name] derives from a name. *)
Definition slot_of (nm : option string) : option string :=
  match nm with
  | Some n => if name_truthy nm then Some ("_" +:+ n) else None
  | None => None
  end.

(** [get_field] as a function of the field objects. *)
Fixpoint find_field (fo : list Field) (fs : list nat) (key : string) : option (option nat) :=
  match fs with
  | [] => Some None
  | f :: fs' =>
      match fo !! f with
      | Some fd => if Field_match fd key then Some (Some f) else find_field fo fs' key
      | None => None
      end
  end.

(** ** Field resolution as a function *)

(** The pure account of [__one_time_init] for a class without fields of its own *)
Definition blank_field : Field :=
  mkField KField None None VNone None false false None None None None 0 0.

Definition field_at (s0 : state) (r : nat) : Field :=
  default blank_field (field_objs s0 !! r).

Definition chain_at (s0 : state) (c : nat) : list func :=
  default [] (chains s0 !! c).

(** The copy made for the [i]-th accepted entry. *)
Definition copy_entry (s0 : state) (i : nat) (e : string * nat) : Field :=
  with_instance_name (slot_of (Some (fst e)))
    (with_name (Some (fst e))
       (copy_of (field_at s0 (snd e))
          (length (chains s0) + 2 * i) (S (length (chains s0) + 2 * i)))).

Definition copy_chains (s0 : state) (e : string * nat) : list (list func) :=
  [chain_at s0 (setters_funcs (field_at s0 (snd e)));
   rev (chain_at s0 (getters_funcs (field_at s0 (snd e))))].

Definition resolved_dict (s0 : state) (acc : list (string * nat)) : list (string * nat) :=
  imap (fun i e => (fst e, length (field_objs s0) + i)) acc.

Definition resolving_state (s0 : state) (top : nat) (anc : list nat) (done : bool)
    (acc : list (string * nat)) : state :=
  mkState
    (<[top := mkClass anc (resolved_dict s0 acc) (Some (map snd (resolved_dict s0 acc))) done]>
       (classes s0))
    (field_objs s0 ++ imap (copy_entry s0) acc)
    (chains s0 ++ concat (map (copy_chains s0) acc))
    (heap s0).

(** Whether a copy accepted so far answers to [key]. *)
Definition matched (s0 : state) (acc : list (string * nat)) (key : string) : bool :=
  existsb (fun e => Field_match (copy_entry s0 0 e) key) acc.

Definition accept (s0 : state) (acc : list (string * nat)) (e : string * nat) :
    list (string * nat) :=
  if matched s0 acc (fst e) then acc else acc ++ [e].

Definition inherited_entries (s0 : state) (anc : list nat) : list (string * nat) :=
  flat_map (fun c => match classes s0 !! c with
                     | Some k => cls_dict k
                     | None => []
                     end) anc.

(** An entry that [copy] can work on. *)
Definition entry_ok (s0 : state) (e : string * nat) : bool :=
  match field_objs s0 !! snd e with
  | Some fd =>
      bool_decide (setters_funcs fd < length (chains s0)) &&
      bool_decide (getters_funcs fd < length (chains s0))
  | None => false
  end.

(** The ancestry of [top] as [__one_time_init] needs it: classes other than
    [top] that exist, whose fields [copy] can work on. *)
Definition ancestry_ok (s0 : state) (top : nat) (anc : list nat) : bool :=
  forallb (fun c =>
             bool_decide (c <> top) &&
             match classes s0 !! c with
             | Some kc => forallb (entry_ok s0) (cls_dict kc)
             | None => false
             end) anc.

Definition accept_all (s0 : state) (acc es : list (string * nat)) : list (string * nat) :=
  foldl (accept s0) acc es.

(** No field inherited under another name answers to [X] through its
    mapping name. *)
Definition no_clash (s0 : state) (es : list (string * nat)) (X : string) : bool :=
  forallb (fun e =>
             bool_decide (fst e = X) ||
             negb (bool_decide (mapping_name (field_at s0 (snd e)) = Some X))) es.

(** ** Independence from a heap cell *)

(** The store with cell [a] replaced. *)
Definition overwrite (a : nat) (c : cell) (s : state) : state :=
  set_heap (<[a := c]> (heap s)) s.

Definition lift_out {A} (a : nat) (c : cell) (o : outcome A) : outcome A :=
  match o with
  | Ret x s => Ret x (overwrite a c s)
  | Raise e s => Raise e (overwrite a c s)
  | Abort w => Abort w
  end.

Definition grows {A} (s : state) (o : outcome A) : Prop :=
  match o with
  | Ret _ s' | Raise _ s' => length (heap s) <= length (heap s')
  | Abort _ => True
  end.

(** A computation that neither reads nor writes cell [a]. *)
Definition indep {A} (a : nat) (m : M A) : Prop :=
  forall c s, a < length (heap s) ->
    m (overwrite a c s) = lift_out a c (m s) /\ grows s (m s).

(** The engine's re-entrant calls on other instances never touch cell [a]. *)
Definition indep_rec (a : nat) (R : rec) : Prop :=
  (forall b key, b <> a -> indep a (r_getattr R b key)) /\
  (forall b key v, b <> a -> indep a (r_setattr R b key v)) /\
  (forall f b, b <> a -> indep a (r_get R f b)) /\
  (forall c parent, indep a (r_new R c VNone parent)).

(** What a caller sees of a call: the value returned or the exception. *)
Definition observed {A} (o : outcome A) : option (exn + A) :=
  match o with
  | Ret x _ => Some (inr x)
  | Raise e _ => Some (inl e)
  | Abort _ => None
  end.

(** ** Stores for closed examples *)

(** A store with one model class (class 1, under [Typing2] as class 0) that
    has a storage-backed field [a] and a virtual field [v], and one instance
    with a value stored for [a]. *)
Definition store_virtual : state :=
  mkState
    [mkClass [] [] None false;
     mkClass [0] [("a", 0); ("v", 1)] (Some [0; 1]) true]
    [mkField KField (Some "a") None VNone None false false None None None (Some "_a") 0 1;
     mkField KvField (Some "v") None (VInt 7) None false false None None None (Some "_v") 2 3]
    [[]; []; []; []]
    [Inst 1 {["_a" := VInt 5]}].

(** Two setter or getter functions that do not commute. *)
Definition add_ten : func :=
  Function (fun _ v => match v with VInt z => VInt (z + 10) | _ => v end).
Definition double : func :=
  Method (fun v => match v with VInt z => VInt (z * 2) | _ => v end).

(** A model class with one field [a] whose default is [5], and an instance
    with nothing stored. *)
Definition store_default (setters getters : list func) : state :=
  mkState
    [mkClass [] [] None false;
     mkClass [0] [("a", 0)] (Some [0]) true]
    [mkField KField (Some "a") None (VInt 5) None false false None None None (Some "_a") 0 1]
    [setters; getters]
    [Inst 1 ∅].

(** A model class with one list-typed field [items] (as [list_of()] sets it
    up) and an instance with nothing stored; [inside] is the per-element
    instanciator.  Class 2 is a model class with one plain field [a]. *)
Definition store_list (inside : option factory) : state :=
  mkState
    [mkClass [] [] None false;
     mkClass [0] [("items", 0)] (Some [0]) true;
     mkClass [0] [("a", 1)] None false]
    [mkField KField (Some "items") (Some FList) VNone inside true false None None None
       (Some "_items") 0 1;
     mkField KField None None VNone None false false None None None None 2 3]
    [[]; []; []; []]
    [Inst 1 ∅].

(** A class [P] (class 1) that declares [X], and two classes [A] (class 2)
    and [B] (class 3) derived from it that declare nothing; no class is
    resolved yet; one instance of [A] and one of [B]. *)
Definition store_siblings : state :=
  mkState
    [mkClass [] [] None false;
     mkClass [0] [("X", 0)] None false;
     mkClass [1; 0] [] None false;
     mkClass [1; 0] [] None false]
    [mkField KField None None VNone None false false None None None None 0 1]
    [[]; []]
    [Inst 2 ∅; Inst 3 ∅].

(** The same, but [P] declares [Y = Field().mapping("X")] before [X]. *)
Definition store_siblings_mapped : state :=
  mkState
    [mkClass [] [] None false;
     mkClass [0] [("Y", 0); ("X", 1)] None false;
     mkClass [1; 0] [] None false;
     mkClass [1; 0] [] None false]
    [mkField KField None None VNone None false false (Some "X") None None None 0 1;
     mkField KField None None VNone None false false None None None None 2 3]
    [[]; []; []; []]
    [Inst 2 ∅; Inst 3 ∅].

(** ** Flat models and further vocabulary *)

Definition is_ref (v : value) : bool :=
  match v with
  | VRef _ => true
  | _ => false
  end.

Definition fname (s : state) (f : nat) : string := default "" (name (field_at s f)).
Definition fslot (s : state) (f : nat) : string := default "" (instance_name (field_at s f)).

Definition chain_empty (s : state) (c : nat) : bool :=
  match chains s !! c with
  | Some [] => true
  | _ => false
  end.

(** A storage-backed scalar field of class [c], reached under its own name,
    with a plain slot, no instanciator and no setters or getters. *)
Definition flat_field_ok (s : state) (c : nat) (fs : list nat) (f : nat) : bool :=
  match field_objs s !! f with
  | Some fd =>
      match kind fd, name fd, instance_name fd, is_list fd, instanciator fd with
      | KField, Some nm, Some slot, false, None =>
          bool_decide (class_lookup (classes s) c nm = Some f) &&
          bool_decide (class_lookup (classes s) c slot = None) &&
          bool_decide (find_field (field_objs s) fs nm = Some (Some f)) &&
          chain_empty s (setters_funcs fd) &&
          chain_empty s (getters_funcs fd)
      | _, _, _, _, _ => false
      end
  | None => false
  end.

(** What the loads converter makes of the default value. *)
Definition converted_default (fd : Field) : value :=
  match Field_loads_convert fd (default_value fd) with
  | Ok v => v
  | Err _ => VNone
  end.

(** The default of the field can be stored and is no object reference. *)
Definition default_ok (s : state) (f : nat) : bool :=
  match Field_loads_convert (field_at s f) (default_value (field_at s f)) with
  | Ok v => negb (is_ref v)
  | Err _ => false
  end.

(** The value a read of the field gives on an instance with attributes
    [attrs]. *)
Definition dumped_value (s : state) (attrs : gmap string value) (f : nat) : value :=
  match attrs !! fslot s f with
  | Some v => v
  | None => converted_default (field_at s f)
  end.

(** The raw dump of a flat instance, and its attributes after the dump. *)
Definition raw_dump (s : state) (attrs : gmap string value) (fs : list nat) :
    list (string * value) :=
  map (fun f => (fname s f, dumped_value s attrs f)) fs.

Definition materialize (s : state) (fs : list nat) (attrs : gmap string value) :
    gmap string value :=
  fold_left (fun a f => <[fslot s f := dumped_value s a f]> a) fs attrs.

(** The attributes of an instance with attributes [tgt] after the raw dump
    of an instance with attributes [src] was loaded into it. *)
Definition loaded (s : state) (src : gmap string value) (fs : list nat)
    (tgt : gmap string value) : gmap string value :=
  fold_left (fun a f => <[fslot s f := dumped_value s src f]> a) fs tgt.

(** A class whose resolved fields are all flat, with distinct names and
    slots and storable defaults. *)
Definition flat_model (s : state) (c : nat) (fs : list nat) : bool :=
  forallb (flat_field_ok s c fs) fs && forallb (default_ok s) fs &&
  bool_decide (NoDup (fslot s <$> fs)) && bool_decide (NoDup (fname s <$> fs)).

(** No field of the instance reads as an object reference. *)
Definition flat_values (s : state) (attrs : gmap string value) (fs : list nat) : bool :=
  forallb (fun f => negb (is_ref (dumped_value s attrs f))) fs.

(** The loads converters leave the values the instance holds as they are. *)
Definition loads_fixed (s : state) (attrs : gmap string value) (fs : list nat) : Prop :=
  Forall (fun f => Field_loads_convert (field_at s f) (dumped_value s attrs f)
                   = Ok (dumped_value s attrs f)) fs.

(** [int]-like loads converter for closed examples. *)
Definition as_int (v : value) : res value :=
  match v with
  | VInt z => Ok (VInt z)
  | VBool b => Ok (VInt (if b then 1 else 0))
  | _ => Err TypeError
  end.

Definition as_text (v : value) : res value :=
  match v with
  | VInt z => Ok (VStr (if Z.eqb z 0 then "zero" else "nonzero"))
  | _ => Ok v
  end.

(** A model class with a hidden, mapped, converted field [a] and a plain
    field [b], and two instances. *)
Definition store_flat : state :=
  mkState
    [mkClass [] [] None false;
     mkClass [0] [("a", 0); ("b", 1)] (Some [0; 1]) true]
    [mkField KField (Some "a") None (VInt 5) None false true (Some "A") (Some as_text)
       (Some as_int) (Some "_a") 0 1;
     mkField KField (Some "b") None (VStr "x") None false false None None None
       (Some "_b") 2 3]
    [[]; []; []; []]
    [Inst 1 {["_a" := VInt 3]}; Inst 1 {["_b" := VStr "y"]}].

(** Truthy data without [items()]: [True], a number other than zero, a
    string or bytes that are not empty, a sequence that is not empty. *)
Definition not_mapping (data : value) : bool :=
  match data with
  | VBool b => b
  | VInt z => negb (Z.eqb z 0)
  | VStr x | VBytes x => negb (String.eqb x "")
  | VList (_ :: _) => true
  | _ => false
  end.

(** A codec that knows one payload, for closed examples. *)
Definition one_json : string -> res value :=
  fun payload => if String.eqb payload "[1]" then Ok (VList [VInt 1]) else Err ValueError.

Definition shown (s : state) (f : nat) : bool := negb (hidden (field_at s f)).

Definition display_key (s : state) (f : nat) : string :=
  default "" (Field_get_name (field_at s f) false).

Definition display_value (s : state) (attrs : gmap string value) (f : nat) : value :=
  match Field_dumps_convert (field_at s f) (dumped_value s attrs f) with
  | Ok v => v
  | Err _ => VNone
  end.

(** The dumps converter accepts the value of the field and gives no object
    reference. *)
Definition display_ok (s : state) (attrs : gmap string value) (f : nat) : bool :=
  match Field_dumps_convert (field_at s f) (dumped_value s attrs f) with
  | Ok v => negb (is_ref v)
  | Err _ => false
  end.

(** [dumps()] of a flat instance: the fields that are not hidden, under
    their mapping names where they have one, through their dumps
    converters. *)
Definition display_dump (s : state) (attrs : gmap string value) (fs : list nat) :
    list (string * value) :=
  fold_left (fun acc f => dict_set (display_key s f) (display_value s attrs f) acc)
    (List.filter (shown s) fs) [].

(** [store_flat] with [a] shown and [b] hidden. *)
Definition store_flat_shown : state :=
  set_field_objs
    [mkField KField (Some "a") None (VInt 5) None false false (Some "A") (Some as_text)
       (Some as_int) (Some "_a") 0 1;
     mkField KField (Some "b") None (VStr "x") None false true None None None
       (Some "_b") 2 3]
    store_flat.

(** A model class with a field that holds a model of class 2. *)
Definition store_nested : state :=
  mkState
    [mkClass [] [] None false;
     mkClass [0] [("child", 0)] (Some [0]) true;
     mkClass [0] [("a", 1)] (Some [1]) true]
    [mkField KField (Some "child") (Some (FTyping 2)) VNone None false false None None None
       (Some "_child") 0 1;
     mkField KField (Some "a") None (VInt 5) None false false None None None (Some "_a") 2 3]
    [[]; []; []; []]
    [Inst 1 ∅].

(** What [set_name] makes of a field. *)
Definition rename (nm : string) (fd : Field) : Field :=
  with_instance_name (slot_of (Some nm)) (with_name (Some nm) fd).

(** The field objects after [set_name] ran over the entries of a class
    dictionary. *)
Definition named_fields (fo : list Field) (d : list (string * nat)) : list Field :=
  fold_left (fun fo e => <[snd e := rename (fst e) (default blank_field (fo !! snd e))]> fo)
    d fo.

(** Ancestors that declare no field. *)
Definition ancestors_bare (s : state) (top : nat) (anc : list nat) : bool :=
  forallb (fun c =>
             bool_decide (c <> top) &&
             match classes s !! c with
             | Some kc => match cls_dict kc with [] => true | _ => false end
             | None => false
             end) anc.

Definition entries_bound (s : state) (d : list (string * nat)) : bool :=
  forallb (fun e => bool_decide (snd e < length (field_objs s))) d.

(** A class that declares [a] and [b], not resolved yet; the field bound to
    [a] was constructed under another name, the one bound to [b] without
    one. *)
Definition store_declared : state :=
  mkState
    [mkClass [] [] None false;
     mkClass [0] [("a", 0); ("b", 1)] None false]
    [mkField KField (Some "other") None VNone None false false None None None
       (Some "_other") 0 1;
     mkField KField None None (VInt 1) None false false None None None None 2 3]
    [[]; []; []; []]
    [Inst 1 ∅].

(** [store_nested] with the child built and a value stored in it. *)
Definition store_family : state :=
  set_heap [Inst 1 {["_child" := VRef 1]};
            Inst 2 (<["_a" := VInt 7]> {["parent" := VRef 0]})] store_nested.

(** [store_list] with a list of two numbers stored. *)
Definition store_list_filled : state :=
  set_heap [Inst 1 {["_items" := VRef 1]}; LObj [VInt 1; VInt 2]] (store_list None).

(** ** Elements of list-typed fields *)






(** ** Scalar fields with setters and getters *)

















(** * Properties *)

Ltac proj :=
  cbn [classes field_objs chains heap set_classes set_field_objs set_chains
       set_heap r_getattr r_setattr r_delattr r_get r_new r_loads_from_dict
       r_dumps].

(** ** Running the monad *)

Lemma bind_Ret {A B} (m : M A) (k : A -> M B) s a s' :
  m s = Ret a s' -> bind m k s = k a s'.
Proof. intros H. unfold bind. by rewrite H. Qed.

Lemma bind_Raise {A B} (m : M A) (k : A -> M B) s e s' :
  m s = Raise e s' -> bind m k s = Raise e s'.
Proof. intros H. unfold bind. by rewrite H. Qed.

Lemma bind_unit (m : M unit) s : bind m (fun _ => ret tt) s = m s.
Proof. unfold bind, ret. destruct (m s) as [[] ?| |]; reflexivity. Qed.

Lemma for_each_app {A} (l1 l2 : list A) (body : A -> M unit) s :
  for_each (l1 ++ l2) body s = bind (for_each l1 body) (fun _ => for_each l2 body) s.
Proof.
  revert s. induction l1 as [|x l1 IH]; intros s; [reflexivity|].
  cbn [for_each app]. unfold bind at 1 2 3.
  destruct (body x s) as [[] s1| |]; [|reflexivity..].
  rewrite IH. reflexivity.
Qed.

Lemma deref_Some s f fd : field_objs s !! f = Some fd -> deref f s = Ret fd s.
Proof. intros H. unfold deref. by rewrite H. Qed.

Lemma read_chain_Some s c l : chains s !! c = Some l -> read_chain c s = Ret l s.
Proof. intros H. unfold read_chain. by rewrite H. Qed.

Lemma get_class_Some s c k : classes s !! c = Some k -> get_class c s = Ret k s.
Proof. intros H. unfold get_class. by rewrite H. Qed.

Lemma read_cell_Some s r c : heap s !! r = Some c -> read_cell r s = Ret c s.
Proof. intros H. unfold read_cell. by rewrite H. Qed.

Lemma write_cell_Some s r c c' :
  heap s !! r = Some c ->
  write_cell r c' s = Ret tt (set_heap (<[r := c']> (heap s)) s).
Proof.
  intros H. unfold write_cell.
  by rewrite (bind_Ret _ _ _ _ _ (read_cell_Some _ _ _ H)).
Qed.

Lemma set_heap_id s : set_heap (heap s) s = s.
Proof. by destruct s. Qed.

Lemma type_of_Inst s obj cls attrs :
  heap s !! obj = Some (Inst cls attrs) -> type_of obj s = Ret cls s.
Proof.
  intros H. unfold type_of.
  by rewrite (bind_Ret _ _ _ _ _ (read_cell_Some _ _ _ H)).
Qed.

Lemma Typing2_get_fields_Some s obj cls attrs k fs :
  heap s !! obj = Some (Inst cls attrs) ->
  classes s !! cls = Some k ->
  mro_fields (classes s) (cls :: cls_ancestors k) = Some fs ->
  Typing2_get_fields obj s = Ret fs s.
Proof.
  intros Hobj Hk Hfs. unfold Typing2_get_fields.
  rewrite (bind_Ret _ _ _ _ _ (type_of_Inst _ _ _ _ Hobj)).
  rewrite (bind_Ret _ _ _ _ _ (get_class_Some _ _ _ Hk)).
  unfold bind, gets. by rewrite Hfs.
Qed.

(** ** Attribute access that no descriptor intercepts *)

Section Plain.

Variable R : rec.
Variables (s : state) (obj cls : nat) (attrs : gmap string value) (slot : string).
Hypothesis Hobj : heap s !! obj = Some (Inst cls attrs).
Hypothesis Hslot : class_lookup (classes s) cls slot = None.

Lemma py_getattr_plain :
  py_getattr R obj (Some slot) s =
  match attrs !! slot with
  | Some v => Ret v s
  | None => Raise AttributeError s
  end.
Proof.
  unfold py_getattr. rewrite (bind_Ret _ _ _ _ _ (read_cell_Some _ _ _ Hobj)).
  unfold bind, gets. rewrite Hslot. by destruct (attrs !! slot).
Qed.

Lemma py_setattr_plain v :
  py_setattr R obj (Some slot) v s =
  Ret tt (set_heap (<[obj := Inst cls (<[slot := v]> attrs)]> (heap s)) s).
Proof.
  unfold py_setattr. rewrite (bind_Ret _ _ _ _ _ (read_cell_Some _ _ _ Hobj)).
  unfold bind, gets. rewrite Hslot.
  by apply write_cell_Some with (c := Inst cls attrs).
Qed.

Lemma py_delattr_plain :
  py_delattr R obj (Some slot) s =
  match attrs !! slot with
  | Some _ => Ret tt (set_heap (<[obj := Inst cls (delete slot attrs)]> (heap s)) s)
  | None => Raise AttributeError s
  end.
Proof.
  unfold py_delattr. rewrite (bind_Ret _ _ _ _ _ (read_cell_Some _ _ _ Hobj)).
  unfold bind, gets. rewrite Hslot. destruct (attrs !! slot); [|done].
  by apply write_cell_Some with (c := Inst cls attrs).
Qed.

End Plain.

(** ** Virtual fields: direct access *)

(** C7.  On a [vField], [direct_get] raises [UnsupportedOperation], and so
    does [direct_set] for every value and either setting of
    [bypass_converter]; the store is the one the call started in. *)
Theorem vField_direct_access_unsupported (R : rec) (s : state) (f instance : nat)
    (fd : Field) (v : value) (bypass_converter : bool) :
  field_objs s !! f = Some fd ->
  kind fd = KvField ->
  direct_get R f instance s = Raise UnsupportedOperation s /\
  direct_set R f instance v bypass_converter s = Raise UnsupportedOperation s.
Proof.
  intros Hf Hk. unfold direct_get, direct_set.
  rewrite !(bind_Ret _ _ _ _ _ (deref_Some _ _ _ Hf)), Hk. done.
Qed.

Lemma vField_direct_access_unsupported_witness :
  direct_get (engine no_json 3) 1 0 store_virtual
    = Raise UnsupportedOperation store_virtual /\
  direct_set (engine no_json 3) 1 0 (VInt 9) true store_virtual
    = Raise UnsupportedOperation store_virtual.
Proof.
  apply (vField_direct_access_unsupported (engine no_json 3) store_virtual 1 0
           (mkField KvField (Some "v") None (VInt 7) None false false None None None
              (Some "_v") 2 3) (VInt 9) true); reflexivity.
Defined.

(** ** Reset *)

Section Reset.

Variable json_loads : string -> res value.

Lemma Field_delete_plain n s f fd obj cls attrs slot :
  field_objs s !! f = Some fd ->
  instance_name fd = Some slot ->
  heap s !! obj = Some (Inst cls attrs) ->
  class_lookup (classes s) cls slot = None ->
  Field_delete (engine json_loads (S n)) f obj s =
  Ret tt (set_heap (<[obj := Inst cls (delete slot attrs)]> (heap s)) s).
Proof.
  intros Hf Hn Hobj Hcl. unfold Field_delete.
  rewrite (bind_Ret _ _ _ _ _ (deref_Some _ _ _ Hf)), Hn.
  unfold try_AttributeError. cbn [engine r_delattr].
  rewrite (py_delattr_plain _ _ _ _ _ _ Hobj Hcl).
  destruct (attrs !! slot) eqn:Hat; [done|].
  unfold ret. rewrite (delete_id _ _ Hat), list_insert_id by done.
  by rewrite set_heap_id.
Qed.

Lemma descr_delete_plain n s f fd obj cls attrs :
  field_objs s !! f = Some fd ->
  slot_plain (classes s) cls fd = true ->
  heap s !! obj = Some (Inst cls attrs) ->
  descr_delete (engine json_loads (S n)) f obj s =
  Ret tt (set_heap
            (<[obj := Inst cls (clear_slots (storage_slots (field_objs s) [f]) attrs)]>
               (heap s)) s).
Proof.
  intros Hf Hp Hobj. unfold descr_delete, storage_slots, slot_plain in *.
  rewrite (bind_Ret _ _ _ _ _ (deref_Some _ _ _ Hf)).
  cbn [omap list_omap]. rewrite Hf.
  destruct (kind fd).
  - destruct (instance_name fd) as [slot|] eqn:Hn; [|done].
    apply bool_decide_eq_true in Hp.
    by apply Field_delete_plain with (fd := fd).
  - unfold vField_delete, ret. cbn [clear_slots foldl].
    by rewrite list_insert_id, set_heap_id.
Qed.

Lemma storage_slots_cons fo f fs :
  storage_slots fo (f :: fs) = storage_slots fo [f] ++ storage_slots fo fs.
Proof. unfold storage_slots. cbn [omap list_omap]. by destruct (_ : option string). Qed.

Lemma clear_slots_app l1 l2 attrs :
  clear_slots (l1 ++ l2) attrs = clear_slots l2 (clear_slots l1 attrs).
Proof. unfold clear_slots. apply foldl_app. Qed.

Lemma reset_loop n cls fs : forall s attrs self,
  heap s !! self = Some (Inst cls attrs) ->
  fields_plain s cls fs = true ->
  for_each fs (fun f => descr_delete (engine json_loads (S n)) f self) s =
  Ret tt (set_heap
            (<[self := Inst cls (clear_slots (storage_slots (field_objs s) fs) attrs)]>
               (heap s)) s).
Proof.
  induction fs as [|f fs IH]; intros s attrs self Hself Hfs.
  - cbn. unfold ret. by rewrite list_insert_id, set_heap_id.
  - cbn [fields_plain forallb] in Hfs. apply andb_true_iff in Hfs as [Hf Hfs].
    destruct (field_objs s !! f) as [fd|] eqn:Hfd; [|done].
    cbn [for_each].
    rewrite (bind_Ret _ _ _ _ _ (descr_delete_plain n s f fd self cls attrs Hfd Hf Hself)).
    rewrite (IH _ (clear_slots (storage_slots (field_objs s) [f]) attrs) self).
    + proj. by rewrite list_insert_insert_eq, (storage_slots_cons _ f fs), clear_slots_app.
    + proj. apply list_lookup_insert_eq. by eapply lookup_lt_Some.
    + exact Hfs.
Qed.

(** C10.  [__delete__] of a [vField] returns without touching the store,
    on every instance.  So [reset] on a model whose resolved fields include
    virtual fields succeeds: the instance loses the stored values of its
    storage-backed fields and nothing else changes. *)
Theorem reset_with_virtual_fields n s self cls attrs k fs :
  heap s !! self = Some (Inst cls attrs) ->
  classes s !! cls = Some k ->
  mro_fields (classes s) (cls :: cls_ancestors k) = Some fs ->
  fields_plain s cls fs = true ->
  (forall f fd instance s',
     field_objs s' !! f = Some fd -> kind fd = KvField ->
     descr_delete (engine json_loads n) f instance s' = Ret tt s') /\
  Typing2_reset (engine json_loads (S n)) self s =
  Ret tt (set_heap
            (<[self := Inst cls (clear_slots (storage_slots (field_objs s) fs) attrs)]>
               (heap s)) s).
Proof.
  intros Hself Hk Hfs Hplain. split.
  - intros f fd instance s' Hf Hkind. unfold descr_delete.
    by rewrite (bind_Ret _ _ _ _ _ (deref_Some _ _ _ Hf)), Hkind.
  - unfold Typing2_reset.
    rewrite (bind_Ret _ _ _ _ _ (Typing2_get_fields_Some _ _ _ _ _ _ Hself Hk Hfs)).
    by apply reset_loop.
Qed.

End Reset.

Lemma reset_with_virtual_fields_witness :
  Typing2_reset (engine no_json 1) 0 store_virtual =
  Ret tt (set_heap [Inst 1 ∅] store_virtual).
Proof.
  apply (proj2 (reset_with_virtual_fields no_json 0 store_virtual 0 1
                  {["_a" := VInt 5]}
                  (mkClass [0] [("a", 0); ("v", 1)] (Some [0; 1]) true) [0; 1]
                  eq_refl eq_refl eq_refl eq_refl)).
Defined.

(** ** Construction from seed data of an unsupported shape *)

Lemma Typing2_one_time_init_done s self c attrs k :
  heap s !! self = Some (Inst c attrs) ->
  classes s !! c = Some k ->
  cls_init_done k = true ->
  Typing2_one_time_init self s = Ret tt s.
Proof.
  intros Hself Hk Hdone. unfold Typing2_one_time_init.
  rewrite (bind_Ret _ _ _ _ _ (type_of_Inst _ _ _ _ Hself)).
  rewrite (bind_Ret _ _ _ _ _ (get_class_Some _ _ _ Hk)).
  by rewrite Hdone.
Qed.

(** [__init__] without seed data, or with ignored seed data, on a class
    that is resolved already. *)
Lemma Typing2_init_resolved json_loads n s self c attrs k data parent :
  heap s !! self = Some (Inst c attrs) ->
  classes s !! c = Some k ->
  cls_init_done k = true ->
  class_lookup (classes s) c "parent" = None ->
  data = VNone \/ seed_ignored data = true ->
  Typing2_init json_loads (engine json_loads (S n)) self data parent s =
  Ret tt (set_heap (<[self := Inst c (<["parent" := parent]> attrs)]> (heap s)) s).
Proof.
  intros Hself Hk Hdone Hparent Hdata. unfold Typing2_init.
  cbn [engine r_setattr].
  rewrite (bind_Ret _ _ _ _ _ (py_setattr_plain _ _ _ _ _ _ Hself Hparent parent)).
  set (s1 := set_heap _ s).
  assert (Hself1 : heap s1 !! self = Some (Inst c (<["parent" := parent]> attrs))).
  { subst s1. proj. apply list_lookup_insert_eq. by eapply lookup_lt_Some. }
  rewrite (bind_Ret _ _ _ _ _ (Typing2_one_time_init_done s1 self c _ k Hself1 Hk Hdone)).
  unfold Typing2_post_init. rewrite (bind_Ret _ _ _ tt _ eq_refl).
  destruct Hdata as [->|Hdata]; [done|]. by destruct data.
Qed.

(** C8.  Seed data that is neither a model instance, nor a dictionary, nor
    bytes is ignored: the construction is the construction without seed
    data, whatever that one does.  For a resolved class with no field named
    [parent] it returns the new instance, which holds the [parent] reference
    and nothing else, and no error is raised. *)
Theorem init_ignores_unsupported_seed (json_loads : string -> res value)
    (n : nat) (c : nat) (data parent : value) (s : state) (k : Class) :
  seed_ignored data = true ->
  (forall R, Typing2_new json_loads R c data parent s
             = Typing2_new json_loads R c VNone parent s) /\
  (classes s !! c = Some k -> cls_init_done k = true ->
   class_lookup (classes s) c "parent" = None ->
   Typing2_new json_loads (engine json_loads (S n)) c data parent s =
   Ret (VRef (length (heap s)))
       (set_heap (heap s ++ [Inst c {["parent" := parent]}]) s)).
Proof.
  intros Hseed. split.
  - intros R. by destruct data.
  - intros Hk Hdone Hparent.
    unfold Typing2_new, alloc_cell. unfold bind at 1.
    set (s1 := set_heap _ s).
    assert (Hnew : heap s1 !! length (heap s) = Some (Inst c ∅)).
    { subst s1. proj. by rewrite lookup_app_r, Nat.sub_diag by lia. }
    rewrite (bind_Ret _ _ _ _ _
               (Typing2_init_resolved json_loads n s1 _ c ∅ k data parent Hnew Hk Hdone
                  Hparent (or_intror Hseed))).
    unfold ret. subst s1. proj.
    by rewrite insert_app_r_alt, Nat.sub_diag by lia.
Qed.

Lemma init_ignores_unsupported_seed_witness :
  Typing2_new no_json (engine no_json 1) 1 (VStr "seed") VNone store_virtual =
  Ret (VRef 1)
      (set_heap [Inst 1 {["_a" := VInt 5]}; Inst 1 {["parent" := VNone]}] store_virtual).
Proof.
  apply (proj2 (init_ignores_unsupported_seed no_json 0 1 (VStr "seed") VNone
                  store_virtual
                  (mkClass [0] [("a", 0); ("v", 1)] (Some [0; 1]) true) eq_refl)
           eq_refl eq_refl eq_refl).
Defined.

(** ** Permissive loading *)

Section Loading.

Variable R : rec.

Lemma loads_from_dict_VDict self d s :
  Typing2_loads_from_dict R self (VDict d) s = for_each d (load_entry R self) s.
Proof.
  unfold Typing2_loads_from_dict. destruct d as [|e d]; [reflexivity|].
  cbn [truthy]. rewrite (bind_Ret _ _ _ true _ eq_refl). cbn [negb].
  unfold Typing2_pre_loads. rewrite (bind_Ret _ _ _ (VDict (e :: d)) _ eq_refl).
  cbn [dict_items]. rewrite (bind_Ret _ _ _ (e :: d) _ eq_refl).
  unfold Typing2_post_loads. apply bind_unit.
Qed.

Lemma load_entry_unmatched self key v s :
  Typing2_get_field self key s = Ret None s ->
  load_entry R self (key, v) s = Ret tt s.
Proof. intros H. unfold load_entry. by rewrite (bind_Ret _ _ _ _ _ H). Qed.

(** C6.  Loading falsy data returns at once with the store as it was.  In
    a dictionary, an item whose key matches no resolved field when the loop
    reaches it is skipped: loading goes on exactly as if the item were not
    there, and no error comes from it. *)
Theorem loads_from_dict_permissive self data d1 key v d2 s :
  (truthy data s = Ret false s ->
   Typing2_loads_from_dict R self data s = Ret tt s) /\
  ((forall s1, for_each d1 (load_entry R self) s = Ret tt s1 ->
               Typing2_get_field self key s1 = Ret None s1) ->
   Typing2_loads_from_dict R self (VDict (d1 ++ (key, v) :: d2)) s
   = Typing2_loads_from_dict R self (VDict (d1 ++ d2)) s).
Proof.
  split.
  - intros H. unfold Typing2_loads_from_dict.
    by rewrite (bind_Ret _ _ _ _ _ H).
  - intros H. rewrite !loads_from_dict_VDict, !for_each_app.
    destruct (for_each d1 (load_entry R self) s) as [[] s1|e s1|w] eqn:H1.
    + rewrite !(bind_Ret _ _ _ _ _ H1). cbn [for_each].
      by rewrite (bind_Ret _ _ _ _ _ (load_entry_unmatched _ _ _ _ (H s1 eq_refl))).
    + by rewrite !(bind_Raise _ _ _ _ _ H1).
    + unfold bind. by rewrite H1.
Qed.

End Loading.

(** An instance of the class of [store_virtual] and data with a key that
    names no field. *)
Lemma loads_from_dict_permissive_witness :
  Typing2_loads_from_dict (engine no_json 3) 0 (VList []) store_virtual
    = Ret tt store_virtual /\
  Typing2_loads_from_dict (engine no_json 3) 0
    (VDict [("unknown", VInt 1); ("a", VInt 2)]) store_virtual
  = Typing2_loads_from_dict (engine no_json 3) 0 (VDict [("a", VInt 2)]) store_virtual.
Proof.
  pose proof (loads_from_dict_permissive (engine no_json 3) 0 (VList []) []
                "unknown" (VInt 1) [("a", VInt 2)] store_virtual) as [H1 H2].
  split.
  - apply H1. reflexivity.
  - apply H2. intros s1 Hs1. injection Hs1 as <-. reflexivity.
Defined.

(** ** Registering chain functions *)

Ltac unfold_prims :=
  unfold update_field, write_chain, update_class, write_cell;
  unfold bind, ret, raise, stop, lift, gets, modify, deref, read_chain,
    alloc_chain, alloc_field, get_class, read_cell, alloc_cell;
  proj.

Ltac use H := repeat (rewrite H; cbn beta iota; proj).

Ltac by_compute := vm_compute; reflexivity.

Lemma write_chain_Some s c l l' :
  chains s !! c = Some l ->
  write_chain c l' s = Ret tt (set_chains (<[c := l']> (chains s)) s).
Proof. intros H. unfold_prims. by use H. Qed.

Lemma chains_insert_eq s c (l l' : list func) :
  chains s !! c = Some l ->
  chains (set_chains (<[c := l']> (chains s)) s) !! c = Some l'.
Proof. intros H. proj. apply list_lookup_insert_eq. by eapply lookup_lt_Some. Qed.

Lemma Field_setters_add s f fd l fn :
  field_objs s !! f = Some fd ->
  chains s !! setters_funcs fd = Some l ->
  Field_setters f (Some fn) false s =
  Ret f (set_chains (<[setters_funcs fd := l ++ [fn]]> (chains s)) s).
Proof. intros Hf Hc. unfold Field_setters. unfold_prims. use Hf. by use Hc. Qed.

Lemma Field_setters_clear s f fd l :
  field_objs s !! f = Some fd ->
  chains s !! setters_funcs fd = Some l ->
  Field_setters f None true s =
  Ret f (set_chains (<[setters_funcs fd := []]> (chains s)) s).
Proof. intros Hf Hc. unfold Field_setters. unfold_prims. use Hf. by use Hc. Qed.

Lemma Field_getters_add s f fd l fn :
  field_objs s !! f = Some fd ->
  chains s !! getters_funcs fd = Some l ->
  Field_getters f (Some fn) false s =
  Ret f (set_chains (<[getters_funcs fd := fn :: l]> (chains s)) s).
Proof. intros Hf Hc. unfold Field_getters. unfold_prims. use Hf. by use Hc. Qed.

(** ** Reads and writes through a storage-backed field *)

Section FieldAccess.

Variable json_loads : string -> res value.

Variables (f obj cls : nat).

(** [__set__]: loads converter, then the setter chain, then the slot. *)
Lemma Field_set_plain n s fd slot attrs v v1 ss :
  field_objs s !! f = Some fd ->
  instance_name fd = Some slot ->
  heap s !! obj = Some (Inst cls attrs) ->
  class_lookup (classes s) cls slot = None ->
  Field_loads_convert fd v = Ok v1 ->
  chains s !! setters_funcs fd = Some ss ->
  Field_set (engine json_loads (S n)) f obj v s =
  Ret tt (set_heap (<[obj := Inst cls (<[slot := run_chain ss obj v1]> attrs)]> (heap s)) s).
Proof.
  intros Hf Hn Hobj Hcl Hconv Hss. unfold Field_set.
  rewrite (bind_Ret _ _ _ _ _ (deref_Some _ _ _ Hf)), Hconv.
  rewrite (bind_Ret _ _ _ v1 _ eq_refl).
  rewrite (bind_Ret _ _ _ _ _ (read_chain_Some _ _ _ Hss)), Hn.
  cbn [engine r_setattr]. by apply py_setattr_plain.
Qed.

(** [__get__] when a value is stored: the getter chain on the stored value;
    the store stays as it is. *)
Lemma Field_get_stored n s fd slot attrs w gs :
  field_objs s !! f = Some fd ->
  instance_name fd = Some slot ->
  heap s !! obj = Some (Inst cls attrs) ->
  class_lookup (classes s) cls slot = None ->
  attrs !! slot = Some w ->
  chains s !! getters_funcs fd = Some gs ->
  Field_get (engine json_loads (S n)) f obj s = Ret (run_chain gs obj w) s.
Proof.
  intros Hf Hn Hobj Hcl Hw Hgs. unfold Field_get.
  rewrite (bind_Ret _ _ _ _ _ (deref_Some _ _ _ Hf)), Hn.
  unfold try_AttributeError. cbn [engine r_getattr].
  rewrite (py_getattr_plain _ _ _ _ _ _ Hobj Hcl), Hw.
  rewrite (bind_Ret _ _ _ _ _ (deref_Some _ _ _ Hf)).
  by rewrite (bind_Ret _ _ _ _ _ (read_chain_Some _ _ _ Hgs)).
Qed.

(** [__get__] when nothing is stored.  [None] is put in the slot, the value
    is made by [get_instance], and that value goes through [__set__]: the
    loads converter and the setter chain run on it.  The result of the read
    is the getter chain on what [__set__] stored.  [s1] is the store
    [get_instance] leaves; the field and the instance are looked at again
    there. *)
Lemma Field_get_first_read n s fd slot attrs v s1 fd1 slot1 attrs1 v1 ss gs :
  field_objs s !! f = Some fd ->
  instance_name fd = Some slot ->
  heap s !! obj = Some (Inst cls attrs) ->
  class_lookup (classes s) cls slot = None ->
  attrs !! slot = None ->
  Field_get_instance (engine json_loads (S (S n))) f obj
    (set_heap (<[obj := Inst cls (<[slot := VNone]> attrs)]> (heap s)) s) = Ret v s1 ->
  field_objs s1 !! f = Some fd1 ->
  kind fd1 = KField ->
  instance_name fd1 = Some slot1 ->
  heap s1 !! obj = Some (Inst cls attrs1) ->
  class_lookup (classes s1) cls slot1 = None ->
  Field_loads_convert fd1 v = Ok v1 ->
  chains s1 !! setters_funcs fd1 = Some ss ->
  chains s1 !! getters_funcs fd1 = Some gs ->
  Field_get (engine json_loads (S (S n))) f obj s =
  Ret (run_chain gs obj (run_chain ss obj v1))
      (set_heap (<[obj := Inst cls (<[slot1 := run_chain ss obj v1]> attrs1)]> (heap s1)) s1).
Proof.
  intros Hf Hn Hobj Hcl Hw Hinst Hf1 Hk1 Hn1 Hobj1 Hcl1 Hconv Hss Hgs.
  unfold Field_get at 1.
  rewrite (bind_Ret _ _ _ _ _ (deref_Some _ _ _ Hf)), Hn.
  unfold try_AttributeError. cbn [engine r_getattr r_setattr r_get].
  rewrite (py_getattr_plain _ _ _ _ _ _ Hobj Hcl), Hw.
  rewrite (bind_Ret _ _ _ _ _ (deref_Some _ _ _ Hf)), Hn.
  rewrite (bind_Ret _ _ _ _ _ (py_setattr_plain _ _ _ _ _ _ Hobj Hcl VNone)).
  change (mkRec (py_getattr (engine json_loads (S n))) (py_setattr (engine json_loads (S n)))
            (py_delattr (engine json_loads (S n))) (descr_get (engine json_loads (S n)))
            (Typing2_new json_loads (engine json_loads (S n)))
            (Typing2_loads_from_dict (engine json_loads (S n)))
            (Typing2_dumps (engine json_loads (S n))))
    with (engine json_loads (S (S n))).
  rewrite (bind_Ret _ _ _ _ _ Hinst).
  rewrite (bind_Ret _ _ _ _ _
             (Field_set_plain (S n) s1 fd1 slot1 attrs1 v v1 ss Hf1 Hn1 Hobj1 Hcl1 Hconv Hss)).
  set (s2 := set_heap _ s1).
  unfold descr_get.
  rewrite (bind_Ret _ _ _ _ _ (deref_Some s2 _ _ Hf1)), Hk1.
  apply Field_get_stored with (fd := fd1) (slot := slot1)
         (attrs := <[slot1 := run_chain ss obj v1]> attrs1);
    try done.
  - subst s2. proj. apply list_lookup_insert_eq. by eapply lookup_lt_Some.
  - apply lookup_insert_eq.
Qed.

End FieldAccess.

(** ** Chain order *)

(** C4.  On a field with no loads converter: after registering setters
    [s1] then [s2] on an empty chain, a write of [v] stores [s2 (s1 v)];
    after clearing the setters, whatever they were, a write of [v] stores
    [v]; after registering getters [g1] then [g2] on an empty chain, a read
    of a stored value [w] returns [g1 (g2 w)] and leaves the instance as it
    is. *)
Theorem chain_order (json_loads : string -> res value) n s f fd obj cls slot attrs
    (s1 s2 g1 g2 : func) (v w : value) :
  field_objs s !! f = Some fd ->
  instance_name fd = Some slot ->
  loads_converter fd = None ->
  heap s !! obj = Some (Inst cls attrs) ->
  class_lookup (classes s) cls slot = None ->
  (chains s !! setters_funcs fd = Some [] ->
   (Field_setters f (Some s1) false ;;;
    Field_setters f (Some s2) false ;;;
    Field_set (engine json_loads (S n)) f obj v) s =
   Ret tt (set_heap
             (<[obj := Inst cls (<[slot := call_func obj s2 (call_func obj s1 v)]> attrs)]>
                (heap s))
             (set_chains (<[setters_funcs fd := [s1; s2]]> (chains s)) s))) /\
  (forall ss, chains s !! setters_funcs fd = Some ss ->
   (Field_setters f None true ;;;
    Field_set (engine json_loads (S n)) f obj v) s =
   Ret tt (set_heap (<[obj := Inst cls (<[slot := v]> attrs)]> (heap s))
             (set_chains (<[setters_funcs fd := []]> (chains s)) s))) /\
  (chains s !! getters_funcs fd = Some [] ->
   attrs !! slot = Some w ->
   (Field_getters f (Some g1) false ;;;
    Field_getters f (Some g2) false ;;;
    Field_get (engine json_loads (S n)) f obj) s =
   Ret (call_func obj g1 (call_func obj g2 w))
       (set_chains (<[getters_funcs fd := [g2; g1]]> (chains s)) s)).
Proof.
  intros Hf Hn Hconv Hobj Hcl.
  assert (Hc : Field_loads_convert fd v = Ok v).
  { unfold Field_loads_convert. by rewrite Hconv. }
  split; [|split].
  - intros Hss.
    rewrite (bind_Ret _ _ _ _ _ (Field_setters_add _ _ _ _ s1 Hf Hss)).
    set (sa := set_chains _ s).
    assert (Hssa : chains sa !! setters_funcs fd = Some [s1]) by by apply chains_insert_eq with (l := []).
    rewrite (bind_Ret _ _ _ _ _ (Field_setters_add sa _ _ _ s2 Hf Hssa)).
    set (sb := set_chains _ sa).
    assert (Hssb : chains sb !! setters_funcs fd = Some [s1; s2]) by by apply chains_insert_eq with (l := [s1]).
    rewrite (Field_set_plain json_loads f obj cls n sb fd slot attrs v v [s1; s2]
               Hf Hn Hobj Hcl Hc Hssb).
    subst sb sa. proj. by rewrite list_insert_insert_eq.
  - intros ss Hss.
    rewrite (bind_Ret _ _ _ _ _ (Field_setters_clear _ _ _ _ Hf Hss)).
    set (sa := set_chains _ s).
    assert (Hssa : chains sa !! setters_funcs fd = Some []) by by apply chains_insert_eq with (l := ss).
    by rewrite (Field_set_plain json_loads f obj cls n sa fd slot attrs v v []
               Hf Hn Hobj Hcl Hc Hssa).
  - intros Hgs Hw.
    rewrite (bind_Ret _ _ _ _ _ (Field_getters_add _ _ _ _ g1 Hf Hgs)).
    set (sa := set_chains _ s).
    assert (Hgsa : chains sa !! getters_funcs fd = Some [g1]) by by apply chains_insert_eq with (l := []).
    rewrite (bind_Ret _ _ _ _ _ (Field_getters_add sa _ _ _ g2 Hf Hgsa)).
    set (sb := set_chains _ sa).
    assert (Hgsb : chains sb !! getters_funcs fd = Some [g2; g1]) by by apply chains_insert_eq with (l := [g1]).
    rewrite (Field_get_stored json_loads f obj cls n sb fd slot attrs w [g2; g1]
               Hf Hn Hobj Hcl Hw Hgsb).
    subst sb sa. proj. by rewrite list_insert_insert_eq.
Qed.

(** Setters [add_ten] then [double] on a write of [1] store [22]; getters
    [add_ten] then [double] on a stored [5] return [20]. *)
Lemma chain_order_witness :
  (Field_setters 0 (Some add_ten) false ;;;
   Field_setters 0 (Some double) false ;;;
   Field_set (engine no_json 1) 0 0 (VInt 1)) store_virtual =
  Ret tt (set_heap [Inst 1 {["_a" := VInt 22]}]
            (set_chains [[add_ten; double]; []; []; []] store_virtual)) /\
  (Field_getters 0 (Some add_ten) false ;;;
   Field_getters 0 (Some double) false ;;;
   Field_get (engine no_json 1) 0 0) store_virtual =
  Ret (VInt 20) (set_chains [[]; [double; add_ten]; []; []] store_virtual).
Proof.
  pose proof (chain_order no_json 0 store_virtual 0
                (mkField KField (Some "a") None VNone None false false None None None
                   (Some "_a") 0 1)
                0 1 "_a" {["_a" := VInt 5]} add_ten double add_ten double (VInt 1) (VInt 5)
                eq_refl eq_refl eq_refl eq_refl eq_refl) as (H1 & _ & H3).
  split.
  - exact (H1 eq_refl).
  - exact (H3 eq_refl eq_refl).
Defined.

(** ** The first read of a field *)

(** C1, as the specification states it, fails: the value made for a first
    read is stored through [__set__].  With default [5] and the setter
    [add_ten], [get_instance] makes [5] and the first read stores [15] (and
    returns it, best seen with no getter). *)
Lemma first_read_runs_setters :
  Field_get_instance (engine no_json 2) 0 0 (store_default [add_ten] [])
    = Ret (VInt 5) (store_default [add_ten] []) /\
  Field_get (engine no_json 2) 0 0 (store_default [add_ten] [])
    = Ret (VInt 15)
        (set_heap [Inst 1 {["_a" := VInt 15]}] (store_default [add_ten] [])) /\
  VInt 15 <> VInt 5.
Proof. split; [|split]; [reflexivity | reflexivity | discriminate]. Qed.

(** C1, amended.  [get_instance] makes the value: the default without an
    instanciator, a model built with the instance as [parent] for a
    [Typing2] subclass, the call on no argument for any other class.  On a
    first read [None] is put in the slot without the setters, the value is
    made, and it is stored through [__set__], so after the loads converter
    and the setter chain; the read returns the getter chain on the stored
    value. *)
Theorem first_read_materializes (json_loads : string -> res value) n s f fd obj cls slot
    attrs v s1 fd1 slot1 attrs1 v1 ss gs :
  let R := engine json_loads (S (S n)) in
  let s0 := set_heap (<[obj := Inst cls (<[slot := VNone]> attrs)]> (heap s)) s in
  field_objs s !! f = Some fd ->
  instance_name fd = Some slot ->
  heap s !! obj = Some (Inst cls attrs) ->
  class_lookup (classes s) cls slot = None ->
  attrs !! slot = None ->
  Field_get_instance R f obj s0 = Ret v s1 ->
  field_objs s1 !! f = Some fd1 ->
  kind fd1 = KField ->
  instance_name fd1 = Some slot1 ->
  heap s1 !! obj = Some (Inst cls attrs1) ->
  class_lookup (classes s1) cls slot1 = None ->
  Field_loads_convert fd1 v = Ok v1 ->
  chains s1 !! setters_funcs fd1 = Some ss ->
  chains s1 !! getters_funcs fd1 = Some gs ->
  Field_get_instance R f obj s0 =
    match instanciator fd with
    | None => Ret (default_value fd) s0
    | Some (FTyping c) => r_new R c VNone (VRef obj) s0
    | Some FList =>
        Ret (VRef (length (heap s0))) (set_heap (heap s0 ++ [LObj []]) s0)
    | Some (FClass call) => lift (call None) s0
    | Some (FFunction _) => Raise TypeError s0
    end /\
  Field_get R f obj s =
  Ret (run_chain gs obj (run_chain ss obj v1))
      (set_heap (<[obj := Inst cls (<[slot1 := run_chain ss obj v1]> attrs1)]> (heap s1)) s1).
Proof.
  intros R s0 Hf Hn Hobj Hcl Hw Hinst Hf1 Hk1 Hn1 Hobj1 Hcl1 Hconv Hss Hgs. split.
  - unfold Field_get_instance.
    assert (Hf0 : field_objs s0 !! f = Some fd) by exact Hf.
    rewrite (bind_Ret _ _ _ _ _ (deref_Some _ _ _ Hf0)).
    destruct (instanciator fd) as [[c| |call|call]|]; reflexivity.
  - by apply Field_get_first_read
      with (fd := fd) (slot := slot) (attrs := attrs) (v := v) (fd1 := fd1).
Qed.

Lemma first_read_materializes_witness :
  Field_get (engine no_json 2) 0 0 (store_default [add_ten] [double]) =
  Ret (VInt 30)
      (set_heap [Inst 1 {["_a" := VInt 15]}] (store_default [add_ten] [double])).
Proof.
  etrans.
  - apply (proj2 (first_read_materializes no_json 0 (store_default [add_ten] [double]) 0
                    (mkField KField (Some "a") None (VInt 5) None false false None None
                       None (Some "_a") 0 1)
                    0 1 "_a" ∅ (VInt 5)
                    (set_heap [Inst 1 {["_a" := VNone]}] (store_default [add_ten] [double]))
                    (mkField KField (Some "a") None (VInt 5) None false false None None
                       None (Some "_a") 0 1)
                    "_a" {["_a" := VNone]} (VInt 5) [add_ten] [double]
                    ltac:(by_compute) ltac:(by_compute) ltac:(by_compute)
                    ltac:(by_compute) ltac:(by_compute) ltac:(by_compute)
                    ltac:(by_compute) ltac:(by_compute) ltac:(by_compute)
                    ltac:(by_compute) ltac:(by_compute) ltac:(by_compute)
                    ltac:(by_compute) ltac:(by_compute))).
  - by_compute.
Defined.

(** ** Copying a field *)

Lemma update_field_last cs fo x chs h g :
  update_field (length fo) g (mkState cs (fo ++ [x]) chs h)
  = Ret tt (mkState cs (fo ++ [g x]) chs h).
Proof.
  unfold_prims. rewrite lookup_app_r, Nat.sub_diag by lia. cbn [lookup list_lookup].
  unfold set_field_objs; proj.
  by rewrite insert_app_r_alt, Nat.sub_diag by lia.
Qed.

Lemma Field_set_name_last cs fo x chs h nm :
  Field_set_name (length fo) nm (mkState cs (fo ++ [x]) chs h)
  = Ret tt (mkState cs (fo ++ [with_instance_name (slot_of nm) (with_name nm x)]) chs h).
Proof.
  unfold Field_set_name.
  rewrite (bind_Ret _ _ _ _ _ (update_field_last _ _ _ _ _ _)).
  destruct nm as [n|]; cbn [slot_of]; [destruct (name_truthy (Some n))|];
    apply update_field_last.
Qed.

Lemma Field_init_spec k nm inst dflt s :
  Field_init k nm inst dflt s =
  Ret (length (field_objs s))
      (mkState (classes s)
         (field_objs s ++
            [mkField k nm inst dflt None false false None None None (slot_of nm)
               (length (chains s)) (S (length (chains s)))])
         (chains s ++ [[]; []]) (heap s)).
Proof.
  destruct s as [cs fo ch h]. unfold Field_init.
  unfold alloc_chain at 1. unfold bind at 1. proj.
  unfold alloc_chain at 1. unfold bind at 1. proj.
  unfold alloc_field at 1. unfold bind at 1. proj.
  unfold set_field_objs, set_chains; proj.
  rewrite (bind_Ret _ _ _ _ _ (Field_set_name_last _ _ _ _ _ _)).
  unfold ret. rewrite length_app, Nat.add_1_r, <- app_assoc. reflexivity.
Qed.

Lemma setters_loop field fd l : forall s acc,
  field_objs s !! field = Some fd ->
  chains s !! setters_funcs fd = Some acc ->
  for_each l (fun fn => Field_setters field (Some fn) false ;;; ret tt) s
  = Ret tt (set_chains (<[setters_funcs fd := acc ++ l]> (chains s)) s).
Proof.
  induction l as [|fn l IH]; intros s acc Hf Hc.
  - cbn [for_each]. unfold ret. rewrite app_nil_r, list_insert_id by done. by destruct s.
  - cbn [for_each].
    rewrite (bind_Ret _ _ _ tt _ (bind_Ret _ _ _ _ _ (Field_setters_add _ _ _ _ fn Hf Hc))).
    rewrite (IH _ (acc ++ [fn])); [| done | by apply chains_insert_eq with (l := acc)].
    proj. by rewrite list_insert_insert_eq, <- app_assoc.
Qed.

Lemma getters_loop field fd l : forall s acc,
  field_objs s !! field = Some fd ->
  chains s !! getters_funcs fd = Some acc ->
  for_each l (fun fn => Field_getters field (Some fn) false ;;; ret tt) s
  = Ret tt (set_chains (<[getters_funcs fd := rev l ++ acc]> (chains s)) s).
Proof.
  induction l as [|fn l IH]; intros s acc Hf Hc.
  - cbn [for_each rev app]. unfold ret. rewrite list_insert_id by done. by destruct s.
  - cbn [for_each].
    rewrite (bind_Ret _ _ _ tt _ (bind_Ret _ _ _ _ _ (Field_getters_add _ _ _ _ fn Hf Hc))).
    rewrite (IH _ (fn :: acc)); [| done | by apply chains_insert_eq with (l := acc)].
    proj. rewrite list_insert_insert_eq. cbn [rev]. by rewrite <- app_assoc.
Qed.

(** [copy] returns a new field on two new list objects.  The setters are
    registered again in their order; the getters, registered one by one at
    the front, end up in the reverse of their order. *)
Lemma Field_copy_spec s f self ss gs :
  field_objs s !! f = Some self ->
  chains s !! setters_funcs self = Some ss ->
  chains s !! getters_funcs self = Some gs ->
  Field_copy f s =
  Ret (length (field_objs s))
      (mkState (classes s)
         (field_objs s ++ [copy_of self (length (chains s)) (S (length (chains s)))])
         (chains s ++ [ss; rev gs])
         (heap s)).
Proof.
  intros Hf Hss Hgs.
  unfold Field_copy. rewrite (bind_Ret _ _ _ _ _ (deref_Some _ _ _ Hf)).
  rewrite (bind_Ret _ _ _ _ _ (Field_init_spec _ _ _ _ _)).
  do 10 rewrite (bind_Ret _ _ _ _ _ (update_field_last _ _ _ _ _ _)).
  match goal with |- bind _ _ ?st = _ => set (s1 := st) end.
  assert (Hss1 : chains s1 !! setters_funcs self = Some ss).
  { subst s1. proj. rewrite lookup_app_l; [done|by eapply lookup_lt_Some]. }
  rewrite (bind_Ret _ _ _ _ _ (read_chain_Some _ _ _ Hss1)).
  assert (Hf1 : field_objs s1 !! length (field_objs s)
                = Some (copy_of self (length (chains s)) (S (length (chains s))))).
  { subst s1. proj. by rewrite lookup_app_r, Nat.sub_diag by lia. }
  assert (Hc1 : chains s1 !! length (chains s) = Some []).
  { subst s1. proj. by rewrite lookup_app_r, Nat.sub_diag by lia. }
  rewrite (bind_Ret _ _ _ _ _ (setters_loop _ _ ss s1 [] Hf1 Hc1)).
  match goal with |- bind _ _ ?st = _ => set (s2 := st) end.
  assert (Hgs2 : chains s2 !! getters_funcs self = Some gs).
  { subst s2 s1. proj. cbn [setters_funcs copy_of].
    rewrite list_lookup_insert_ne by (apply lookup_lt_Some in Hgs; lia).
    rewrite lookup_app_l; [done|by eapply lookup_lt_Some]. }
  rewrite (bind_Ret _ _ _ _ _ (read_chain_Some _ _ _ Hgs2)).
  assert (Hf2 : field_objs s2 !! length (field_objs s)
                = Some (copy_of self (length (chains s)) (S (length (chains s))))) by exact Hf1.
  assert (Hc2 : chains s2 !! S (length (chains s)) = Some []).
  { subst s2 s1. proj. cbn [setters_funcs copy_of].
    rewrite list_lookup_insert_ne by lia.
    rewrite lookup_app_r by lia. by replace (S (length (chains s)) - length (chains s)) with 1 by lia. }
  rewrite (bind_Ret _ _ _ _ _ (getters_loop _ _ gs s2 [] Hf2 Hc2)).
  unfold ret. subst s2 s1. unfold set_chains; proj. cbn [setters_funcs getters_funcs copy_of].
  f_equal. f_equal.
  rewrite app_nil_r. cbn [app].
  rewrite insert_app_r_alt, Nat.sub_diag by lia. cbn [insert list_insert].
  rewrite insert_app_r_alt by lia.
  by replace (S (length (chains s)) - length (chains s)) with 1 by lia.
Qed.

(** C3 fails on the code.  A field with getters [add_ten] then [double]
    registered reads a stored [5] as [add_ten (double 5) = 20]; its copy
    holds the getters in the other order and reads the same stored value as
    [double (add_ten 5) = 30]. *)
Theorem copy_reverses_getters :
  exists s',
    (Field_getters 0 (Some add_ten) false ;;;
     Field_getters 0 (Some double) false ;;;
     let* c := Field_copy 0 in
     let* a := Field_get (engine no_json 2) 0 0 in
     let* b := Field_get (engine no_json 2) c 0 in
     let* original := read_chain 1 in
     let* copied := read_chain 3 in
     ret (c, a, b, original, copied)) (store_default [] [])
    = Ret (1, VInt 20, VInt 30, [double; add_ten], [add_ten; double]) s'.
Proof. eexists. by_compute. Qed.

(** ** Loading into list-typed fields *)

Lemma first_match_find fs key s :
  first_match fs key s =
  match find_field (field_objs s) fs key with
  | Some r => Ret r s
  | None => Abort BadRef
  end.
Proof.
  induction fs as [|f fs IH]; [reflexivity|].
  cbn [first_match find_field]. unfold bind, deref.
  destruct (field_objs s !! f) as [fd|]; [|reflexivity].
  destruct (Field_match fd key); [reflexivity|apply IH].
Qed.

Lemma Typing2_get_field_find s obj cls attrs k fs key r :
  heap s !! obj = Some (Inst cls attrs) ->
  classes s !! cls = Some k ->
  mro_fields (classes s) (cls :: cls_ancestors k) = Some fs ->
  find_field (field_objs s) fs key = Some r ->
  Typing2_get_field obj key s = Ret r s.
Proof.
  intros Hobj Hk Hfs Hfind. unfold Typing2_get_field.
  rewrite (bind_Ret _ _ _ _ _ (Typing2_get_fields_Some _ _ _ _ _ _ Hobj Hk Hfs)).
  by rewrite first_match_find, Hfind.
Qed.

Section ListLoad.

Variable json_loads : string -> res value.

Lemma engine_S n :
  engine json_loads (S n) =
  mkRec (py_getattr (engine json_loads n)) (py_setattr (engine json_loads n)) (py_delattr (engine json_loads n)) (descr_get (engine json_loads n))
    (Typing2_new json_loads (engine json_loads n)) (Typing2_loads_from_dict (engine json_loads n)) (Typing2_dumps (engine json_loads n)).
Proof. reflexivity. Qed.

Lemma py_getattr_field R s obj cls attrs nm f :
  heap s !! obj = Some (Inst cls attrs) ->
  class_lookup (classes s) cls nm = Some f ->
  py_getattr R obj (Some nm) s = descr_get R f obj s.
Proof.
  intros Hobj Hcl. unfold py_getattr.
  rewrite (bind_Ret _ _ _ _ _ (read_cell_Some _ _ _ Hobj)).
  unfold bind, gets. by rewrite Hcl.
Qed.

Lemma py_setattr_field R s obj cls attrs nm f v :
  heap s !! obj = Some (Inst cls attrs) ->
  class_lookup (classes s) cls nm = Some f ->
  py_setattr R obj (Some nm) v s = descr_set R f obj v s.
Proof.
  intros Hobj Hcl. unfold py_setattr.
  rewrite (bind_Ret _ _ _ _ _ (read_cell_Some _ _ _ Hobj)).
  unfold bind, gets. by rewrite Hcl.
Qed.

Lemma descr_get_Field R s f fd obj :
  field_objs s !! f = Some fd -> kind fd = KField ->
  descr_get R f obj s = Field_get R f obj s.
Proof.
  intros Hf Hk. unfold descr_get.
  by rewrite (bind_Ret _ _ _ _ _ (deref_Some _ _ _ Hf)), Hk.
Qed.

Lemma descr_set_Field R s f fd obj v :
  field_objs s !! f = Some fd -> kind fd = KField ->
  descr_set R f obj v s = Field_set R f obj v s.
Proof.
  intros Hf Hk. unfold descr_set.
  by rewrite (bind_Ret _ _ _ _ _ (deref_Some _ _ _ Hf)), Hk.
Qed.

End ListLoad.

(** Two loads of one element into a list of models of class 2, which the
    first construction resolves: each load builds one instance of class 2
    and appends it. *)
Example list_of_models_appends :
  exists s',
    (Typing2_loads_from_dict (engine no_json 6) 0
       (VDict [("items", VList [VDict [("a", VInt 1)]])]) ;;;
     Typing2_loads_from_dict (engine no_json 6) 0
       (VDict [("items", VList [VDict [("a", VInt 1)]])]) ;;;
     Typing2_dumps (engine no_json 6) 0 true) (store_list (Some (FTyping 2)))
    = Ret (VDict [("items", VList [VDict [("a", VInt 1)]; VDict [("a", VInt 1)]])]) s'.
Proof. eexists. by_compute. Qed.

(** ** One-time field resolution *)

Lemma Field_match_copy_entry s0 i j e key :
  Field_match (copy_entry s0 i e) key = Field_match (copy_entry s0 j e) key.
Proof. reflexivity. Qed.

Lemma length_resolved_chains s0 acc :
  length (concat (map (copy_chains s0) acc)) = 2 * length acc.
Proof. induction acc as [|e acc IH]; cbn; [done|]. rewrite IH. lia. Qed.

Lemma resolved_dict_snoc s0 acc e :
  resolved_dict s0 (acc ++ [e]) =
  resolved_dict s0 acc ++ [(fst e, length (field_objs s0) + length acc)].
Proof. unfold resolved_dict. rewrite imap_app. cbn. by rewrite Nat.add_0_r. Qed.

Lemma first_match_resolved s0 top anc done acc key : forall pre,
  let st := resolving_state s0 top anc done (pre ++ acc) in
  matched s0 acc key = false ->
  first_match (map snd (imap (fun i e => (fst e, length (field_objs s0) + (length pre + i))) acc))
    key st = Ret None st.
Proof.
  induction acc as [|e acc IH]; intros pre st Hm; [reflexivity|].
  cbn [matched existsb] in Hm. apply orb_false_iff in Hm as [He Hm].
  cbn [imap map first_match snd]. unfold bind, deref. subst st. unfold resolving_state at 1. proj.
  rewrite lookup_app_r by lia.
  replace (length (field_objs s0) + (length pre + 0) - length (field_objs s0)) with (length pre) by lia.
  rewrite list_lookup_imap, lookup_app_r, Nat.sub_diag by lia. cbn.
  rewrite (Field_match_copy_entry s0 _ 0), He.
  specialize (IH (pre ++ [e])). rewrite <- app_assoc in IH. cbn in IH.
  erewrite imap_ext; [apply IH; exact Hm|].
  intros i x _. cbn. rewrite length_app. cbn. do 2 f_equal. lia.
Qed.

Lemma first_match_resolved_some s0 top anc done acc key : forall pre,
  let st := resolving_state s0 top anc done (pre ++ acc) in
  matched s0 acc key = true ->
  exists r,
    first_match (map snd (imap (fun i e => (fst e, length (field_objs s0) + (length pre + i))) acc))
      key st = Ret (Some r) st.
Proof.
  induction acc as [|e acc IH]; intros pre st Hm; [done|].
  cbn [matched existsb] in Hm.
  cbn [imap map first_match snd]. unfold bind, deref. subst st. unfold resolving_state at 1. proj.
  rewrite lookup_app_r by lia.
  replace (length (field_objs s0) + (length pre + 0) - length (field_objs s0)) with (length pre) by lia.
  rewrite list_lookup_imap, lookup_app_r, Nat.sub_diag by lia. cbn.
  rewrite (Field_match_copy_entry s0 _ 0).
  destruct (Field_match (copy_entry s0 0 e) key) eqn:He; [by eexists|].
  cbn in Hm.
  specialize (IH (pre ++ [e])). rewrite <- app_assoc in IH. cbn in IH.
  destruct (IH Hm) as [r Hr]. exists r. rewrite <- Hr.
  f_equal. f_equal. apply imap_ext. intros i x _. cbn. rewrite length_app. cbn. f_equal. lia.
Qed.

Section Resolve.

Variables (s0 : state) (a top : nat) (anc : list nat) (attrs : gmap string value).
Hypothesis Ha : heap s0 !! a = Some (Inst top attrs).
Hypothesis Htop : top < length (classes s0).

Lemma classes_resolving done acc :
  classes (resolving_state s0 top anc done acc) !! top =
  Some (mkClass anc (resolved_dict s0 acc) (Some (map snd (resolved_dict s0 acc))) done).
Proof. unfold resolving_state. proj. by apply list_lookup_insert_eq. Qed.

Lemma get_fields_resolving done acc :
  Typing2_get_fields a (resolving_state s0 top anc done acc)
  = Ret (map snd (resolved_dict s0 acc)) (resolving_state s0 top anc done acc).
Proof.
  eapply Typing2_get_fields_Some.
  - exact Ha.
  - apply classes_resolving.
  - cbn [mro_fields cls_ancestors]. by rewrite classes_resolving.
Qed.

Lemma get_field_resolving_none done acc key :
  matched s0 acc key = false ->
  Typing2_get_field a key (resolving_state s0 top anc done acc)
  = Ret None (resolving_state s0 top anc done acc).
Proof.
  intros Hm. unfold Typing2_get_field.
  rewrite (bind_Ret _ _ _ _ _ (get_fields_resolving done acc)).
  exact (first_match_resolved s0 top anc done acc key [] Hm).
Qed.

Lemma get_field_resolving_some done acc key :
  matched s0 acc key = true ->
  exists r, Typing2_get_field a key (resolving_state s0 top anc done acc)
            = Ret (Some r) (resolving_state s0 top anc done acc).
Proof.
  intros Hm. unfold Typing2_get_field.
  rewrite (bind_Ret _ _ _ _ _ (get_fields_resolving done acc)).
  exact (first_match_resolved_some s0 top anc done acc key [] Hm).
Qed.

End Resolve.

Lemma dict_set_fresh {A} key (x : A) d :
  assoc key d = None -> dict_set key x d = d ++ [(key, x)].
Proof.
  induction d as [|[k y] d IH]; [done|]. cbn.
  destruct (decide (k = key)); [done|]. intros H. by rewrite IH.
Qed.

Lemma assoc_resolved_none s0 acc key : forall n,
  matched s0 acc key = false ->
  assoc key (imap (fun i e => (fst e, n + i)) acc) = None.
Proof.
  induction acc as [|e acc IH]; intros n Hm; [done|].
  cbn [matched existsb] in Hm. apply orb_false_iff in Hm as [He Hm].
  cbn [imap assoc].
  destruct (decide (fst e = key)) as [Heq|Hne].
  - exfalso. unfold Field_match in He. cbn in He. rewrite Heq in He.
    by rewrite decide_True in He.
  - erewrite imap_ext; [apply (IH (S n) Hm)|]. intros i x _. cbn. f_equal. lia.
Qed.

Lemma update_class_Some s c k g :
  classes s !! c = Some k ->
  update_class c g s = Ret tt (set_classes (<[c := g k]> (classes s)) s).
Proof. intros H. unfold_prims. by use H. Qed.

Lemma append_field_Some s top k l f :
  classes s !! top = Some k ->
  cls_fields k = Some l ->
  append_field top f s =
  Ret tt (set_classes (<[top := with_cls_fields (Some (l ++ [f])) k]> (classes s)) s).
Proof.
  intros Hk Hl. unfold append_field.
  rewrite (bind_Ret _ _ _ _ _ (get_class_Some _ _ _ Hk)), Hl.
  by apply update_class_Some.
Qed.

Section Step.

Variables (s0 : state) (a top : nat) (anc : list nat) (attrs : gmap string value).
Hypothesis Ha : heap s0 !! a = Some (Inst top attrs).
Hypothesis Htop : top < length (classes s0).

Lemma resolve_entry_inherited cls acc e :
  cls <> top ->
  entry_ok s0 e = true ->
  resolve_entry a top cls e (resolving_state s0 top anc false acc)
  = Ret tt (resolving_state s0 top anc false (accept s0 acc e)).
Proof.
  intros Hcls Hok. destruct e as [nm r0]. unfold resolve_entry, accept. cbn [fst].
  rewrite decide_False by done.
  destruct (matched s0 acc nm) eqn:Hm.
  { destruct (get_field_resolving_some s0 a top anc attrs Ha Htop false acc nm Hm) as [r Hr].
    by rewrite (bind_Ret _ _ _ _ _ Hr). }
  rewrite (bind_Ret _ _ _ _ _ (get_field_resolving_none s0 a top anc attrs Ha Htop false acc nm Hm)).
  unfold entry_ok in Hok. cbn [snd] in Hok.
  destruct (field_objs s0 !! r0) as [fd0|] eqn:Hfd0; [|done].
  apply andb_true_iff in Hok as [Hs Hg].
  apply bool_decide_eq_true in Hs, Hg.
  destruct (chains s0 !! setters_funcs fd0) as [ss|] eqn:Hss;
    [|apply lookup_ge_None in Hss; lia].
  destruct (chains s0 !! getters_funcs fd0) as [gs|] eqn:Hgs;
    [|apply lookup_ge_None in Hgs; lia].
  set (st := resolving_state s0 top anc false acc).
  assert (Hf : field_objs st !! r0 = Some fd0).
  { subst st. unfold resolving_state. proj. rewrite lookup_app_l; [done|by eapply lookup_lt_Some]. }
  assert (Hss' : chains st !! setters_funcs fd0 = Some ss).
  { subst st. unfold resolving_state. proj. by rewrite lookup_app_l. }
  assert (Hgs' : chains st !! getters_funcs fd0 = Some gs).
  { subst st. unfold resolving_state. proj. by rewrite lookup_app_l. }
  rewrite (bind_Ret _ _ _ _ _ (Field_copy_spec st r0 fd0 ss gs Hf Hss' Hgs')).
  rewrite (bind_Ret _ _ _ _ _ (Field_set_name_last _ _ _ _ _ _)).
  set (k0 := mkClass anc (resolved_dict s0 acc) (Some (map snd (resolved_dict s0 acc))) false).
  assert (Hk0 : classes st !! top = Some k0) by (by apply classes_resolving).
  match goal with |- bind _ _ ?s1 = _ => assert (Hk1 : classes s1 !! top = Some k0) by exact Hk0 end.
  rewrite (bind_Ret _ _ _ _ _ (append_field_Some _ _ _ _ _ Hk1 eq_refl)).
  set (k1 := with_cls_fields _ k0).
  rewrite (update_class_Some _ top k1).
  2: { proj. apply list_lookup_insert_eq. by eapply lookup_lt_Some. }
  unfold ret. f_equal. subst st k1 k0. unfold resolving_state, set_classes; proj.
  cbn [with_cls_fields with_cls_dict cls_dict cls_ancestors cls_fields cls_init_done].
  rewrite !list_insert_insert_eq.
  rewrite length_app, length_imap.
  rewrite (dict_set_fresh nm) by (by apply (assoc_resolved_none s0)).
  change (resolved_dict s0 acc ++ [(nm, length (field_objs s0) + length acc)])
    with (resolved_dict s0 acc ++ [(fst (nm, r0), length (field_objs s0) + length acc)]).
  rewrite <- (resolved_dict_snoc s0 acc (nm, r0)).
  f_equal.
  - do 2 f_equal. rewrite resolved_dict_snoc, map_app. reflexivity.
  - rewrite imap_app, app_assoc. do 2 f_equal. cbn [imap].
    unfold copy_entry, field_at. cbn [fst snd]. rewrite Hfd0. cbn [default from_option].
    rewrite length_app, length_resolved_chains, Nat.add_0_r. reflexivity.
  - rewrite map_app, concat_app, app_assoc. f_equal. cbn.
    unfold copy_chains, field_at, chain_at. cbn [snd]. rewrite Hfd0. cbn [default from_option].
    unfold id. by rewrite Hss, Hgs.
Qed.

End Step.

Section Loops.

Variables (s0 : state) (a top : nat) (anc : list nat) (attrs : gmap string value).
Hypothesis Ha : heap s0 !! a = Some (Inst top attrs).
Hypothesis Htop : top < length (classes s0).

Lemma resolve_dict_loop cls es : forall acc,
  cls <> top ->
  forallb (entry_ok s0) es = true ->
  for_each es (resolve_entry a top cls) (resolving_state s0 top anc false acc)
  = Ret tt (resolving_state s0 top anc false (accept_all s0 acc es)).
Proof.
  induction es as [|e es IH]; intros acc Hcls Hok; [reflexivity|].
  cbn [forallb] in Hok. apply andb_true_iff in Hok as [He Hes].
  cbn [for_each].
  rewrite (bind_Ret _ _ _ _ _
             (resolve_entry_inherited s0 a top anc attrs Ha Htop cls acc e Hcls He)).
  by apply IH.
Qed.

Lemma resolve_ancestors_loop ancs : forall acc,
  ancestry_ok s0 top ancs = true ->
  for_each ancs (fun cls =>
    let* kc := get_class cls in
    for_each (cls_dict kc) (resolve_entry a top cls))
    (resolving_state s0 top anc false acc)
  = Ret tt (resolving_state s0 top anc false
              (accept_all s0 acc (inherited_entries s0 ancs))).
Proof.
  induction ancs as [|c ancs IH]; intros acc Hok; [reflexivity|].
  cbn [ancestry_ok forallb] in Hok. apply andb_true_iff in Hok as [Hc Hancs].
  apply andb_true_iff in Hc as [Hne Hkc]. apply bool_decide_eq_true in Hne.
  destruct (classes s0 !! c) as [kc|] eqn:Hcls; [|done].
  cbn [for_each inherited_entries flat_map]. rewrite Hcls.
  unfold accept_all. rewrite foldl_app. fold (accept_all s0 acc (cls_dict kc)).
  assert (Hget : get_class c (resolving_state s0 top anc false acc)
                 = Ret kc (resolving_state s0 top anc false acc)).
  { apply get_class_Some. unfold resolving_state. proj.
    by rewrite list_lookup_insert_ne. }
  assert (Hbody : (let* kc := get_class c in
                   for_each (cls_dict kc) (resolve_entry a top c))
                    (resolving_state s0 top anc false acc)
                  = Ret tt (resolving_state s0 top anc false
                              (accept_all s0 acc (cls_dict kc)))).
  { rewrite (bind_Ret _ _ _ _ _ Hget). by apply resolve_dict_loop. }
  rewrite (bind_Ret _ _ _ _ _ Hbody).
  by apply IH.
Qed.

Lemma resolving_state_nil fields :
  classes s0 !! top = Some (mkClass anc [] fields false) ->
  set_classes (<[top := with_cls_fields (Some []) (mkClass anc [] fields false)]> (classes s0)) s0
  = resolving_state s0 top anc false [].
Proof.
  intros _. unfold resolving_state, set_classes. cbn. by rewrite !app_nil_r.
Qed.

(** [__one_time_init] for a class with no fields of its own, on its first
    instance. *)
Lemma Typing2_one_time_init_inherits fields :
  classes s0 !! top = Some (mkClass anc [] fields false) ->
  ancestry_ok s0 top anc = true ->
  Typing2_one_time_init a s0 =
  Ret tt (resolving_state s0 top anc true
            (accept_all s0 [] (inherited_entries s0 anc))).
Proof.
  intros Hk Hok. unfold Typing2_one_time_init.
  rewrite (bind_Ret _ _ _ _ _ (type_of_Inst _ _ _ _ Ha)).
  rewrite (bind_Ret _ _ _ _ _ (get_class_Some _ _ _ Hk)).
  cbn [cls_init_done cls_ancestors].
  rewrite (bind_Ret _ _ _ _ _ (update_class_Some _ _ _ _ Hk)).
  rewrite (resolving_state_nil fields Hk).
  assert (Hown : (let* kc := get_class top in
                  for_each (cls_dict kc) (resolve_entry a top top))
                   (resolving_state s0 top anc false [])
                 = Ret tt (resolving_state s0 top anc false [])).
  { by rewrite (bind_Ret _ _ _ _ _
                  (get_class_Some _ _ _ (classes_resolving s0 top anc Htop false []))). }
  assert (Hloop : for_each (top :: anc) (fun cls =>
                    let* kc := get_class cls in
                    for_each (cls_dict kc) (resolve_entry a top cls))
                    (resolving_state s0 top anc false [])
                  = Ret tt (resolving_state s0 top anc false
                              (accept_all s0 [] (inherited_entries s0 anc)))).
  { cbn [for_each]. rewrite (bind_Ret _ _ _ _ _ Hown).
    by apply resolve_ancestors_loop. }
  rewrite (bind_Ret _ _ _ _ _ Hloop).
  unfold Typing2_transform_fields. rewrite (bind_Ret _ _ _ tt _ eq_refl).
  rewrite (update_class_Some _ _ _ _ (classes_resolving s0 top anc Htop false _)).
  unfold resolving_state, set_classes. proj.
  by rewrite list_insert_insert_eq.
Qed.

End Loops.

Lemma matched_key s0 acc X :
  no_clash s0 acc X = true ->
  matched s0 acc X = true ->
  X ∈ map fst acc.
Proof.
  induction acc as [|e acc IH]; [done|].
  cbn [no_clash forallb matched existsb map]. intros Hc Hm.
  apply andb_true_iff in Hc as [He Hc]. apply orb_true_iff in Hm as [Hm|Hm].
  - apply orb_true_iff in He as [He|He].
    + apply bool_decide_eq_true in He. rewrite He. by left.
    + apply negb_true_iff, bool_decide_eq_false in He.
      unfold Field_match in Hm. cbn [copy_entry with_instance_name with_name name
                                       mapping_name copy_of fst snd] in Hm.
      destruct (decide (Some (fst e) = Some X)) as [Heq|_].
      * injection Heq as ->. by left.
      * exfalso. destruct (name_truthy _); [|done]. cbn in Hm.
        destruct (bool_decide _) eqn:Hb; [|done].
        by apply bool_decide_eq_true in Hb.
  - right. by apply IH.
Qed.

Lemma no_clash_app s0 l1 l2 X :
  no_clash s0 (l1 ++ l2) X = no_clash s0 l1 X && no_clash s0 l2 X.
Proof. apply forallb_app. Qed.

Lemma accept_all_keeps s0 X es : forall acc,
  no_clash s0 acc X = true ->
  no_clash s0 es X = true ->
  X ∈ map fst acc \/ X ∈ map fst es ->
  X ∈ map fst (accept_all s0 acc es).
Proof.
  induction es as [|e es IH]; intros acc Hacc Hes Hin.
  - destruct Hin as [Hin|Hin]; [exact Hin|by apply elem_of_nil in Hin].
  - cbn [accept_all foldl]. fold (accept_all s0 (accept s0 acc e) es).
    cbn [no_clash forallb] in Hes. apply andb_true_iff in Hes as [He Hes].
    unfold accept. destruct (matched s0 acc (fst e)) eqn:Hm.
    + apply IH; [done|done|].
      destruct Hin as [Hin|Hin]; [by left|].
      cbn [map] in Hin. apply elem_of_cons in Hin as [->|Hin]; [|by right].
      left. by apply (matched_key s0).
    + apply IH; [|done|].
      * rewrite no_clash_app, Hacc. cbn. by rewrite He.
      * destruct Hin as [Hin|Hin].
        { left. rewrite map_app. apply elem_of_app. by left. }
        cbn [map] in Hin. apply elem_of_cons in Hin as [->|Hin]; [|by right].
        left. rewrite map_app. apply elem_of_app. right. cbn. by left.
Qed.

Lemma assoc_resolved_some X (acc : list (string * nat)) : forall n,
  X ∈ map fst acc ->
  exists i, i < length acc /\ assoc X (imap (fun i e => (fst e, n + i)) acc) = Some (n + i).
Proof.
  induction acc as [|e acc IH]; intros n Hin; [by apply elem_of_nil in Hin|].
  cbn [imap assoc]. destruct (decide (fst e = X)) as [Heq|Hne].
  - exists 0. cbn. split; [lia|]. by rewrite Nat.add_0_r.
  - cbn [map] in Hin. apply elem_of_cons in Hin as [Heq|Hin]; [done|].
    destruct (IH (S n) Hin) as (i & Hi & Hassoc). exists (S i). cbn. split; [lia|].
    erewrite imap_ext; [rewrite Hassoc; f_equal; lia|].
    intros j x _. cbn. f_equal. lia.
Qed.

Lemma field_objs_resolving s0 top anc done acc i e :
  acc !! i = Some e ->
  field_objs (resolving_state s0 top anc done acc) !! (length (field_objs s0) + i)
  = Some (copy_entry s0 i e).
Proof.
  intros He. unfold resolving_state. proj.
  rewrite lookup_app_r by lia.
  replace (length (field_objs s0) + i - length (field_objs s0)) with i by lia.
  by rewrite list_lookup_imap, He.
Qed.

Lemma class_lookup_own cs c k X r :
  cs !! c = Some k ->
  assoc X (cls_dict k) = Some r ->
  class_lookup cs c X = Some r.
Proof.
  intros Hk Hr. unfold class_lookup. rewrite Hk. cbn [mro_lookup]. by rewrite Hk, Hr.
Qed.

(** What [__one_time_init] leaves for an inherited name [X]: a field object
    and two chain lists that did not exist before. *)
Lemma resolved_inherited s0 top anc X :
  top < length (classes s0) ->
  X ∈ map fst (inherited_entries s0 anc) ->
  no_clash s0 (inherited_entries s0 anc) X = true ->
  let acc := accept_all s0 [] (inherited_entries s0 anc) in
  let s1 := resolving_state s0 top anc true acc in
  exists i e,
    i < length acc /\
    class_lookup (classes s1) top X = Some (length (field_objs s0) + i) /\
    field_objs s1 !! (length (field_objs s0) + i) = Some (copy_entry s0 i e).
Proof.
  intros Htop Hin Hclash acc s1.
  assert (HX : X ∈ map fst acc).
  { apply accept_all_keeps; [done|done|by right]. }
  destruct (assoc_resolved_some X acc (length (field_objs s0)) HX) as (i & Hi & Hassoc).
  destruct (lookup_lt_is_Some_2 acc i Hi) as [e He].
  exists i, e. split; [done|split].
  - eapply class_lookup_own; [apply classes_resolving; exact Htop|]. exact Hassoc.
  - by apply field_objs_resolving.
Qed.

(** Resolving [top] leaves the rest of the class table and the older
    objects as they were. *)
Section Transfer.

Variables (s0 : state) (top : nat) (anc : list nat) (done : bool)
  (acc : list (string * nat)).
Let s1 := resolving_state s0 top anc done acc.

Lemma classes_resolving_ne c : c <> top -> classes s1 !! c = classes s0 !! c.
Proof. intros Hc. subst s1. unfold resolving_state. proj. by rewrite list_lookup_insert_ne. Qed.

Lemma entry_ok_resolving e : entry_ok s0 e = true -> entry_ok s1 e = true.
Proof.
  unfold entry_ok. destruct (field_objs s0 !! snd e) as [fd|] eqn:Hfd; [|done].
  intros H. apply andb_true_iff in H as [Hs Hg].
  apply bool_decide_eq_true in Hs, Hg.
  subst s1. unfold resolving_state. proj.
  rewrite lookup_app_l by (by eapply lookup_lt_Some). rewrite Hfd.
  apply andb_true_iff. split; apply bool_decide_eq_true; rewrite length_app; lia.
Qed.

Lemma field_at_resolving e : entry_ok s0 e = true -> field_at s1 (snd e) = field_at s0 (snd e).
Proof.
  unfold entry_ok, field_at. destruct (field_objs s0 !! snd e) as [fd|] eqn:Hfd; [|done].
  intros _. subst s1. unfold resolving_state. proj.
  rewrite lookup_app_l by (by eapply lookup_lt_Some). by rewrite Hfd.
Qed.

Lemma inherited_entries_resolving ancs :
  bool_decide (top ∈ ancs) = false ->
  inherited_entries s1 ancs = inherited_entries s0 ancs.
Proof.
  intros Hnot. apply bool_decide_eq_false in Hnot.
  induction ancs as [|c ancs IH]; [done|].
  cbn [inherited_entries flat_map].
  rewrite classes_resolving_ne by (intros ->; apply Hnot; by left).
  f_equal. apply IH. intros Hin. apply Hnot. by right.
Qed.

Lemma forallb_entry_ok_resolving es :
  forallb (entry_ok s0) es = true -> forallb (entry_ok s1) es = true.
Proof.
  induction es as [|e es IH]; [done|]. cbn [forallb]. intros H.
  apply andb_true_iff in H as [He Hes].
  by rewrite entry_ok_resolving, IH.
Qed.

Lemma ancestry_ok_resolving other ancs :
  bool_decide (top ∈ ancs) = false ->
  ancestry_ok s0 other ancs = true ->
  ancestry_ok s1 other ancs = true.
Proof.
  intros Hnot. apply bool_decide_eq_false in Hnot.
  induction ancs as [|c ancs IH]; [done|]. cbn [ancestry_ok forallb]. intros H.
  apply andb_true_iff in H as [Hc Hancs]. apply andb_true_iff in Hc as [Hne Hkc].
  rewrite classes_resolving_ne by (intros ->; apply Hnot; by left).
  rewrite Hne. cbn [andb].
  destruct (classes s0 !! c) as [kc|]; [|done].
  rewrite forallb_entry_ok_resolving by done. cbn [andb].
  apply IH; [|done]. intros Hin. apply Hnot. by right.
Qed.

Lemma no_clash_resolving es X :
  forallb (entry_ok s0) es = true ->
  no_clash s1 es X = no_clash s0 es X.
Proof.
  induction es as [|e es IH]; [done|]. cbn [forallb no_clash]. intros H.
  apply andb_true_iff in H as [He Hes].
  rewrite field_at_resolving by done. f_equal. by apply IH.
Qed.

End Transfer.

Lemma ancestry_entries_ok s0 top anc :
  ancestry_ok s0 top anc = true ->
  forallb (entry_ok s0) (inherited_entries s0 anc) = true.
Proof.
  induction anc as [|c anc IH]; [done|]. cbn [ancestry_ok forallb]. intros H.
  apply andb_true_iff in H as [Hc Hanc]. apply andb_true_iff in Hc as [_ Hkc].
  cbn [inherited_entries flat_map]. rewrite forallb_app.
  destruct (classes s0 !! c) as [kc|]; [|done].
  rewrite Hkc. cbn [andb]. by apply IH.
Qed.

(** ** Instances do not reach each other *)

Section Indep.

Variable a : nat.

Lemma indep_ret {A} (x : A) : indep a (ret x).
Proof. intros c s Ha. split; [reflexivity|cbn; lia]. Qed.

Lemma indep_raise {A} e : indep a (@raise A e).
Proof. intros c s Ha. split; [reflexivity|cbn; lia]. Qed.

Lemma indep_stop {A} w : indep a (@stop A w).
Proof. intros c s Ha. split; [reflexivity|exact I]. Qed.

Lemma indep_lift {A} (r : res A) : indep a (lift r).
Proof. destruct r; [apply indep_ret|apply indep_raise]. Qed.

Lemma indep_bind {A B} (m : M A) (k : A -> M B) :
  indep a m -> (forall x, indep a (k x)) -> indep a (bind m k).
Proof.
  intros Hm Hk c s Ha. destruct (Hm c s Ha) as [Heq Hgr]. unfold bind. rewrite Heq.
  destruct (m s) as [x s1|e s1|w]; cbn in *; [|split; [reflexivity|lia]|done].
  destruct (Hk x c s1) as [Heq' Hgr']; [lia|]. split; [exact Heq'|].
  destruct (k x s1); cbn in *; lia || exact I.
Qed.

Lemma indep_try {A B} (m : M A) (ok : A -> M B) (h : M B) :
  indep a m -> (forall x, indep a (ok x)) -> indep a h ->
  indep a (try_AttributeError m ok h).
Proof.
  intros Hm Hok Hh c s Ha. destruct (Hm c s Ha) as [Heq Hgr].
  unfold try_AttributeError. rewrite Heq.
  destruct (m s) as [x s1|e s1|w]; cbn in *; [| |done].
  - destruct (Hok x c s1) as [Heq' Hgr']; [lia|]. split; [exact Heq'|].
    destruct (ok x s1); cbn in *; lia || exact I.
  - destruct e; try (split; [reflexivity|cbn; lia]).
    destruct (Hh c s1) as [Heq' Hgr']; [lia|]. split; [exact Heq'|].
    destruct (h s1); cbn in *; lia || exact I.
Qed.

Lemma indep_for_each {A} (l : list A) (body : A -> M unit) :
  (forall x, indep a (body x)) -> indep a (for_each l body).
Proof.
  intros Hb. induction l as [|x l IH]; [apply indep_ret|].
  cbn [for_each]. apply indep_bind; [apply Hb|intros _; exact IH].
Qed.

(** Computations on the class table, the field objects and the chains. *)
Lemma indep_heap_free {A} (m : M A) :
  (forall s h, m (set_heap h s) =
               match m s with
               | Ret x s' => Ret x (set_heap h s')
               | Raise e s' => Raise e (set_heap h s')
               | Abort w => Abort w
               end) ->
  (forall s, match m s with
             | Ret _ s' | Raise _ s' => heap s' = heap s
             | Abort _ => True
             end) ->
  indep a m.
Proof.
  intros H1 H2 c s Ha. unfold overwrite at 1. rewrite H1. specialize (H2 s).
  destruct (m s) as [x s'|e s'|w]; cbn; [| |done].
  - unfold overwrite. rewrite H2. split; [reflexivity|lia].
  - unfold overwrite. rewrite H2. split; [reflexivity|lia].
Qed.

Ltac heap_free :=
  apply indep_heap_free; intros s; [intros h|]; unfold_prims;
  repeat (case_match; proj; try reflexivity); simplify_eq; try reflexivity; try done.

Lemma indep_deref f : indep a (deref f).
Proof. heap_free. Qed.

Lemma indep_read_chain c : indep a (read_chain c).
Proof. heap_free. Qed.

Lemma indep_get_class c : indep a (get_class c).
Proof. heap_free. Qed.

Lemma indep_gets_classes : indep a (gets classes).
Proof. heap_free. Qed.

Lemma indep_update_field f g : indep a (update_field f g).
Proof. heap_free. Qed.

Lemma indep_write_chain c l : indep a (write_chain c l).
Proof. heap_free. Qed.

Lemma indep_alloc_chain : indep a alloc_chain.
Proof. heap_free. Qed.

Lemma indep_alloc_field fd : indep a (alloc_field fd).
Proof. heap_free. Qed.

Lemma indep_update_class c g : indep a (update_class c g).
Proof. heap_free. Qed.

Lemma indep_read_cell b : b <> a -> indep a (read_cell b).
Proof.
  intros Hb c s Ha. unfold read_cell, overwrite. proj.
  rewrite list_lookup_insert_ne by done.
  destruct (heap s !! b); cbn; [split; [reflexivity|lia]|done].
Qed.

Lemma indep_write_cell b c' : b <> a -> indep a (write_cell b c').
Proof.
  intros Hb c s Ha. unfold write_cell, bind, read_cell, modify, overwrite. proj.
  rewrite list_lookup_insert_ne by done.
  destruct (heap s !! b); cbn; [|done]. unfold overwrite, set_heap; proj.
  rewrite (list_insert_insert_ne _ b a) by done. rewrite length_insert. split; [reflexivity|lia].
Qed.

(** A new cell is never cell [a]. *)
Lemma indep_alloc_cell {B} c' (k : nat -> M B) :
  (forall x, x <> a -> indep a (k x)) -> indep a (bind (alloc_cell c') k).
Proof.
  intros Hk c s Ha. unfold bind, alloc_cell, overwrite at 1. proj. rewrite length_insert.
  destruct (Hk (length (heap s)) ltac:(lia) c (set_heap (heap s ++ [c']) s)) as [Heq Hgr].
  { proj. rewrite length_app. lia. }
  unfold overwrite at 1 in Heq. unfold set_heap in *. cbn [heap classes field_objs chains] in *.
  rewrite insert_app_l in Heq by done. split; [exact Heq|].
  clear Heq. unfold grows in *.
  destruct (k (length (heap s)) (mkState (classes s) (field_objs s) (chains s) (heap s ++ [c'])));
    cbn in *; rewrite ?length_app in Hgr; cbn in Hgr; lia || exact I.
Qed.

End Indep.

Create HintDb indep.
#[local] Hint Resolve indep_ret indep_raise indep_stop indep_lift indep_deref indep_read_chain
  indep_get_class indep_gets_classes indep_update_field indep_write_chain indep_alloc_chain
  indep_alloc_field indep_update_class : indep.
#[local] Hint Extern 1 (indep _ (read_cell _)) => (apply indep_read_cell; assumption) : indep.
#[local] Hint Extern 1 (indep _ (write_cell _ _)) => (apply indep_write_cell; assumption) : indep.

Ltac indep_step :=
  first
    [ solve [auto with indep]
    | apply indep_bind
    | apply indep_try
    | apply indep_for_each
    | apply indep_alloc_cell
    | match goal with
      | |- indep _ (match ?x with _ => _ end) => destruct x
      | |- forall _, _ => intros ?
      end ].

Ltac indep_tac := repeat indep_step.

Section IndepBodies.

Variable a : nat.

Lemma indep_Field_set_name f nm : indep a (Field_set_name f nm).
Proof. unfold Field_set_name. indep_tac. Qed.
Hint Resolve indep_Field_set_name : indep.

Lemma indep_Field_init k nm inst dflt : indep a (Field_init k nm inst dflt).
Proof. unfold Field_init. indep_tac. Qed.
Hint Resolve indep_Field_init : indep.

Lemma indep_Field_setters f fn clear : indep a (Field_setters f fn clear).
Proof. unfold Field_setters. indep_tac. Qed.
Hint Resolve indep_Field_setters : indep.

Lemma indep_Field_getters f fn clear : indep a (Field_getters f fn clear).
Proof. unfold Field_getters. indep_tac. Qed.
Hint Resolve indep_Field_getters : indep.

Lemma indep_Field_copy f : indep a (Field_copy f).
Proof. unfold Field_copy. indep_tac. Qed.
Hint Resolve indep_Field_copy : indep.

Lemma indep_first_match fs key : indep a (first_match fs key).
Proof. induction fs as [|f fs IH]; cbn [first_match]; indep_tac. Qed.
Hint Resolve indep_first_match : indep.

Lemma indep_type_of obj : obj <> a -> indep a (type_of obj).
Proof. intros Hobj. unfold type_of. indep_tac. Qed.

Lemma indep_get_fields obj : obj <> a -> indep a (Typing2_get_fields obj).
Proof.
  intros Hobj. unfold Typing2_get_fields.
  apply indep_bind; [by apply indep_type_of|]. indep_tac.
Qed.

Lemma indep_get_field obj key : obj <> a -> indep a (Typing2_get_field obj key).
Proof.
  intros Hobj. unfold Typing2_get_field.
  apply indep_bind; [by apply indep_get_fields|]. indep_tac.
Qed.

Lemma indep_append_field top f : indep a (append_field top f).
Proof. unfold append_field. indep_tac. Qed.
Hint Resolve indep_append_field : indep.

Lemma indep_resolve_entry obj top cls e :
  obj <> a -> indep a (resolve_entry obj top cls e).
Proof.
  intros Hobj. unfold resolve_entry. destruct e as [nm field].
  destruct (decide (cls = top)); [indep_tac|].
  apply indep_bind; [by apply indep_get_field|]. indep_tac.
Qed.

Lemma indep_one_time_init obj : obj <> a -> indep a (Typing2_one_time_init obj).
Proof.
  intros Hobj. unfold Typing2_one_time_init, Typing2_transform_fields.
  apply indep_bind; [by apply indep_type_of|]. intros top.
  apply indep_bind; [auto with indep|]. intros k.
  destruct (cls_init_done k); [auto with indep|].
  apply indep_bind; [auto with indep|]. intros _.
  apply indep_bind; [|indep_tac].
  apply indep_for_each. intros cls.
  apply indep_bind; [auto with indep|]. intros kc.
  apply indep_for_each. intros e. by apply indep_resolve_entry.
Qed.

End IndepBodies.

Section IndepEngine.

Variable json_loads : string -> res value.
Variable a : nat.

#[local] Hint Resolve indep_Field_set_name indep_Field_init indep_Field_setters
  indep_Field_getters indep_Field_copy indep_first_match indep_append_field : indep.

Section Bodies.

Variable R : rec.
Hypothesis HR : indep_rec a R.

Lemma indep_Field_set f b v : b <> a -> indep a (Field_set R f b v).
Proof.
  intros Hb. unfold Field_set. destruct HR as (_ & Hset & _).
  apply indep_bind; [auto with indep|]. intros self.
  apply indep_bind; [auto with indep|]. intros v1.
  apply indep_bind; [auto with indep|]. intros funcs.
  by apply Hset.
Qed.

Lemma indep_vField_set f b v : indep a (vField_set f b v).
Proof. unfold vField_set. indep_tac. Qed.

Lemma indep_vField_get f b : indep a (vField_get f b).
Proof. unfold vField_get. indep_tac. Qed.

Lemma indep_Field_get_instance f b : indep a (Field_get_instance R f b).
Proof.
  unfold Field_get_instance, new_list. destruct HR as (_ & _ & _ & Hnew).
  apply indep_bind; [auto with indep|]. intros self.
  destruct (instanciator self) as [[c| |call|call]|]; auto with indep.
  apply indep_bind; [auto with indep|]. intros l.
  apply indep_alloc_cell. auto with indep.
Qed.

Lemma indep_Field_get f b : b <> a -> indep a (Field_get R f b).
Proof.
  intros Hb. unfold Field_get. destruct HR as (Hget & Hset & Hrget & _).
  apply indep_bind; [auto with indep|]. intros self.
  apply indep_try; [by apply Hget| |].
  - indep_tac.
  - apply indep_bind; [auto with indep|]. intros self'.
    apply indep_bind; [by apply Hset|]. intros _.
    apply indep_bind; [apply indep_Field_get_instance|]. intros v.
    apply indep_bind; [by apply indep_Field_set|]. intros _.
    by apply Hrget.
Qed.

Lemma indep_descr_get f b : b <> a -> indep a (descr_get R f b).
Proof.
  intros Hb. unfold descr_get. apply indep_bind; [auto with indep|]. intros self.
  destruct (kind self); [by apply indep_Field_get|apply indep_vField_get].
Qed.

Lemma indep_descr_set f b v : b <> a -> indep a (descr_set R f b v).
Proof.
  intros Hb. unfold descr_set. apply indep_bind; [auto with indep|]. intros self.
  destruct (kind self); [by apply indep_Field_set|apply indep_vField_set].
Qed.

Lemma indep_py_getattr b key : b <> a -> indep a (py_getattr R b key).
Proof.
  intros Hb. unfold py_getattr. destruct key as [n|]; [|auto with indep].
  apply indep_bind; [auto with indep|]. intros [cls attrs|l]; [|auto with indep].
  apply indep_bind; [auto with indep|]. intros cs.
  destruct (class_lookup cs cls n); [by apply indep_descr_get|].
  destruct (attrs !! n); auto with indep.
Qed.

Lemma indep_py_setattr b key v : b <> a -> indep a (py_setattr R b key v).
Proof.
  intros Hb. unfold py_setattr. destruct key as [n|]; [|auto with indep].
  apply indep_bind; [auto with indep|]. intros [cls attrs|l]; [|auto with indep].
  apply indep_bind; [auto with indep|]. intros cs.
  destruct (class_lookup cs cls n); [by apply indep_descr_set|auto with indep].
Qed.

Lemma indep_Typing2_new c parent : indep a (Typing2_new json_loads R c VNone parent).
Proof.
  unfold Typing2_new. destruct HR as (_ & Hset & _).
  apply indep_alloc_cell. intros self Hself.
  apply indep_bind; [|auto with indep].
  unfold Typing2_init, Typing2_post_init.
  apply indep_bind; [by apply Hset|]. intros _.
  apply indep_bind; [by apply indep_one_time_init|]. indep_tac.
Qed.

End Bodies.

Lemma indep_engine n : indep_rec a (engine json_loads n).
Proof.
  induction n as [|n IH].
  - split; [|split; [|split]]; intros; apply indep_stop.
  - split; [|split; [|split]]; intros; cbn [engine r_getattr r_setattr r_get r_new].
    + by apply indep_py_getattr.
    + by apply indep_py_setattr.
    + by apply indep_descr_get.
    + by apply indep_Typing2_new.
Qed.

End IndepEngine.

Lemma observed_lift_out {A} a c (o : outcome A) : observed (lift_out a c o) = observed o.
Proof. by destruct o. Qed.

(** A write on instance [a] changes cell [a] and nothing else. *)
Lemma setattr_own_cell json_loads n : forall a key v s,
  match py_setattr (engine json_loads n) a key v s with
  | Ret _ s' | Raise _ s' => s' = s \/ exists c, s' = overwrite a c s
  | Abort _ => True
  end.
Proof.
  induction n as [|n IH]; intros a key v s.
  - unfold py_setattr. destruct key as [k|]; [|by left].
    unfold bind, read_cell. destruct (heap s !! a) as [[cls attrs|l]|] eqn:Ha; [| by left|done].
    unfold gets. destruct (class_lookup (classes s) cls k) as [f|].
    + unfold descr_set, bind, deref. destruct (field_objs s !! f) as [fd|]; [|done].
      destruct (kind fd).
      * unfold Field_set, bind, deref. destruct (field_objs s !! f) as [fd'|]; [|done].
        destruct (Field_loads_convert fd' v); cbn; [|by left].
        unfold read_chain. by destruct (chains s !! setters_funcs fd').
      * unfold vField_set, bind, deref. destruct (field_objs s !! f) as [fd'|]; [|done].
        destruct (Field_loads_convert fd' v); cbn; [|by left].
        unfold read_chain. destruct (chains s !! setters_funcs fd'); [by left|done].
    + rewrite (write_cell_Some _ _ _ _ Ha). right. by eexists.
  - unfold py_setattr. destruct key as [k|]; [|by left].
    unfold bind, read_cell. destruct (heap s !! a) as [[cls attrs|l]|] eqn:Ha; [| by left|done].
    unfold gets. destruct (class_lookup (classes s) cls k) as [f|].
    + unfold descr_set, bind, deref. destruct (field_objs s !! f) as [fd|]; [|done].
      destruct (kind fd).
      * unfold Field_set, bind, deref. destruct (field_objs s !! f) as [fd'|]; [|done].
        destruct (Field_loads_convert fd' v); cbn; [|by left].
        unfold read_chain. destruct (chains s !! setters_funcs fd'); [|done].
        apply IH.
      * unfold vField_set, bind, deref. destruct (field_objs s !! f) as [fd'|]; [|done].
        destruct (Field_loads_convert fd' v); cbn; [|by left].
        unfold read_chain. destruct (chains s !! setters_funcs fd'); [by left|done].
    + rewrite (write_cell_Some _ _ _ _ Ha). right. by eexists.
Qed.

(** Writing an attribute of one instance does not change what a read of
    an attribute of another instance returns. *)
Lemma write_read_isolated json_loads n m a b key key' v s :
  a <> b ->
  a < length (heap s) ->
  match py_setattr (engine json_loads n) a key v s with
  | Ret _ s' | Raise _ s' =>
      observed (py_getattr (engine json_loads m) b key' s')
      = observed (py_getattr (engine json_loads m) b key' s)
  | Abort _ => True
  end.
Proof.
  intros Hab Ha. pose proof (setattr_own_cell json_loads n a key v s) as Hw.
  assert (Hread : forall c,
            observed (py_getattr (engine json_loads m) b key' (overwrite a c s))
            = observed (py_getattr (engine json_loads m) b key' s)).
  { intros c.
    destruct (indep_py_getattr a _ (indep_engine json_loads a m) b key'
                ltac:(done) c s Ha) as [-> _].
    apply observed_lift_out. }
  destruct (py_setattr _ a key v s) as [x s'|e s'|w]; [| |done];
    (destruct Hw as [->|[c ->]]; [reflexivity|apply Hread]).
Qed.

(** ** Inherited fields of sibling classes *)

Lemma assoc_resolved_inherited s0 anc X :
  X ∈ map fst (inherited_entries s0 anc) ->
  no_clash s0 (inherited_entries s0 anc) X = true ->
  let acc := accept_all s0 [] (inherited_entries s0 anc) in
  exists i e,
    acc !! i = Some e /\
    assoc X (resolved_dict s0 acc) = Some (length (field_objs s0) + i).
Proof.
  intros Hin Hclash acc.
  assert (HX : X ∈ map fst acc).
  { apply accept_all_keeps; [done|done|by right]. }
  destruct (assoc_resolved_some X acc (length (field_objs s0)) HX) as (i & Hi & Hassoc).
  destruct (lookup_lt_is_Some_2 acc i Hi) as [e He].
  by exists i, e.
Qed.

Lemma NoDup_4 (x1 x2 x3 x4 : nat) :
  x1 <> x2 -> x1 <> x3 -> x1 <> x4 -> x2 <> x3 -> x2 <> x4 -> x3 <> x4 ->
  NoDup [x1; x2; x3; x4].
Proof.
  intros. repeat (apply NoDup_cons; split; [rewrite ?elem_of_cons, elem_of_nil; tauto|]).
  apply NoDup_nil_2.
Qed.

(** C5 fails on the code.  The ancestor [P] declares [Y] with mapping name
    [X] before [X].  The resolution of a subclass copies [Y], finds that
    copy through [get_field] when it comes to [X], and does not copy [X]:
    after the resolution of [A] and of [B] both classes have the
    ancestor's own object (field 1, on the chain lists 2 and 3) as their
    descriptor for [X], and not two objects of their own.  That object was
    never named, [X] is missing from the resolved fields of [A] and of [B],
    and a write or a read of [X] on their instances raises [TypeError]. *)
Theorem inherited_field_shared :
  exists sB fd,
    (Typing2_one_time_init 0 ;;; Typing2_one_time_init 1) store_siblings_mapped
      = Ret tt sB /\
    class_lookup (classes sB) 2 "X" = Some 1 /\
    class_lookup (classes sB) 3 "X" = Some 1 /\
    field_objs sB !! 1 = Some fd /\
    name fd = None /\ instance_name fd = None /\
    setters_funcs fd = 2 /\ getters_funcs fd = 3 /\
    Typing2_get_fields 0 sB = Ret [2] sB /\
    Typing2_get_fields 1 sB = Ret [3] sB /\
    py_setattr (engine no_json 2) 0 (Some "X") (VInt 1) sB = Raise TypeError sB /\
    py_getattr (engine no_json 2) 1 (Some "X") sB = Raise TypeError sB.
Proof. eexists _, _. repeat (split; [by_compute|]). by_compute. Qed.

(** X23.  Isolation of an inherited field.  [A] and [B] declare no fields
    of their own, [A] is not an ancestor of [B], both inherit [X], and no
    field inherited under another name has [X] as its mapping name.  After
    the resolution of [A] and then of [B], the descriptors of [X] on [A]
    and on [B] are two field objects made by the resolutions, on four chain
    lists made by them, all different; and a write of [X] on the instance
    of one class does not change what a read of [X] on the instance of the
    other returns. *)
Theorem inherited_field_isolated (json_loads : string -> res value)
    s a b A B ancA ancB attrsA attrsB fA fB X :
  A <> B ->
  heap s !! a = Some (Inst A attrsA) ->
  heap s !! b = Some (Inst B attrsB) ->
  classes s !! A = Some (mkClass ancA [] fA false) ->
  classes s !! B = Some (mkClass ancB [] fB false) ->
  ancestry_ok s A ancA = true ->
  ancestry_ok s B ancB = true ->
  bool_decide (A ∈ ancB) = false ->
  bool_decide (X ∈ map fst (inherited_entries s ancA)) = true ->
  bool_decide (X ∈ map fst (inherited_entries s ancB)) = true ->
  no_clash s (inherited_entries s ancA) X = true ->
  no_clash s (inherited_entries s ancB) X = true ->
  exists sA sB ra rb fa fb,
    Typing2_one_time_init a s = Ret tt sA /\
    Typing2_one_time_init b sA = Ret tt sB /\
    class_lookup (classes sB) A X = Some ra /\
    class_lookup (classes sB) B X = Some rb /\
    field_objs sB !! ra = Some fa /\
    field_objs sB !! rb = Some fb /\
    ra <> rb /\
    length (field_objs s) <= ra /\
    length (field_objs s) <= rb /\
    NoDup [setters_funcs fa; getters_funcs fa; setters_funcs fb; getters_funcs fb] /\
    length (chains s) <= setters_funcs fa /\
    length (chains s) <= setters_funcs fb /\
    (forall n m v,
       match py_setattr (engine json_loads n) a (Some X) v sB with
       | Ret _ s' | Raise _ s' =>
           observed (py_getattr (engine json_loads m) b (Some X) s')
           = observed (py_getattr (engine json_loads m) b (Some X) sB)
       | Abort _ => True
       end) /\
    (forall n m v,
       match py_setattr (engine json_loads n) b (Some X) v sB with
       | Ret _ s' | Raise _ s' =>
           observed (py_getattr (engine json_loads m) a (Some X) s')
           = observed (py_getattr (engine json_loads m) a (Some X) sB)
       | Abort _ => True
       end).
Proof.
  intros HAB Ha Hb HkA HkB HokA HokB HnotA HinA HinB HclA HclB.
  apply bool_decide_eq_true in HinA, HinB.
  assert (HtopA : A < length (classes s)) by by eapply lookup_lt_Some.
  assert (HtopB : B < length (classes s)) by by eapply lookup_lt_Some.
  set (accA := accept_all s [] (inherited_entries s ancA)).
  set (sA := resolving_state s A ancA true accA).
  assert (H1 : Typing2_one_time_init a s = Ret tt sA).
  { by eapply Typing2_one_time_init_inherits. }
  assert (HbA : heap sA !! b = Some (Inst B attrsB)) by exact Hb.
  assert (HtopBA : B < length (classes sA)).
  { subst sA. unfold resolving_state. proj. by rewrite length_insert. }
  assert (HkBA : classes sA !! B = Some (mkClass ancB [] fB false)).
  { subst sA. by rewrite classes_resolving_ne. }
  assert (HokBA : ancestry_ok sA B ancB = true) by by apply ancestry_ok_resolving.
  set (accB := accept_all sA [] (inherited_entries sA ancB)).
  set (sB := resolving_state sA B ancB true accB).
  assert (H2 : Typing2_one_time_init b sA = Ret tt sB).
  { by eapply Typing2_one_time_init_inherits. }
  destruct (assoc_resolved_inherited s ancA X HinA HclA) as (iA & eA & HeA & HassocA).
  fold accA in HeA, HassocA.
  assert (HentB : inherited_entries sA ancB = inherited_entries s ancB)
    by by apply inherited_entries_resolving.
  assert (HclBA : no_clash sA (inherited_entries sA ancB) X = true).
  { rewrite HentB. subst sA. rewrite no_clash_resolving; [done|].
    by eapply ancestry_entries_ok. }
  assert (HinBA : X ∈ map fst (inherited_entries sA ancB)) by by rewrite HentB.
  destruct (assoc_resolved_inherited sA ancB X HinBA HclBA) as (iB & eB & HeB & HassocB).
  fold accB in HeB, HassocB.
  assert (HiA : iA < length accA) by by eapply lookup_lt_Some.
  assert (HNA : length (field_objs sA) = length (field_objs s) + length accA).
  { subst sA. unfold resolving_state. proj. by rewrite length_app, length_imap. }
  assert (HCA : length (chains sA) = length (chains s) + 2 * length accA).
  { subst sA. unfold resolving_state. proj. by rewrite length_app, length_resolved_chains. }
  exists sA, sB, (length (field_objs s) + iA), (length (field_objs sA) + iB),
    (copy_entry s iA eA), (copy_entry sA iB eB).
  split; [exact H1|]. split; [exact H2|].
  assert (Hab : a <> b) by (intros ->; congruence).
  assert (HaB : a < length (heap sB)) by (by eapply (lookup_lt_Some (heap s))).
  assert (HbB : b < length (heap sB)) by (by eapply (lookup_lt_Some (heap s))).
  repeat split.
  - eapply class_lookup_own.
    { subst sB. rewrite classes_resolving_ne by done.
      subst sA. by apply classes_resolving. }
    exact HassocA.
  - eapply class_lookup_own.
    { subst sB. by apply classes_resolving. }
    exact HassocB.
  - subst sB. unfold resolving_state at 1. proj.
    rewrite lookup_app_l by lia.
    subst sA. by apply field_objs_resolving.
  - subst sB. by apply field_objs_resolving.
  - lia.
  - lia.
  - lia.
  - apply NoDup_4; cbn [copy_entry with_instance_name with_name copy_of setters_funcs
                          getters_funcs]; lia.
  - cbn [copy_entry with_instance_name with_name copy_of setters_funcs]. lia.
  - cbn [copy_entry with_instance_name with_name copy_of setters_funcs]. lia.
  - intros n m v. by apply write_read_isolated.
  - intros n m v. by apply write_read_isolated.
Qed.

Lemma inherited_field_isolated_witness :
  exists sB ra rb,
    (Typing2_one_time_init 0 ;;; Typing2_one_time_init 1) store_siblings = Ret tt sB /\
    class_lookup (classes sB) 2 "X" = Some ra /\
    class_lookup (classes sB) 3 "X" = Some rb /\
    ra <> rb.
Proof.
  destruct (inherited_field_isolated no_json store_siblings 0 1 2 3 [1; 0] [1; 0] ∅ ∅
              None None "X" ltac:(lia) ltac:(by_compute) ltac:(by_compute)
              ltac:(by_compute) ltac:(by_compute) ltac:(by_compute) ltac:(by_compute)
              ltac:(by_compute) ltac:(by_compute) ltac:(by_compute) ltac:(by_compute)
              ltac:(by_compute))
    as (sA & sB & ra & rb & fa & fb & H1 & H2 & HA & HB & _ & _ & Hne & _).
  exists sB, ra, rb. split; [|by repeat split].
  by rewrite (bind_Ret _ _ _ _ _ H1).
Defined.

(** * Further properties *)

(** ** Flat models *)

Lemma dumped_value_insert_ne s attrs slot w f :
  fslot s f <> slot ->
  dumped_value s (<[slot := w]> attrs) f = dumped_value s attrs f.
Proof. intros H. unfold dumped_value. by rewrite lookup_insert_ne. Qed.

Lemma dumped_value_insert_eq s attrs w f :
  dumped_value s (<[fslot s f := w]> attrs) f = w.
Proof. unfold dumped_value. by rewrite lookup_insert_eq. Qed.

Lemma assoc_snoc_None {A} key k (x : A) d :
  assoc key d = None -> k <> key -> assoc key (d ++ [(k, x)]) = None.
Proof.
  intros Hd Hk. induction d as [|[k' y] d IH]; cbn in *.
  - by destruct (decide (k = key)).
  - destruct (decide (k' = key)); [done|]. by apply IH.
Qed.

Lemma loaded_notin s src fs : forall tgt slot,
  slot ∉ fslot s <$> fs -> loaded s src fs tgt !! slot = tgt !! slot.
Proof.
  induction fs as [|f fs IH]; intros tgt slot Hnot; [done|].
  rewrite fmap_cons in Hnot. apply not_elem_of_cons in Hnot as [Hne Hnot].
  cbn [loaded fold_left]. fold (loaded s src fs (<[fslot s f := dumped_value s src f]> tgt)).
  rewrite IH by done. by rewrite lookup_insert_ne.
Qed.

Lemma loaded_lookup s src fs : forall tgt f,
  NoDup (fslot s <$> fs) -> f ∈ fs ->
  loaded s src fs tgt !! fslot s f = Some (dumped_value s src f).
Proof.
  induction fs as [|f0 fs IH]; intros tgt f Hnd Hin; [by apply elem_of_nil in Hin|].
  rewrite fmap_cons in Hnd. apply NoDup_cons in Hnd as [Hnot Hnd].
  cbn [loaded fold_left]. fold (loaded s src fs (<[fslot s f0 := dumped_value s src f0]> tgt)).
  apply elem_of_cons in Hin as [->|Hin].
  - rewrite loaded_notin by done. apply lookup_insert_eq.
  - by apply IH.
Qed.

Lemma dumped_value_loaded s src fs tgt f :
  NoDup (fslot s <$> fs) -> f ∈ fs ->
  dumped_value s (loaded s src fs tgt) f = dumped_value s src f.
Proof.
  intros Hnd Hin. unfold dumped_value at 1. by rewrite loaded_lookup.
Qed.

Lemma raw_dump_ext s a1 a2 fs :
  (forall f, f ∈ fs -> dumped_value s a1 f = dumped_value s a2 f) ->
  raw_dump s a1 fs = raw_dump s a2 fs.
Proof.
  intros H. apply map_ext_in. intros f Hin. f_equal. apply H. by apply list_elem_of_In.
Qed.

Lemma loaded_ext s a1 a2 fs : forall tgt,
  (forall f, f ∈ fs -> dumped_value s a1 f = dumped_value s a2 f) ->
  loaded s a1 fs tgt = loaded s a2 fs tgt.
Proof.
  induction fs as [|f fs IH]; intros tgt H; [done|].
  cbn [loaded fold_left]. rewrite (H f) by apply list_elem_of_here.
  apply IH. intros f' Hin. apply H. by apply list_elem_of_further.
Qed.

(** A raw dump stores what it reads: with distinct slots the attributes
    after the dump are those of a load of the dump into the instance. *)
Lemma materialize_loaded s fs : forall attrs,
  NoDup (fslot s <$> fs) -> materialize s fs attrs = loaded s attrs fs attrs.
Proof.
  induction fs as [|f fs IH]; intros attrs Hnd; [done|].
  rewrite fmap_cons in Hnd. apply NoDup_cons in Hnd as [Hnot Hnd].
  cbn [materialize loaded fold_left].
  fold (materialize s fs (<[fslot s f := dumped_value s attrs f]> attrs)).
  fold (loaded s attrs fs (<[fslot s f := dumped_value s attrs f]> attrs)).
  rewrite IH by done. apply loaded_ext. intros f' Hin.
  apply dumped_value_insert_ne. intros Heq. apply Hnot. rewrite <- Heq.
  by apply list_elem_of_fmap_2.
Qed.

(** Nothing is left to store when every slot holds a value. *)
Lemma materialize_stored s fs : forall attrs,
  Forall (fun f => is_Some (attrs !! fslot s f)) fs -> materialize s fs attrs = attrs.
Proof.
  induction fs as [|f fs IH]; intros attrs H; [done|].
  apply Forall_cons in H as [[w Hw] H]. cbn [materialize fold_left].
  fold (materialize s fs (<[fslot s f := dumped_value s attrs f]> attrs)).
  unfold dumped_value at 1. rewrite Hw, insert_id by done. by apply IH.
Qed.

Lemma flat_field_ok_spec s c fs f :
  flat_field_ok s c fs f = true ->
  exists fd,
    field_objs s !! f = Some fd /\ field_at s f = fd /\
    kind fd = KField /\ name fd = Some (fname s f) /\
    instance_name fd = Some (fslot s f) /\
    is_list fd = false /\ instanciator fd = None /\
    class_lookup (classes s) c (fname s f) = Some f /\
    class_lookup (classes s) c (fslot s f) = None /\
    find_field (field_objs s) fs (fname s f) = Some (Some f) /\
    chains s !! setters_funcs fd = Some [] /\
    chains s !! getters_funcs fd = Some [].
Proof.
  unfold flat_field_ok, fname, fslot, field_at, chain_empty.
  destruct (field_objs s !! f) as [fd|] eqn:Hfd; [|done]. cbn [default from_option].
  destruct (kind fd) eqn:Hk; [|done].
  destruct (name fd) as [nm|] eqn:Hnm; [|done].
  destruct (instance_name fd) as [slot|] eqn:Hsl; [|done].
  destruct (is_list fd) eqn:Hl; [done|].
  destruct (instanciator fd) eqn:Hi; [done|]. cbn [default from_option].
  rewrite !andb_true_iff, !bool_decide_eq_true.
  intros ((((H1 & H2) & H3) & H4) & H5).
  destruct (chains s !! setters_funcs fd) as [[|? ?]|] eqn:Hs; try done.
  destruct (chains s !! getters_funcs fd) as [[|? ?]|] eqn:Hg; try done.
  exists fd. unfold id. rewrite ?Hnm, ?Hsl. cbn [from_option]. repeat split; done.
Qed.

Lemma try_AttributeError_Ret {A B} (m : M A) (ok : A -> M B) (h : M B) s a s' :
  m s = Ret a s' -> try_AttributeError m ok h s = ok a s'.
Proof. intros H. unfold try_AttributeError. by rewrite H. Qed.

Section FlatModel.

Variable json_loads : string -> res value.
Variables (s0 : state) (c : nat) (fs : list nat).

(** Reading a flat field: the stored value, or the converted default, which
    the read also stores. *)
Lemma read_flat n h obj attrs f :
  flat_field_ok s0 c fs f = true ->
  default_ok s0 f = true ->
  h !! obj = Some (Inst c attrs) ->
  py_getattr (engine json_loads (S (S n))) obj (Some (fname s0 f)) (set_heap h s0) =
  Ret (dumped_value s0 attrs f)
      (set_heap (<[obj := Inst c (<[fslot s0 f := dumped_value s0 attrs f]> attrs)]> h) s0).
Proof.
  intros Hflat Hdef Hobj.
  destruct (flat_field_ok_spec _ _ _ _ Hflat)
    as (fd & Hfd & Hat & Hk & Hnm & Hsl & Hl & Hi & Hcn & Hcs & Hfind & Hss & Hgs).
  rewrite (py_getattr_field _ (set_heap h s0) obj c attrs _ f Hobj Hcn).
  rewrite (descr_get_Field _ (set_heap h s0) f fd obj Hfd Hk).
  unfold dumped_value.
  destruct (attrs !! fslot s0 f) as [w|] eqn:Hw.
  - rewrite (Field_get_stored json_loads f obj c (S n) (set_heap h s0) fd _ attrs w []
               Hfd Hsl Hobj Hcs Hw Hgs).
    cbn [run_chain fold_left]. f_equal.
    rewrite insert_id by done. by rewrite list_insert_id.
  - unfold default_ok in Hdef. rewrite Hat in Hdef.
    unfold converted_default. rewrite Hat.
    destruct (Field_loads_convert fd (default_value fd)) as [d|] eqn:Hconv; [|done].
    erewrite (Field_get_first_read json_loads f obj c n (set_heap h s0) fd (fslot s0 f) attrs
               (default_value fd)
               (set_heap (<[obj := Inst c (<[fslot s0 f := VNone]> attrs)]> h) s0)
               fd (fslot s0 f) (<[fslot s0 f := VNone]> attrs) d [] []
               Hfd Hsl Hobj Hcs Hw).
    + cbn [run_chain fold_left]. f_equal. proj.
      by rewrite list_insert_insert_eq, insert_insert_eq.
    + unfold Field_get_instance.
      erewrite (bind_Ret _ _ _ fd _ (deref_Some (set_heap _ (set_heap h s0)) _ _ Hfd)).
      by rewrite Hi.
    + done.
    + done.
    + done.
    + proj. apply list_lookup_insert_eq. by eapply lookup_lt_Some.
    + done.
    + done.
    + done.
    + done.
Qed.

(** Writing a flat field: the loads converter, then the slot. *)
Lemma write_flat n h obj attrs f v v1 :
  flat_field_ok s0 c fs f = true ->
  Field_loads_convert (field_at s0 f) v = Ok v1 ->
  h !! obj = Some (Inst c attrs) ->
  py_setattr (engine json_loads (S n)) obj (Some (fname s0 f)) v (set_heap h s0) =
  Ret tt (set_heap (<[obj := Inst c (<[fslot s0 f := v1]> attrs)]> h) s0).
Proof.
  intros Hflat Hconv Hobj.
  destruct (flat_field_ok_spec _ _ _ _ Hflat)
    as (fd & Hfd & Hat & Hk & Hnm & Hsl & Hl & Hi & Hcn & Hcs & Hfind & Hss & Hgs).
  rewrite Hat in Hconv.
  rewrite (py_setattr_field _ (set_heap h s0) obj c attrs _ f v Hobj Hcn).
  rewrite (descr_set_Field _ (set_heap h s0) f fd obj v Hfd Hk).
  by rewrite (Field_set_plain json_loads f obj c n (set_heap h s0) fd _ attrs v v1 []
               Hfd Hsl Hobj Hcs Hconv Hss).
Qed.

(** One field of a raw dump. *)
Lemma dump_field_flat n h obj attrs f acc :
  flat_field_ok s0 c fs f = true ->
  default_ok s0 f = true ->
  is_ref (dumped_value s0 attrs f) = false ->
  h !! obj = Some (Inst c attrs) ->
  dump_field (engine json_loads (S (S (S n)))) obj true acc f (set_heap h s0) =
  Ret (dict_set (fname s0 f) (dumped_value s0 attrs f) acc)
      (set_heap (<[obj := Inst c (<[fslot s0 f := dumped_value s0 attrs f]> attrs)]> h) s0).
Proof.
  intros Hflat Hdef Hval Hobj.
  destruct (flat_field_ok_spec _ _ _ _ Hflat)
    as (fd & Hfd & Hat & Hk & Hnm & Hsl & Hl & Hi & Hcn & Hcs & Hfind & Hss & Hgs).
  unfold dump_field.
  rewrite (bind_Ret _ _ _ fd _ (deref_Some (set_heap h s0) _ _ Hfd)).
  cbn [negb andb]. rewrite Hnm, (engine_S json_loads (S (S n))). proj.
  rewrite (bind_Ret _ _ _ _ _
             (try_AttributeError_Ret _ ret (ret VNone) _ _ _
                (read_flat n h obj attrs f Hflat Hdef Hobj))).
  erewrite (bind_Ret _ _ _ fd _ (deref_Some (set_heap _ s0) _ _ Hfd)).
  rewrite (bind_Ret _ _ _ _ _ eq_refl).
  rewrite Hl. unfold Typing2_dump, dump_one.
  revert Hval.
  destruct (dumped_value s0 attrs f); intros Hval; try done; cbn [is_typing];
    unfold bind, ret, Field_get_name; cbn [negb andb]; by rewrite Hnm.
Qed.

(** The loop of a raw dump over flat fields. *)
Lemma dump_loop_flat n obj fs' : forall acc attrs h,
  Forall (fun f => flat_field_ok s0 c fs f = true) fs' ->
  Forall (fun f => default_ok s0 f = true) fs' ->
  Forall (fun f => is_ref (dumped_value s0 attrs f) = false) fs' ->
  NoDup (fslot s0 <$> fs') ->
  NoDup (fname s0 <$> fs') ->
  Forall (fun f => assoc (fname s0 f) acc = None) fs' ->
  h !! obj = Some (Inst c attrs) ->
  fold_m (dump_field (engine json_loads (S (S (S n)))) obj true) acc fs' (set_heap h s0) =
  Ret (acc ++ raw_dump s0 attrs fs')
      (set_heap (<[obj := Inst c (materialize s0 fs' attrs)]> h) s0).
Proof.
  induction fs' as [|f fs' IH]; intros acc attrs h Hflat Hdef Hval Hsl Hnm Hacc Hobj.
  - cbn. unfold ret. by rewrite app_nil_r, list_insert_id.
  - apply Forall_cons in Hflat as [Hf Hflat]. apply Forall_cons in Hdef as [Hd Hdef].
    apply Forall_cons in Hval as [Hv Hval]. apply Forall_cons in Hacc as [Ha Hacc].
    rewrite fmap_cons in Hsl, Hnm. apply NoDup_cons in Hsl as [Hsf Hsl].
    apply NoDup_cons in Hnm as [Hnf Hnm].
    cbn [fold_m].
    rewrite (bind_Ret _ _ _ _ _ (dump_field_flat n h obj attrs f acc Hf Hd Hv Hobj)).
    rewrite dict_set_fresh by done.
    assert (Hne : Forall (fun f' => fslot s0 f' <> fslot s0 f) fs').
    { apply Forall_forall. intros f' Hin Heq. apply Hsf. rewrite <- Heq.
      by apply list_elem_of_fmap_2. }
    rewrite IH with (attrs := <[fslot s0 f := dumped_value s0 attrs f]> attrs); try done.
    + cbn [raw_dump map materialize fold_left]. rewrite <- app_assoc. cbn [app].
      rewrite list_insert_insert_eq. do 3 f_equal.
      apply map_ext_in. intros f' Hin. f_equal.
      apply dumped_value_insert_ne.
      rewrite Forall_forall in Hne. apply Hne. by apply list_elem_of_In.
    + apply Forall_forall. intros f' Hin.
      rewrite dumped_value_insert_ne.
      * rewrite Forall_forall in Hval. by apply Hval.
      * rewrite Forall_forall in Hne. by apply Hne.
    + apply Forall_forall. intros f' Hin. apply assoc_snoc_None.
      * rewrite Forall_forall in Hacc. by apply Hacc.
      * intros Heq. apply Hnf. rewrite Heq. by apply list_elem_of_fmap_2.
    + apply list_lookup_insert_eq. by eapply lookup_lt_Some.
Qed.

Variable k : Class.
Hypothesis Hk : classes s0 !! c = Some k.
Hypothesis Hfs : mro_fields (classes s0) (c :: cls_ancestors k) = Some fs.

Lemma Typing2_dumps_flat n obj attrs h :
  Forall (fun f => flat_field_ok s0 c fs f = true) fs ->
  Forall (fun f => default_ok s0 f = true) fs ->
  Forall (fun f => is_ref (dumped_value s0 attrs f) = false) fs ->
  NoDup (fslot s0 <$> fs) ->
  NoDup (fname s0 <$> fs) ->
  h !! obj = Some (Inst c attrs) ->
  Typing2_dumps (engine json_loads (S (S (S n)))) obj true (set_heap h s0) =
  Ret (VDict (raw_dump s0 attrs fs))
      (set_heap (<[obj := Inst c (materialize s0 fs attrs)]> h) s0).
Proof.
  intros Hflat Hdef Hval Hsl Hnm Hobj. unfold Typing2_dumps, Typing2_pre_dumps.
  rewrite (bind_Ret _ _ _ tt _ eq_refl).
  rewrite (bind_Ret _ _ _ _ _
             (Typing2_get_fields_Some (set_heap h s0) obj c attrs k fs Hobj Hk Hfs)).
  rewrite (bind_Ret _ _ _ _ _
             (dump_loop_flat n obj fs [] attrs h Hflat Hdef Hval Hsl Hnm
                ltac:(by apply Forall_forall) Hobj)).
  done.
Qed.

(** One item of a load into a flat field, under any key [get_field]
    resolves to the field. *)
Lemma load_entry_flat_key n h obj attrs key f v v1 :
  find_field (field_objs s0) fs key = Some (Some f) ->
  flat_field_ok s0 c fs f = true ->
  default_ok s0 f = true ->
  is_ref (dumped_value s0 attrs f) = false ->
  Field_loads_convert (field_at s0 f) v = Ok v1 ->
  h !! obj = Some (Inst c attrs) ->
  load_entry (engine json_loads (S (S (S n)))) obj (key, v) (set_heap h s0) =
  Ret tt (set_heap (<[obj := Inst c (<[fslot s0 f := v1]> attrs)]> h) s0).
Proof.
  intros Hkey Hflat Hdef Hval Hconv Hobj.
  destruct (flat_field_ok_spec _ _ _ _ Hflat)
    as (fd & Hfd & Hat & Hkd & Hnm & Hsl & Hl & Hi & Hcn & Hcs & Hfind & Hss & Hgs).
  unfold load_entry.
  rewrite (bind_Ret _ _ _ _ _
             (Typing2_get_field_find (set_heap h s0) obj c attrs k fs _ _ Hobj Hk Hfs Hkey)).
  rewrite (bind_Ret _ _ _ fd _ (deref_Some (set_heap h s0) _ _ Hfd)).
  rewrite Hnm, (engine_S json_loads (S (S n))). proj.
  rewrite (bind_Ret _ _ _ _ _ (read_flat n h obj attrs f Hflat Hdef Hobj)).
  set (h1 := <[obj := _]> h).
  assert (Hobj1 : h1 !! obj
                  = Some (Inst c (<[fslot s0 f := dumped_value s0 attrs f]> attrs))).
  { subst h1. apply list_lookup_insert_eq. by eapply lookup_lt_Some. }
  assert (Hty : is_typing (dumped_value s0 attrs f) (set_heap h1 s0)
                = Ret false (set_heap h1 s0)).
  { revert Hval. by destruct (dumped_value s0 attrs f). }
  rewrite (bind_Ret _ _ _ _ _ Hty).
  rewrite (bind_Ret _ _ _ fd _ (deref_Some (set_heap h1 s0) _ _ Hfd)), Hl.
  rewrite (bind_Ret _ _ _ fd _ (deref_Some (set_heap h1 s0) _ _ Hfd)), Hnm.
  rewrite (write_flat (S n) h1 obj _ f v v1 Hflat Hconv Hobj1).
  subst h1. by rewrite list_insert_insert_eq, insert_insert_eq.
Qed.

Lemma load_entry_flat n h obj attrs f v v1 :
  flat_field_ok s0 c fs f = true ->
  default_ok s0 f = true ->
  is_ref (dumped_value s0 attrs f) = false ->
  Field_loads_convert (field_at s0 f) v = Ok v1 ->
  h !! obj = Some (Inst c attrs) ->
  load_entry (engine json_loads (S (S (S n)))) obj (fname s0 f, v) (set_heap h s0) =
  Ret tt (set_heap (<[obj := Inst c (<[fslot s0 f := v1]> attrs)]> h) s0).
Proof.
  intros Hflat. apply load_entry_flat_key; [|done].
  by destruct (flat_field_ok_spec _ _ _ _ Hflat) as (fd & ? & ? & ? & ? & ? & ? & ? & ? & ? & ? & ?).
Qed.

(** The loop of a load of the raw dump of [src]. *)
Lemma load_loop_flat n obj src fs' : forall tgt h,
  Forall (fun f => flat_field_ok s0 c fs f = true) fs' ->
  Forall (fun f => default_ok s0 f = true) fs' ->
  Forall (fun f => is_ref (dumped_value s0 tgt f) = false) fs' ->
  loads_fixed s0 src fs' ->
  NoDup (fslot s0 <$> fs') ->
  h !! obj = Some (Inst c tgt) ->
  for_each (raw_dump s0 src fs') (load_entry (engine json_loads (S (S (S n)))) obj)
    (set_heap h s0) =
  Ret tt (set_heap (<[obj := Inst c (loaded s0 src fs' tgt)]> h) s0).
Proof.
  induction fs' as [|f fs' IH]; intros tgt h Hflat Hdef Hval Hfix Hsl Hobj.
  - cbn. unfold ret. by rewrite list_insert_id.
  - apply Forall_cons in Hflat as [Hf Hflat]. apply Forall_cons in Hdef as [Hd Hdef].
    apply Forall_cons in Hval as [Hv Hval]. apply Forall_cons in Hfix as [Hx Hfix].
    rewrite fmap_cons in Hsl. apply NoDup_cons in Hsl as [Hsf Hsl].
    cbn [raw_dump map for_each].
    rewrite (bind_Ret _ _ _ _ _ (load_entry_flat n h obj tgt f _ _ Hf Hd Hv Hx Hobj)).
    fold (raw_dump s0 src fs').
    rewrite IH with (tgt := <[fslot s0 f := dumped_value s0 src f]> tgt); try done.
    + cbn [loaded fold_left]. by rewrite list_insert_insert_eq.
    + apply Forall_forall. intros f' Hin.
      rewrite dumped_value_insert_ne.
      * rewrite Forall_forall in Hval. by apply Hval.
      * intros Heq. apply Hsf. rewrite <- Heq. by apply list_elem_of_fmap_2.
    + apply list_lookup_insert_eq. by eapply lookup_lt_Some.
Qed.

Lemma loads_from_dict_flat n obj src tgt h :
  Forall (fun f => flat_field_ok s0 c fs f = true) fs ->
  Forall (fun f => default_ok s0 f = true) fs ->
  Forall (fun f => is_ref (dumped_value s0 tgt f) = false) fs ->
  loads_fixed s0 src fs ->
  NoDup (fslot s0 <$> fs) ->
  h !! obj = Some (Inst c tgt) ->
  Typing2_loads_from_dict (engine json_loads (S (S (S n)))) obj
    (VDict (raw_dump s0 src fs)) (set_heap h s0) =
  Ret tt (set_heap (<[obj := Inst c (loaded s0 src fs tgt)]> h) s0).
Proof.
  intros. rewrite loads_from_dict_VDict. by apply load_loop_flat.
Qed.

End FlatModel.

Lemma flat_model_spec s c fs :
  flat_model s c fs = true ->
  Forall (fun f => flat_field_ok s c fs f = true) fs /\
  Forall (fun f => default_ok s f = true) fs /\
  NoDup (fslot s <$> fs) /\ NoDup (fname s <$> fs).
Proof.
  unfold flat_model. rewrite !andb_true_iff, !bool_decide_eq_true, !forallb_forall.
  intros [[[H1 H2] H3] H4]. repeat split; try done.
  - apply Forall_forall. intros f Hin. apply H1. by apply list_elem_of_In.
  - apply Forall_forall. intros f Hin. apply H2. by apply list_elem_of_In.
Qed.

Lemma flat_values_spec s attrs fs :
  flat_values s attrs fs = true ->
  Forall (fun f => is_ref (dumped_value s attrs f) = false) fs.
Proof.
  unfold flat_values. rewrite forallb_forall. intros H.
  apply Forall_forall. intros f Hin. apply negb_true_iff, H. by apply list_elem_of_In.
Qed.

Lemma default_ok_not_ref s f :
  default_ok s f = true -> is_ref (converted_default (field_at s f)) = false.
Proof.
  unfold default_ok, converted_default.
  destruct (Field_loads_convert _ _); [|done]. by intros ?%negb_true_iff.
Qed.

(** A new instance reads no object reference from a flat field. *)
Lemma flat_values_new s fs (parent : value) :
  is_ref parent = false ->
  Forall (fun f => default_ok s f = true) fs ->
  Forall (fun f => is_ref (dumped_value s {["parent" := parent]} f) = false) fs.
Proof.
  intros Hp H. eapply Forall_impl; [exact H|]. intros f Hd. cbn beta in *.
  unfold dumped_value. destruct (decide (fslot s f = "parent")) as [->|Hne].
  - by rewrite lookup_singleton_eq.
  - rewrite lookup_singleton_ne by done. by apply default_ok_not_ref.
Qed.

Lemma Typing2_new_resolved json_loads n c parent s k :
  classes s !! c = Some k -> cls_init_done k = true ->
  class_lookup (classes s) c "parent" = None ->
  Typing2_new json_loads (engine json_loads (S n)) c VNone parent s =
  Ret (VRef (length (heap s)))
      (set_heap (heap s ++ [Inst c {["parent" := parent]}]) s).
Proof.
  intros Hk Hdone Hparent.
  unfold Typing2_new, alloc_cell. unfold bind at 1.
  set (s1 := set_heap _ s).
  assert (Hnew : heap s1 !! length (heap s) = Some (Inst c ∅)).
  { subst s1. proj. by rewrite lookup_app_r, Nat.sub_diag by lia. }
  rewrite (bind_Ret _ _ _ _ _
             (Typing2_init_resolved json_loads n s1 _ c ∅ k VNone parent Hnew Hk Hdone
                Hparent (or_introl eq_refl))).
  unfold ret. subst s1. proj.
  by rewrite insert_app_r_alt, Nat.sub_diag by lia.
Qed.

(** The raw dump of a flat instance read back from the instance the dump
    was loaded into. *)
Lemma dumps_loaded_flat json_loads n s c k fs obj src tgt h :
  classes s !! c = Some k ->
  mro_fields (classes s) (c :: cls_ancestors k) = Some fs ->
  flat_model s c fs = true ->
  flat_values s src fs = true ->
  h !! obj = Some (Inst c (loaded s src fs tgt)) ->
  Typing2_dumps (engine json_loads (S (S (S n)))) obj true (set_heap h s) =
  Ret (VDict (raw_dump s src fs)) (set_heap h s).
Proof.
  intros Hk Hfs Hflat Hval Hobj.
  destruct (flat_model_spec _ _ _ Hflat) as (Hf & Hd & Hsl & Hnm).
  pose proof (flat_values_spec _ _ _ Hval) as Hv.
  rewrite (Typing2_dumps_flat json_loads s c fs k Hk Hfs n obj (loaded s src fs tgt) h);
    try done.
  - rewrite (raw_dump_ext s (loaded s src fs tgt) src fs)
      by (intros f Hin; by apply dumped_value_loaded).
    rewrite materialize_stored.
    + by rewrite list_insert_id.
    + apply Forall_forall. intros f Hin. by rewrite loaded_lookup.
  - apply Forall_forall. intros f Hin. rewrite dumped_value_loaded by done.
    rewrite Forall_forall in Hv. by apply Hv.
Qed.

(** X1.  Round trip of a raw dump on a flat model: all resolved fields are
    storage-backed scalars without instanciator, setters or getters, with
    distinct names and slots, every field is the one [get_field] finds
    under its own name (no field before it has that name as its name or as
    its mapping name), and the loads converters leave the values the
    instance holds as they are; hidden flags and dumps converters are free.
    The raw dump of the instance lists every field under its name; a new
    instance of the class that loads this dump dumps the same, and this
    second dump changes nothing. *)
Theorem raw_dump_round_trip (json_loads : string -> res value) n s m c attrs k fs :
  heap s !! m = Some (Inst c attrs) ->
  classes s !! c = Some k ->
  cls_init_done k = true ->
  mro_fields (classes s) (c :: cls_ancestors k) = Some fs ->
  class_lookup (classes s) c "parent" = None ->
  flat_model s c fs = true ->
  flat_values s attrs fs = true ->
  loads_fixed s attrs fs ->
  exists s1 s2 s3,
    Typing2_dumps (engine json_loads (S (S (S n)))) m true s
      = Ret (VDict (raw_dump s attrs fs)) s1 /\
    Typing2_new json_loads (engine json_loads (S (S (S n)))) c VNone VNone s1
      = Ret (VRef (length (heap s))) s2 /\
    Typing2_loads_from_dict (engine json_loads (S (S (S n)))) (length (heap s))
      (VDict (raw_dump s attrs fs)) s2 = Ret tt s3 /\
    Typing2_dumps (engine json_loads (S (S (S n)))) (length (heap s)) true s3
      = Ret (VDict (raw_dump s attrs fs)) s3.
Proof.
  intros Hm Hk Hdone Hfs Hparent Hflat Hval Hfix.
  destruct (flat_model_spec _ _ _ Hflat) as (Hf & Hd & Hsl & Hnm).
  pose proof (flat_values_spec _ _ _ Hval) as Hv.
  set (h1 := <[m := Inst c (materialize s fs attrs)]> (heap s)).
  set (h2 := h1 ++ [Inst c {["parent" := VNone]}]).
  set (h3 := <[length (heap s) := Inst c (loaded s attrs fs {["parent" := VNone]})]> h2).
  assert (Hlen : length h1 = length (heap s)) by (subst h1; apply length_insert).
  assert (Hnew : h2 !! length (heap s) = Some (Inst c {["parent" := VNone]})).
  { subst h2. by rewrite lookup_app_r, Hlen, Nat.sub_diag by lia. }
  exists (set_heap h1 s), (set_heap h2 s), (set_heap h3 s). repeat split.
  - rewrite <- (set_heap_id s) at 1.
    by apply (Typing2_dumps_flat json_loads s c fs k Hk Hfs).
  - rewrite (Typing2_new_resolved json_loads (S (S n)) c VNone (set_heap h1 s) k Hk Hdone
               Hparent).
    proj. by rewrite Hlen.
  - apply (loads_from_dict_flat json_loads s c fs k Hk Hfs); try done.
    by apply flat_values_new.
  - apply (dumps_loaded_flat json_loads n s c k fs _ attrs {["parent" := VNone]});
      try done.
    subst h3. apply list_lookup_insert_eq. by eapply lookup_lt_Some.
Qed.

Lemma raw_dump_round_trip_witness :
  exists s1 s2 s3,
    Typing2_dumps (engine no_json 3) 0 true store_flat
      = Ret (VDict [("a", VInt 3); ("b", VStr "x")]) s1 /\
    Typing2_new no_json (engine no_json 3) 1 VNone VNone s1 = Ret (VRef 2) s2 /\
    Typing2_loads_from_dict (engine no_json 3) 2
      (VDict [("a", VInt 3); ("b", VStr "x")]) s2 = Ret tt s3 /\
    Typing2_dumps (engine no_json 3) 2 true s3
      = Ret (VDict [("a", VInt 3); ("b", VStr "x")]) s3.
Proof.
  apply (raw_dump_round_trip no_json 0 store_flat 0 1 {["_a" := VInt 3]}
           (mkClass [0] [("a", 0); ("b", 1)] (Some [0; 1]) true) [0; 1]
           eq_refl eq_refl eq_refl eq_refl eq_refl eq_refl eq_refl).
  repeat constructor.
Defined.

(** X2.  [loads_from_typing] between two instances of a flat model: the
    raw dump of [other] is loaded into [self]; afterwards both instances
    have the raw dump [other] had. *)
Theorem loads_from_typing_copies (json_loads : string -> res value) n s self other c
    tgt src k fs :
  self <> other ->
  heap s !! self = Some (Inst c tgt) ->
  heap s !! other = Some (Inst c src) ->
  classes s !! c = Some k ->
  mro_fields (classes s) (c :: cls_ancestors k) = Some fs ->
  flat_model s c fs = true ->
  flat_values s src fs = true ->
  flat_values s tgt fs = true ->
  loads_fixed s src fs ->
  exists s',
    Typing2_loads_from_typing (engine json_loads (S (S (S (S n))))) self other s
      = Ret tt s' /\
    Typing2_dumps (engine json_loads (S (S (S n)))) self true s'
      = Ret (VDict (raw_dump s src fs)) s' /\
    Typing2_dumps (engine json_loads (S (S (S n)))) other true s'
      = Ret (VDict (raw_dump s src fs)) s'.
Proof.
  intros Hne Hself Hother Hk Hfs Hflat Hsrc Htgt Hfix.
  destruct (flat_model_spec _ _ _ Hflat) as (Hf & Hd & Hsl & Hnm).
  pose proof (flat_values_spec _ _ _ Hsrc) as Hvs.
  pose proof (flat_values_spec _ _ _ Htgt) as Hvt.
  set (h1 := <[other := Inst c (materialize s fs src)]> (heap s)).
  set (h2 := <[self := Inst c (loaded s src fs tgt)]> h1).
  assert (Hself1 : h1 !! self = Some (Inst c tgt)).
  { subst h1. by rewrite list_lookup_insert_ne. }
  exists (set_heap h2 s). repeat split.
  - unfold Typing2_loads_from_typing.
    rewrite (engine_S json_loads (S (S (S n)))). proj.
    rewrite <- (set_heap_id s) at 1.
    rewrite (bind_Ret _ _ _ _ _
               (Typing2_dumps_flat json_loads s c fs k Hk Hfs n other src (heap s)
                  Hf Hd Hvs Hsl Hnm Hother)).
    rewrite <- (engine_S json_loads (S (S (S n)))).
    by apply (loads_from_dict_flat json_loads s c fs k Hk Hfs (S n)).
  - apply (dumps_loaded_flat json_loads n s c k fs _ src tgt); try done.
    subst h2. apply list_lookup_insert_eq. by eapply lookup_lt_Some.
  - apply (dumps_loaded_flat json_loads n s c k fs _ src src); try done.
    subst h2 h1. rewrite list_lookup_insert_ne by done.
    rewrite materialize_loaded by done.
    apply list_lookup_insert_eq. by eapply lookup_lt_Some.
Qed.

Lemma loads_from_typing_copies_witness :
  exists s',
    Typing2_loads_from_typing (engine no_json 4) 1 0 store_flat = Ret tt s' /\
    Typing2_dumps (engine no_json 3) 1 true s'
      = Ret (VDict [("a", VInt 3); ("b", VStr "x")]) s' /\
    Typing2_dumps (engine no_json 3) 0 true s'
      = Ret (VDict [("a", VInt 3); ("b", VStr "x")]) s'.
Proof.
  apply (loads_from_typing_copies no_json 0 store_flat 1 0 1 {["_b" := VStr "y"]}
           {["_a" := VInt 3]}
           (mkClass [0] [("a", 0); ("b", 1)] (Some [0; 1]) true) [0; 1]
           ltac:(lia) eq_refl eq_refl eq_refl eq_refl eq_refl eq_refl eq_refl).
  repeat constructor.
Defined.

(** ** Reset, again *)

Lemma lookup_clear_slots slots : forall (attrs : gmap string value) key,
  clear_slots slots attrs !! key = if decide (key ∈ slots) then None else attrs !! key.
Proof.
  induction slots as [|x slots IH]; intros attrs key.
  - cbn. destruct (decide (key ∈ [])) as [H|H]; [by apply elem_of_nil in H|done].
  - unfold clear_slots. cbn [foldl]. fold (clear_slots slots (delete x attrs)).
    rewrite IH. destruct (decide (key ∈ slots)) as [Hin|Hin].
    + rewrite decide_True; [done|by apply list_elem_of_further].
    + destruct (decide (key = x)) as [->|Hne].
      * rewrite decide_True by apply list_elem_of_here. apply lookup_delete_eq.
      * rewrite decide_False by (rewrite elem_of_cons; tauto).
        by apply lookup_delete_ne.
Qed.

Lemma clear_slots_idem slots (attrs : gmap string value) :
  clear_slots slots (clear_slots slots attrs) = clear_slots slots attrs.
Proof.
  apply map_eq. intros key. rewrite !lookup_clear_slots.
  by destruct (decide (key ∈ slots)).
Qed.

Lemma storage_slots_elem fo fs f fd slot :
  f ∈ fs -> fo !! f = Some fd -> kind fd = KField -> instance_name fd = Some slot ->
  slot ∈ storage_slots fo fs.
Proof.
  intros Hin Hf Hk Hn. unfold storage_slots. apply list_elem_of_omap.
  exists f. split; [done|]. by rewrite Hf, Hk.
Qed.

Lemma Typing2_reset_spec json_loads n s self cls attrs k fs :
  heap s !! self = Some (Inst cls attrs) ->
  classes s !! cls = Some k ->
  mro_fields (classes s) (cls :: cls_ancestors k) = Some fs ->
  fields_plain s cls fs = true ->
  Typing2_reset (engine json_loads (S n)) self s =
  Ret tt (set_heap
            (<[self := Inst cls (clear_slots (storage_slots (field_objs s) fs) attrs)]>
               (heap s)) s).
Proof.
  intros Hself Hk Hfs Hplain. unfold Typing2_reset.
  rewrite (bind_Ret _ _ _ _ _ (Typing2_get_fields_Some _ _ _ _ _ _ Hself Hk Hfs)).
  by apply reset_loop.
Qed.

(** X4.  [reset] is idempotent: a second [reset] right after the first
    leaves the store the first one made. *)
Theorem reset_idempotent (json_loads : string -> res value) n s self cls attrs k fs :
  heap s !! self = Some (Inst cls attrs) ->
  classes s !! cls = Some k ->
  mro_fields (classes s) (cls :: cls_ancestors k) = Some fs ->
  fields_plain s cls fs = true ->
  (Typing2_reset (engine json_loads (S n)) self ;;;
   Typing2_reset (engine json_loads (S n)) self) s
  = Typing2_reset (engine json_loads (S n)) self s.
Proof.
  intros Hself Hk Hfs Hplain.
  rewrite (bind_Ret _ _ _ _ _
             (Typing2_reset_spec json_loads n s self cls attrs k fs Hself Hk Hfs Hplain)).
  rewrite (Typing2_reset_spec json_loads n s self cls attrs k fs Hself Hk Hfs Hplain).
  set (s1 := set_heap _ s).
  rewrite (Typing2_reset_spec json_loads n s1 self cls
             (clear_slots (storage_slots (field_objs s) fs) attrs) k fs); try done.
  - subst s1. proj. by rewrite list_insert_insert_eq, clear_slots_idem.
  - subst s1. proj. apply list_lookup_insert_eq. by eapply lookup_lt_Some.
Qed.

Lemma reset_idempotent_witness :
  (Typing2_reset (engine no_json 1) 0 ;;; Typing2_reset (engine no_json 1) 0) store_virtual
  = Typing2_reset (engine no_json 1) 0 store_virtual.
Proof.
  apply (reset_idempotent no_json 0 store_virtual 0 1 {["_a" := VInt 5]}
           (mkClass [0] [("a", 0); ("v", 1)] (Some [0; 1]) true) [0; 1]
           eq_refl eq_refl eq_refl eq_refl).
Defined.

(** X3.  After [reset], the read of a storage-backed field without
    instanciator gives the default again, whatever was stored before: the
    default goes through the loads converter and the setters into the slot,
    and the getters are applied to what is returned. *)
Theorem reset_then_read_default (json_loads : string -> res value) n s self cls attrs k fs
    f fd nm slot d ss gs :
  heap s !! self = Some (Inst cls attrs) ->
  classes s !! cls = Some k ->
  mro_fields (classes s) (cls :: cls_ancestors k) = Some fs ->
  fields_plain s cls fs = true ->
  f ∈ fs ->
  field_objs s !! f = Some fd ->
  kind fd = KField ->
  instance_name fd = Some slot ->
  class_lookup (classes s) cls nm = Some f ->
  class_lookup (classes s) cls slot = None ->
  instanciator fd = None ->
  Field_loads_convert fd (default_value fd) = Ok d ->
  chains s !! setters_funcs fd = Some ss ->
  chains s !! getters_funcs fd = Some gs ->
  (Typing2_reset (engine json_loads (S (S n))) self ;;;
   py_getattr (engine json_loads (S (S n))) self (Some nm)) s
  = Ret (run_chain gs self (run_chain ss self d))
      (set_heap
         (<[self := Inst cls (<[slot := run_chain ss self d]>
                                (clear_slots (storage_slots (field_objs s) fs) attrs))]>
            (heap s)) s).
Proof.
  intros Hself Hk Hfs Hplain Hin Hf Hkind Hslot Hcn Hcs Hinst Hconv Hss Hgs.
  rewrite (bind_Ret _ _ _ _ _
             (Typing2_reset_spec json_loads (S n) s self cls attrs k fs Hself Hk Hfs Hplain)).
  set (attrs1 := clear_slots _ attrs). set (s1 := set_heap _ s).
  assert (Hself1 : heap s1 !! self = Some (Inst cls attrs1)).
  { subst s1. proj. apply list_lookup_insert_eq. by eapply lookup_lt_Some. }
  assert (Hnone : attrs1 !! slot = None).
  { subst attrs1. rewrite lookup_clear_slots, decide_True; [done|].
    by eapply storage_slots_elem. }
  rewrite (py_getattr_field _ s1 self cls attrs1 nm f Hself1 Hcn).
  rewrite (descr_get_Field _ s1 f fd self Hf Hkind).
  erewrite (Field_get_first_read json_loads f self cls n s1 fd slot attrs1
              (default_value fd)
              (set_heap (<[self := Inst cls (<[slot := VNone]> attrs1)]> (heap s1)) s1)
              fd slot (<[slot := VNone]> attrs1) d ss gs Hf Hslot Hself1 Hcs Hnone).
  - f_equal. subst s1. proj.
    by rewrite !list_insert_insert_eq, insert_insert_eq.
  - unfold Field_get_instance.
    erewrite (bind_Ret _ _ _ fd _ (deref_Some (set_heap _ s1) _ _ Hf)).
    by rewrite Hinst.
  - done.
  - done.
  - done.
  - proj. apply list_lookup_insert_eq. by eapply lookup_lt_Some.
  - done.
  - done.
  - done.
  - done.
Qed.

Lemma reset_then_read_default_witness :
  (Typing2_reset (engine no_json 2) 0 ;;; py_getattr (engine no_json 2) 0 (Some "a"))
    (set_heap [Inst 1 {["_a" := VInt 1]}] (store_default [add_ten] [double]))
  = Ret (VInt 30) (set_heap [Inst 1 {["_a" := VInt 15]}] (store_default [add_ten] [double])).
Proof.
  etrans;
    [apply (reset_then_read_default no_json 0
              (set_heap [Inst 1 {["_a" := VInt 1]}] (store_default [add_ten] [double]))
              0 1 {["_a" := VInt 1]} (mkClass [0] [("a", 0)] (Some [0]) true) [0] 0
              (mkField KField (Some "a") None (VInt 5) None false false None None None
                 (Some "_a") 0 1)
              "a" "_a" (VInt 5) [add_ten] [double]
              eq_refl eq_refl eq_refl eq_refl ltac:(apply list_elem_of_here)
              eq_refl eq_refl eq_refl eq_refl eq_refl eq_refl eq_refl eq_refl eq_refl)
    | by_compute].
Defined.

(** ** Direct access *)

(** X5.  [direct_set] and [direct_get] of a storage-backed field go to the
    slot: no setter or getter runs, and nothing is made on a read. *)
Theorem direct_access_bypasses_chains (json_loads : string -> res value) n s f fd obj cls
    attrs slot v v1 (bypass_converter : bool) :
  field_objs s !! f = Some fd ->
  kind fd = KField ->
  instance_name fd = Some slot ->
  heap s !! obj = Some (Inst cls attrs) ->
  class_lookup (classes s) cls slot = None ->
  Field_loads_convert fd v = Ok v1 ->
  direct_set (engine json_loads (S n)) f obj v bypass_converter s =
  Ret tt (set_heap
            (<[obj := Inst cls (<[slot := if bypass_converter then v else v1]> attrs)]>
               (heap s)) s) /\
  direct_get (engine json_loads (S n)) f obj s =
  match attrs !! slot with
  | Some w => Ret w s
  | None => Raise AttributeError s
  end.
Proof.
  intros Hf Hk Hslot Hobj Hcs Hconv. split.
  - unfold direct_set. rewrite (bind_Ret _ _ _ _ _ (deref_Some _ _ _ Hf)), Hk.
    unfold Field_direct_set. rewrite (bind_Ret _ _ _ _ _ (deref_Some _ _ _ Hf)), Hslot.
    cbn [engine r_setattr].
    destruct bypass_converter.
    + rewrite (bind_Ret _ _ _ v _ eq_refl).
      exact (py_setattr_plain _ _ _ _ _ _ Hobj Hcs _).
    + rewrite Hconv, (bind_Ret _ _ _ v1 _ eq_refl).
      exact (py_setattr_plain _ _ _ _ _ _ Hobj Hcs _).
  - unfold direct_get. rewrite (bind_Ret _ _ _ _ _ (deref_Some _ _ _ Hf)), Hk.
    unfold Field_direct_get. rewrite (bind_Ret _ _ _ _ _ (deref_Some _ _ _ Hf)), Hslot.
    cbn [engine r_getattr]. exact (py_getattr_plain _ _ _ _ _ _ Hobj Hcs).
Qed.

Lemma direct_access_bypasses_chains_witness :
  direct_set (engine no_json 1) 0 0 (VInt 1) false (store_default [add_ten] [double])
  = Ret tt (set_heap [Inst 1 {["_a" := VInt 1]}] (store_default [add_ten] [double])) /\
  direct_get (engine no_json 1) 0 0 (store_default [add_ten] [double])
  = Raise AttributeError (store_default [add_ten] [double]).
Proof.
  apply (direct_access_bypasses_chains no_json 0 (store_default [add_ten] [double]) 0
           (mkField KField (Some "a") None (VInt 5) None false false None None None
              (Some "_a") 0 1)
           0 1 ∅ "_a" (VInt 1) (VInt 1) false
           eq_refl eq_refl eq_refl eq_refl eq_refl eq_refl).
Defined.

(** ** Virtual fields: reads and writes *)

(** X6.  A [vField] keeps nothing.  A write through it runs the loads
    converter and the setters and stores no value: the store is unchanged
    (the functions of a chain are functions of values here).  A read
    returns the getters applied to the default value, also after a write,
    and stores nothing either. *)
Theorem vField_stores_nothing (R : rec) s obj cls attrs nm f fd v v1 ss gs :
  heap s !! obj = Some (Inst cls attrs) ->
  class_lookup (classes s) cls nm = Some f ->
  field_objs s !! f = Some fd ->
  kind fd = KvField ->
  Field_loads_convert fd v = Ok v1 ->
  chains s !! setters_funcs fd = Some ss ->
  chains s !! getters_funcs fd = Some gs ->
  py_setattr R obj (Some nm) v s = Ret tt s /\
  py_getattr R obj (Some nm) s = Ret (run_chain gs obj (default_value fd)) s.
Proof.
  intros Hobj Hcn Hf Hk Hconv Hss Hgs. split.
  - rewrite (py_setattr_field R s obj cls attrs nm f v Hobj Hcn).
    unfold descr_set. rewrite (bind_Ret _ _ _ _ _ (deref_Some _ _ _ Hf)), Hk.
    unfold vField_set. rewrite (bind_Ret _ _ _ _ _ (deref_Some _ _ _ Hf)), Hconv.
    rewrite (bind_Ret _ _ _ v1 _ eq_refl).
    by rewrite (bind_Ret _ _ _ _ _ (read_chain_Some _ _ _ Hss)).
  - rewrite (py_getattr_field R s obj cls attrs nm f Hobj Hcn).
    unfold descr_get. rewrite (bind_Ret _ _ _ _ _ (deref_Some _ _ _ Hf)), Hk.
    unfold vField_get. rewrite (bind_Ret _ _ _ _ _ (deref_Some _ _ _ Hf)).
    by rewrite (bind_Ret _ _ _ _ _ (read_chain_Some _ _ _ Hgs)).
Qed.

Lemma vField_stores_nothing_witness :
  py_setattr (engine no_json 1) 0 (Some "v") (VInt 9) store_virtual = Ret tt store_virtual /\
  py_getattr (engine no_json 1) 0 (Some "v") store_virtual = Ret (VInt 7) store_virtual.
Proof.
  apply (vField_stores_nothing (engine no_json 1) store_virtual 0 1 {["_a" := VInt 5]} "v" 1
           (mkField KvField (Some "v") None (VInt 7) None false false None None None
              (Some "_v") 2 3)
           (VInt 9) (VInt 9) [] [] eq_refl eq_refl eq_refl eq_refl eq_refl eq_refl eq_refl).
Defined.

(** ** Looking a field up *)

Lemma find_field_first fo fs key :
  Forall (fun f => is_Some (fo !! f)) fs ->
  match find_field fo fs key with
  | Some (Some f) =>
      exists pre post fd,
        fs = pre ++ f :: post /\ fo !! f = Some fd /\ Field_match fd key = true /\
        Forall (fun g => exists gd, fo !! g = Some gd /\ Field_match gd key = false) pre
  | Some None =>
      Forall (fun g => exists gd, fo !! g = Some gd /\ Field_match gd key = false) fs
  | None => False
  end.
Proof.
  induction fs as [|f fs IH]; intros Hall; [by constructor|].
  apply Forall_cons in Hall as [[fd Hfd] Hall]. cbn [find_field]. rewrite Hfd.
  destruct (Field_match fd key) eqn:Hm.
  - exists [], fs, fd. by repeat split.
  - specialize (IH Hall). destruct (find_field fo fs key) as [[g|]|]; [| |done].
    + destruct IH as (pre & post & gd & -> & Hg & Hgm & Hpre).
      exists (f :: pre), post, gd. repeat split; try done.
      constructor; [by exists fd|done].
    + constructor; [by exists fd|done].
Qed.

(** X7.  [get_field] returns the first resolved field that answers to the
    key, by name or by mapping name, and [None] when there is none. *)
Theorem get_field_first_match s obj cls attrs k fs key :
  heap s !! obj = Some (Inst cls attrs) ->
  classes s !! cls = Some k ->
  mro_fields (classes s) (cls :: cls_ancestors k) = Some fs ->
  Forall (fun f => is_Some (field_objs s !! f)) fs ->
  exists r,
    Typing2_get_field obj key s = Ret r s /\
    match r with
    | Some f =>
        exists pre post fd,
          fs = pre ++ f :: post /\ field_objs s !! f = Some fd /\
          Field_match fd key = true /\
          Forall (fun g => exists gd, field_objs s !! g = Some gd /\
                                      Field_match gd key = false) pre
    | None =>
        Forall (fun g => exists gd, field_objs s !! g = Some gd /\
                                    Field_match gd key = false) fs
    end.
Proof.
  intros Hobj Hk Hfs Hall.
  pose proof (find_field_first (field_objs s) fs key Hall) as H.
  destruct (find_field (field_objs s) fs key) as [r|] eqn:Hfind; [|done].
  exists r. split; [by eapply Typing2_get_field_find|]. by destruct r.
Qed.

Lemma get_field_first_match_witness :
  exists r,
    Typing2_get_field 0 "A" store_flat = Ret r store_flat /\
    match r with
    | Some f =>
        exists pre post fd,
          [0; 1] = pre ++ f :: post /\ field_objs store_flat !! f = Some fd /\
          Field_match fd "A" = true /\
          Forall (fun g => exists gd, field_objs store_flat !! g = Some gd /\
                                      Field_match gd "A" = false) pre
    | None =>
        Forall (fun g => exists gd, field_objs store_flat !! g = Some gd /\
                                    Field_match gd "A" = false) [0; 1]
    end.
Proof.
  apply (get_field_first_match store_flat 0 1 {["_a" := VInt 3]}
           (mkClass [0] [("a", 0); ("b", 1)] (Some [0; 1]) true) [0; 1] "A"
           eq_refl eq_refl eq_refl).
  repeat constructor; by eexists.
Defined.

(** ** Loading data that is no mapping *)

(** X10.  Truthy data that is no mapping is an [AttributeError] for
    [loads_from_dict], and so is a payload of [loads_from_bytes] that
    decodes to it; a payload the decoder rejects raises the decoder's error.
    The store is unchanged in each case. *)
Theorem loads_not_mapping_raises (json_loads : string -> res value) (R : rec)
    (self : nat) (data : value) (payload : string) (s : state) :
  not_mapping data = true ->
  Typing2_loads_from_dict R self data s = Raise AttributeError s /\
  (json_loads payload = Ok data ->
   Typing2_loads_from_bytes json_loads R self payload s = Raise AttributeError s) /\
  (forall e, json_loads payload = Err e ->
   Typing2_loads_from_bytes json_loads R self payload s = Raise e s).
Proof.
  intros Hdata.
  assert (H : Typing2_loads_from_dict R self data s = Raise AttributeError s).
  { unfold Typing2_loads_from_dict, Typing2_pre_loads.
    destruct data as [|b|z|x|x|[|y l]|d|r]; try done; cbn [not_mapping] in Hdata;
      cbn [truthy]; unfold bind, ret; cbn beta iota; rewrite ?Hdata; done. }
  split; [exact H|]. split.
  - intros Hdec. unfold Typing2_loads_from_bytes. rewrite Hdec.
    by rewrite (bind_Ret _ _ _ data _ eq_refl).
  - intros e Hdec. unfold Typing2_loads_from_bytes. by rewrite Hdec.
Qed.

Lemma loads_not_mapping_raises_witness :
  Typing2_loads_from_dict (engine one_json 3) 0 (VList [VInt 1]) store_virtual
    = Raise AttributeError store_virtual /\
  Typing2_loads_from_bytes one_json (engine one_json 3) 0 "[1]" store_virtual
    = Raise AttributeError store_virtual.
Proof.
  destruct (loads_not_mapping_raises one_json (engine one_json 3) 0 (VList [VInt 1]) "[1]"
              store_virtual eq_refl) as (H1 & H2 & _).
  split; [exact H1|exact (H2 eq_refl)].
Defined.

(** ** What a write can change *)

(** X14.  A [setattr] on an instance, through whatever field, setters and
    converter, changes at most the cell of that instance: classes, field
    objects and chain lists stay as they are, no object is made, and every
    other object is as before - also when the write raises.  (The functions
    of a chain and the converters are functions of values here; what a
    setter written in Python does on the side is outside this statement.) *)
Theorem setattr_changes_own_cell_only (json_loads : string -> res value) n a key v s :
  match py_setattr (engine json_loads n) a key v s with
  | Ret _ s' | Raise _ s' =>
      classes s' = classes s /\ field_objs s' = field_objs s /\ chains s' = chains s /\
      length (heap s') = length (heap s) /\
      forall b, b <> a -> heap s' !! b = heap s !! b
  | Abort _ => True
  end.
Proof.
  pose proof (setattr_own_cell json_loads n a key v s) as H.
  destruct (py_setattr _ a key v s) as [x s'|e s'|w]; [| |done].
  - destruct H as [->|[c ->]]; [done|]. unfold overwrite. proj.
    repeat split; [apply length_insert|]. intros b Hb. by apply list_lookup_insert_ne.
  - destruct H as [->|[c ->]]; [done|]. unfold overwrite. proj.
    repeat split; [apply length_insert|]. intros b Hb. by apply list_lookup_insert_ne.
Qed.

(** ** Fields without a name *)

(** X15.  A storage-backed field whose name was never set has no slot:
    reading, writing and deleting through it raise [TypeError], and the
    store is unchanged. *)
Theorem unnamed_field_access_raises (json_loads : string -> res value) n s f fd obj v v1 ss :
  field_objs s !! f = Some fd ->
  kind fd = KField ->
  instance_name fd = None ->
  Field_loads_convert fd v = Ok v1 ->
  chains s !! setters_funcs fd = Some ss ->
  descr_get (engine json_loads (S n)) f obj s = Raise TypeError s /\
  descr_set (engine json_loads (S n)) f obj v s = Raise TypeError s /\
  descr_delete (engine json_loads (S n)) f obj s = Raise TypeError s.
Proof.
  intros Hf Hk Hname Hconv Hss. repeat split.
  - unfold descr_get. rewrite (bind_Ret _ _ _ _ _ (deref_Some _ _ _ Hf)), Hk.
    unfold Field_get. rewrite (bind_Ret _ _ _ _ _ (deref_Some _ _ _ Hf)), Hname.
    reflexivity.
  - unfold descr_set. rewrite (bind_Ret _ _ _ _ _ (deref_Some _ _ _ Hf)), Hk.
    unfold Field_set. rewrite (bind_Ret _ _ _ _ _ (deref_Some _ _ _ Hf)), Hconv.
    rewrite (bind_Ret _ _ _ v1 _ eq_refl).
    rewrite (bind_Ret _ _ _ _ _ (read_chain_Some _ _ _ Hss)), Hname.
    reflexivity.
  - unfold descr_delete. rewrite (bind_Ret _ _ _ _ _ (deref_Some _ _ _ Hf)), Hk.
    unfold Field_delete. rewrite (bind_Ret _ _ _ _ _ (deref_Some _ _ _ Hf)), Hname.
    reflexivity.
Qed.

Lemma unnamed_field_access_raises_witness :
  descr_get (engine no_json 1) 0 0 store_siblings = Raise TypeError store_siblings /\
  descr_set (engine no_json 1) 0 0 (VInt 1) store_siblings = Raise TypeError store_siblings /\
  descr_delete (engine no_json 1) 0 0 store_siblings = Raise TypeError store_siblings.
Proof.
  apply (unnamed_field_access_raises no_json 0 store_siblings 0
           (mkField KField None None VNone None false false None None None None 0 1)
           0 (VInt 1) (VInt 1) [] eq_refl eq_refl eq_refl eq_refl eq_refl).
Defined.

(** ** Loading under a mapping name *)

(** X12.  An item is loaded into the field [get_field] finds for its key,
    be the key the field's name or its mapping name: on a flat field the
    converted value lands in the field's slot, and the load is the load of
    the same value under the field's name. *)
Theorem load_by_any_key (json_loads : string -> res value) n s obj c attrs k fs key f v v1 :
  heap s !! obj = Some (Inst c attrs) ->
  classes s !! c = Some k ->
  mro_fields (classes s) (c :: cls_ancestors k) = Some fs ->
  find_field (field_objs s) fs key = Some (Some f) ->
  flat_field_ok s c fs f = true ->
  default_ok s f = true ->
  is_ref (dumped_value s attrs f) = false ->
  Field_loads_convert (field_at s f) v = Ok v1 ->
  Typing2_loads_from_dict (engine json_loads (S (S (S n)))) obj (VDict [(key, v)]) s =
  Ret tt (set_heap (<[obj := Inst c (<[fslot s f := v1]> attrs)]> (heap s)) s) /\
  Typing2_loads_from_dict (engine json_loads (S (S (S n)))) obj (VDict [(key, v)]) s =
  Typing2_loads_from_dict (engine json_loads (S (S (S n)))) obj (VDict [(fname s f, v)]) s.
Proof.
  intros Hobj Hk Hfs Hkey Hflat Hdef Hval Hconv.
  rewrite !loads_from_dict_VDict. cbn [for_each]. rewrite !bind_unit.
  pose proof (load_entry_flat_key json_loads s c fs k Hk Hfs n (heap s) obj attrs key f v v1
                Hkey Hflat Hdef Hval Hconv Hobj) as H1.
  pose proof (load_entry_flat json_loads s c fs k Hk Hfs n (heap s) obj attrs f v v1
                Hflat Hdef Hval Hconv Hobj) as H2.
  rewrite set_heap_id in H1, H2. by rewrite H1, H2.
Qed.

Lemma load_by_any_key_witness :
  Typing2_loads_from_dict (engine no_json 3) 1 (VDict [("A", VBool true)]) store_flat =
  Ret tt (set_heap [Inst 1 {["_a" := VInt 3]};
                    Inst 1 (<["_a" := VInt 1]> {["_b" := VStr "y"]})] store_flat) /\
  Typing2_loads_from_dict (engine no_json 3) 1 (VDict [("A", VBool true)]) store_flat =
  Typing2_loads_from_dict (engine no_json 3) 1 (VDict [("a", VBool true)]) store_flat.
Proof.
  apply (load_by_any_key no_json 0 store_flat 1 1 {["_b" := VStr "y"]}
           (mkClass [0] [("a", 0); ("b", 1)] (Some [0; 1]) true) [0; 1] "A" 0
           (VBool true) (VInt 1)
           eq_refl eq_refl eq_refl eq_refl eq_refl eq_refl eq_refl eq_refl).
Defined.

(** ** The dump that is shown *)

Lemma fold_left_ext_elem {A B} (g1 g2 : A -> B -> A) l : forall a,
  (forall x acc, x ∈ l -> g1 acc x = g2 acc x) ->
  fold_left g1 l a = fold_left g2 l a.
Proof.
  induction l as [|x l IH]; intros a H; [done|]. cbn [fold_left].
  rewrite (H x a) by apply list_elem_of_here.
  apply IH. intros y acc Hin. apply H. by apply list_elem_of_further.
Qed.

Lemma display_value_insert_ne s attrs slot w f :
  fslot s f <> slot ->
  display_value s (<[slot := w]> attrs) f = display_value s attrs f.
Proof. intros H. unfold display_value. by rewrite dumped_value_insert_ne. Qed.

Lemma display_ok_insert_ne s attrs slot w f :
  fslot s f <> slot ->
  display_ok s (<[slot := w]> attrs) f = display_ok s attrs f.
Proof. intros H. unfold display_ok. by rewrite dumped_value_insert_ne. Qed.

Section Display.

Variable json_loads : string -> res value.
Variables (s0 : state) (c : nat) (fs : list nat).

Lemma dump_field_hidden R h obj acc f fd :
  field_objs s0 !! f = Some fd -> hidden fd = true ->
  dump_field R obj false acc f (set_heap h s0) = Ret acc (set_heap h s0).
Proof.
  intros Hfd Hh. unfold dump_field.
  rewrite (bind_Ret _ _ _ fd _ (deref_Some (set_heap h s0) _ _ Hfd)). by rewrite Hh.
Qed.

Lemma dump_field_shown n h obj attrs f acc :
  flat_field_ok s0 c fs f = true ->
  default_ok s0 f = true ->
  shown s0 f = true ->
  display_ok s0 attrs f = true ->
  h !! obj = Some (Inst c attrs) ->
  dump_field (engine json_loads (S (S (S n)))) obj false acc f (set_heap h s0) =
  Ret (dict_set (display_key s0 f) (display_value s0 attrs f) acc)
      (set_heap (<[obj := Inst c (<[fslot s0 f := dumped_value s0 attrs f]> attrs)]> h) s0).
Proof.
  intros Hflat Hdef Hshown Hok Hobj.
  destruct (flat_field_ok_spec _ _ _ _ Hflat)
    as (fd & Hfd & Hat & Hk & Hnm & Hsl & Hl & Hi & Hcn & Hcs & Hfind & Hss & Hgs).
  unfold shown in Hshown. unfold display_ok in Hok. unfold display_key, display_value.
  rewrite Hat in *. apply negb_true_iff in Hshown.
  unfold dump_field.
  rewrite (bind_Ret _ _ _ fd _ (deref_Some (set_heap h s0) _ _ Hfd)).
  rewrite Hshown. cbn [negb andb]. rewrite Hnm, (engine_S json_loads (S (S n))). proj.
  rewrite (bind_Ret _ _ _ _ _
             (try_AttributeError_Ret _ ret (ret VNone) _ _ _
                (read_flat json_loads s0 c fs n h obj attrs f Hflat Hdef Hobj))).
  erewrite (bind_Ret _ _ _ fd _ (deref_Some (set_heap _ s0) _ _ Hfd)).
  destruct (Field_dumps_convert fd (dumped_value s0 attrs f)) as [v'|] eqn:Hconv; [|done].
  rewrite (bind_Ret _ _ _ v' _ eq_refl).
  rewrite Hl. unfold Typing2_dump, dump_one.
  assert (Hkey : exists key, Field_get_name fd false = Some key).
  { unfold Field_get_name. cbn [negb andb].
    destruct (mapping_name fd) as [mp|]; [by exists mp|]. rewrite Hnm. by eexists. }
  destruct Hkey as [key Hkey]. rewrite Hkey. cbn [default from_option]. unfold id.
  revert Hok. destruct v'; intros Hok; try done; cbn [is_typing];
    unfold bind, ret; by rewrite Hkey.
Qed.

Lemma display_loop n obj fs' : forall acc attrs h,
  Forall (fun f => flat_field_ok s0 c fs f = true) fs' ->
  Forall (fun f => default_ok s0 f = true) fs' ->
  Forall (fun f => shown s0 f = true -> display_ok s0 attrs f = true) fs' ->
  NoDup (fslot s0 <$> fs') ->
  h !! obj = Some (Inst c attrs) ->
  fold_m (dump_field (engine json_loads (S (S (S n)))) obj false) acc fs' (set_heap h s0) =
  Ret (fold_left (fun acc f => dict_set (display_key s0 f) (display_value s0 attrs f) acc)
         (List.filter (shown s0) fs') acc)
      (set_heap (<[obj := Inst c (materialize s0 (List.filter (shown s0) fs') attrs)]> h) s0).
Proof.
  induction fs' as [|f fs' IH]; intros acc attrs h Hflat Hdef Hok Hsl Hobj.
  - cbn. unfold ret. by rewrite list_insert_id.
  - apply Forall_cons in Hflat as [Hf Hflat]. apply Forall_cons in Hdef as [Hd Hdef].
    apply Forall_cons in Hok as [Ho Hok].
    rewrite fmap_cons in Hsl. apply NoDup_cons in Hsl as [Hsf Hsl].
    cbn [fold_m List.filter].
    destruct (shown s0 f) eqn:Hshown.
    + rewrite (bind_Ret _ _ _ _ _ (dump_field_shown n h obj attrs f acc Hf Hd Hshown
                                     (Ho eq_refl) Hobj)).
      assert (Hne : forall f', f' ∈ fs' -> fslot s0 f' <> fslot s0 f).
      { intros f' Hin Heq. apply Hsf. rewrite <- Heq. by apply list_elem_of_fmap_2. }
      rewrite IH with (attrs := <[fslot s0 f := dumped_value s0 attrs f]> attrs); try done.
      * cbn [fold_left materialize]. rewrite list_insert_insert_eq. f_equal.
        apply fold_left_ext_elem. intros f' a Hin. f_equal.
        apply display_value_insert_ne, Hne.
        apply list_elem_of_In. apply list_elem_of_In in Hin.
        by apply filter_In in Hin as [Hin _].
      * apply Forall_forall. intros f' Hin Hs'. rewrite display_ok_insert_ne by auto.
        rewrite Forall_forall in Hok. by apply Hok.
      * apply list_lookup_insert_eq. by eapply lookup_lt_Some.
    + destruct (flat_field_ok_spec _ _ _ _ Hf) as (fd & Hfd & Hat & _).
      unfold shown in Hshown. rewrite Hat in Hshown. apply negb_false_iff in Hshown.
      rewrite (bind_Ret _ _ _ _ _ (dump_field_hidden _ h obj acc f fd Hfd Hshown)).
      by apply IH.
Qed.

End Display.

(** X13.  [dumps()] of an instance of a flat model: hidden fields are left
    out and not even read; every other field is read (which stores its
    default when nothing is stored), passed through its dumps converter and
    put under its mapping name if it has one, else under its name. *)
Theorem dumps_shows_flat (json_loads : string -> res value) n s obj c attrs k fs :
  heap s !! obj = Some (Inst c attrs) ->
  classes s !! c = Some k ->
  mro_fields (classes s) (c :: cls_ancestors k) = Some fs ->
  flat_model s c fs = true ->
  forallb (display_ok s attrs) (List.filter (shown s) fs) = true ->
  Typing2_dumps (engine json_loads (S (S (S n)))) obj false s =
  Ret (VDict (display_dump s attrs fs))
      (set_heap (<[obj := Inst c (materialize s (List.filter (shown s) fs) attrs)]> (heap s))
         s).
Proof.
  intros Hobj Hk Hfs Hflat Hok.
  destruct (flat_model_spec _ _ _ Hflat) as (Hf & Hd & Hsl & Hnm).
  unfold Typing2_dumps, Typing2_pre_dumps.
  rewrite (bind_Ret _ _ _ tt _ eq_refl).
  rewrite (bind_Ret _ _ _ _ _ (Typing2_get_fields_Some s obj c attrs k fs Hobj Hk Hfs)).
  pose proof (display_loop json_loads s c fs n obj fs [] attrs (heap s) Hf Hd) as H.
  rewrite set_heap_id in H.
  assert (Hok' : Forall (fun f => shown s f = true -> display_ok s attrs f = true) fs).
  { apply Forall_forall. intros f Hin Hs. rewrite forallb_forall in Hok.
    apply Hok, filter_In. split; [by apply list_elem_of_In|done]. }
  by rewrite (bind_Ret _ _ _ _ _ (H Hok' Hsl Hobj)).
Qed.

Lemma dumps_shows_flat_witness :
  Typing2_dumps (engine no_json 3) 1 false store_flat_shown
  = Ret (VDict [("A", VStr "nonzero")])
      (set_heap [Inst 1 {["_a" := VInt 3]};
                 Inst 1 (<["_a" := VInt 5]> {["_b" := VStr "y"]})] store_flat_shown).
Proof.
  etrans;
    [apply (dumps_shows_flat no_json 0 store_flat_shown 1 1 {["_b" := VStr "y"]}
              (mkClass [0] [("a", 0); ("b", 1)] (Some [0; 1]) true) [0; 1]
              eq_refl eq_refl eq_refl eq_refl eq_refl)
    | by_compute].
Defined.

(** ** Fields that hold a model *)

(** X11.  The first read of a model-typed field builds the child with the
    owner as parent and keeps it; the next read returns the same object. *)
Theorem nested_model_read_stable (json_loads : string -> res value) n s obj cls attrs nm f
    fd slot c' k' :
  heap s !! obj = Some (Inst cls attrs) ->
  class_lookup (classes s) cls nm = Some f ->
  field_objs s !! f = Some fd ->
  kind fd = KField ->
  instance_name fd = Some slot ->
  class_lookup (classes s) cls slot = None ->
  attrs !! slot = None ->
  instanciator fd = Some (FTyping c') ->
  loads_converter fd = None ->
  chains s !! setters_funcs fd = Some [] ->
  chains s !! getters_funcs fd = Some [] ->
  classes s !! c' = Some k' ->
  cls_init_done k' = true ->
  class_lookup (classes s) c' "parent" = None ->
  exists s1,
    py_getattr (engine json_loads (S (S n))) obj (Some nm) s
      = Ret (VRef (length (heap s))) s1 /\
    heap s1 !! length (heap s) = Some (Inst c' {["parent" := VRef obj]}) /\
    py_getattr (engine json_loads (S (S n))) obj (Some nm) s1
      = Ret (VRef (length (heap s))) s1.
Proof.
  intros Hobj Hcn Hf Hk Hslot Hcs Hnone Hinst Hconv Hss Hgs Hk' Hdone Hparent.
  pose proof (lookup_lt_Some _ _ _ Hobj) as Hlt.
  set (r := length (heap s)).
  set (sa := set_heap (<[obj := Inst cls (<[slot := VNone]> attrs)]> (heap s)) s).
  assert (Hlen : length (heap sa) = r) by (subst sa; proj; apply length_insert).
  set (sb := set_heap (heap sa ++ [Inst c' {["parent" := VRef obj]}]) sa).
  assert (Hmake : Field_get_instance (engine json_loads (S (S n))) f obj sa
                  = Ret (VRef r) sb).
  { unfold Field_get_instance.
    rewrite (bind_Ret _ _ _ fd _ (deref_Some sa _ _ Hf)), Hinst.
    rewrite (engine_S json_loads (S n)). proj.
    rewrite (Typing2_new_resolved json_loads n c' (VRef obj) sa k' Hk' Hdone Hparent).
    by rewrite Hlen. }
  assert (Hobjb : heap sb !! obj = Some (Inst cls (<[slot := VNone]> attrs))).
  { subst sb sa. proj. rewrite lookup_app_l by (rewrite length_insert; lia).
    by apply list_lookup_insert_eq. }
  assert (Hcv : Field_loads_convert fd (VRef r) = Ok (VRef r)).
  { unfold Field_loads_convert. by rewrite Hconv. }
  set (s1 := set_heap (<[obj := Inst cls (<[slot := VRef r]> (<[slot := VNone]> attrs))]>
                         (heap sb)) sb).
  assert (Hobj1 : heap s1 !! obj
                  = Some (Inst cls (<[slot := VRef r]> (<[slot := VNone]> attrs)))).
  { subst s1. proj. apply list_lookup_insert_eq. by eapply lookup_lt_Some. }
  exists s1. repeat split.
  - rewrite (py_getattr_field _ s obj cls attrs nm f Hobj Hcn).
    rewrite (descr_get_Field _ s f fd obj Hf Hk).
    by rewrite (Field_get_first_read json_loads f obj cls n s fd slot attrs (VRef r) sb
                  fd slot (<[slot := VNone]> attrs) (VRef r) [] []
                  Hf Hslot Hobj Hcs Hnone Hmake Hf Hk Hslot Hobjb Hcs Hcv Hss Hgs).
  - subst s1 sb. proj. rewrite list_lookup_insert_ne by lia.
    by rewrite lookup_app_r, Hlen, Nat.sub_diag by lia.
  - rewrite (py_getattr_field _ s1 obj cls _ nm f Hobj1 Hcn).
    rewrite (descr_get_Field _ s1 f fd obj Hf Hk).
    rewrite (Field_get_stored json_loads f obj cls (S n) s1 fd slot _ (VRef r) []
               Hf Hslot Hobj1 Hcs (lookup_insert_eq _ _ _) Hgs).
    done.
Qed.

Lemma nested_model_read_stable_witness :
  exists s1,
    py_getattr (engine no_json 2) 0 (Some "child") store_nested = Ret (VRef 1) s1 /\
    heap s1 !! 1 = Some (Inst 2 {["parent" := VRef 0]}) /\
    py_getattr (engine no_json 2) 0 (Some "child") s1 = Ret (VRef 1) s1.
Proof.
  apply (nested_model_read_stable no_json 0 store_nested 0 1 ∅ "child" 0
           (mkField KField (Some "child") (Some (FTyping 2)) VNone None false false None
              None None (Some "_child") 0 1)
           "_child" 2 (mkClass [0] [("a", 1)] (Some [1]) true)
           eq_refl eq_refl eq_refl eq_refl eq_refl eq_refl eq_refl eq_refl eq_refl eq_refl
           eq_refl eq_refl eq_refl eq_refl).
Defined.

(** ** Resolution of a class's own fields *)

Lemma Field_set_name_at s f fd nm :
  field_objs s !! f = Some fd ->
  Field_set_name f (Some nm) s =
  Ret tt (set_field_objs (<[f := rename nm fd]> (field_objs s)) s).
Proof.
  intros Hf. unfold Field_set_name, rename.
  assert (H1 : update_field f (with_name (Some nm)) s
               = Ret tt (set_field_objs (<[f := with_name (Some nm) fd]> (field_objs s)) s)).
  { unfold update_field. by rewrite (bind_Ret _ _ _ _ _ (deref_Some _ _ _ Hf)). }
  rewrite (bind_Ret _ _ _ _ _ H1).
  set (s1 := set_field_objs _ s).
  assert (Hf1 : field_objs s1 !! f = Some (with_name (Some nm) fd)).
  { subst s1. unfold set_field_objs; proj. apply list_lookup_insert_eq.
    by eapply lookup_lt_Some. }
  assert (H2 : forall x, update_field f (with_instance_name x) s1
               = Ret tt (set_field_objs
                           (<[f := with_instance_name x (with_name (Some nm) fd)]>
                              (field_objs s)) s)).
  { intros x. unfold update_field. rewrite (bind_Ret _ _ _ _ _ (deref_Some _ _ _ Hf1)).
    unfold modify. subst s1. unfold set_field_objs; proj.
    by rewrite list_insert_insert_eq. }
  cbn [slot_of]. destruct (name_truthy (Some nm)); apply H2.
Qed.

Lemma length_named_fields d : forall fo, length (named_fields fo d) = length fo.
Proof.
  induction d as [|e d IH]; intros fo; [done|].
  cbn [named_fields fold_left].
  fold (named_fields (<[snd e := rename (fst e) (default blank_field (fo !! snd e))]> fo) d).
  by rewrite IH, length_insert.
Qed.

Lemma named_fields_notin d : forall fo f,
  f ∉ snd <$> d -> named_fields fo d !! f = fo !! f.
Proof.
  induction d as [|[nm1 f1] d IH]; intros fo f Hnot; [done|].
  rewrite fmap_cons in Hnot. apply not_elem_of_cons in Hnot as [Hne Hnot].
  cbn [snd] in Hne. cbn [named_fields fold_left fst snd].
  fold (named_fields (<[f1 := rename nm1 (default blank_field (fo !! f1))]> fo) d).
  rewrite IH by done. by rewrite list_lookup_insert_ne.
Qed.

Lemma named_fields_lookup d : forall fo nm f fd,
  NoDup (snd <$> d) -> (nm, f) ∈ d -> fo !! f = Some fd ->
  named_fields fo d !! f = Some (rename nm fd).
Proof.
  induction d as [|[nm0 f0] d IH]; intros fo nm f fd Hnd Hin Hf;
    [by apply elem_of_nil in Hin|].
  rewrite fmap_cons in Hnd. apply NoDup_cons in Hnd as [Hnot Hnd]. cbn [snd] in Hnot.
  cbn [named_fields fold_left fst snd].
  fold (named_fields (<[f0 := rename nm0 (default blank_field (fo !! f0))]> fo) d).
  apply elem_of_cons in Hin as [Heq|Hin].
  - injection Heq as -> ->. rewrite named_fields_notin by done.
    rewrite Hf. cbn [default from_option]. unfold id.
    apply list_lookup_insert_eq. by eapply lookup_lt_Some.
  - apply IH; [done|done|].
    rewrite list_lookup_insert_ne; [done|].
    intros ->. apply Hnot. by apply (list_elem_of_fmap_2 snd _ (nm, f)).
Qed.

Section OwnFields.

Variables (obj top : nat) (anc : list nat) (d0 : list (string * nat)).
Variables (cs : list Class) (ch : list (list func)) (h : list cell).
Hypothesis Htop : top < length cs.

Lemma own_fields_loop d : forall fo l,
  Forall (fun e => snd e < length fo) d ->
  for_each d (resolve_entry obj top top)
    (mkState (<[top := mkClass anc d0 (Some l) false]> cs) fo ch h) =
  Ret tt (mkState (<[top := mkClass anc d0 (Some (l ++ map snd d)) false]> cs)
            (named_fields fo d) ch h).
Proof.
  induction d as [|[nm f] d IH]; intros fo l Hb.
  - cbn. unfold ret. by rewrite app_nil_r.
  - apply Forall_cons in Hb as [Hf Hb]. cbn [snd] in Hf.
    destruct (lookup_lt_is_Some_2 fo f Hf) as [fd Hfd].
    cbn [for_each].
    assert (Hstep : resolve_entry obj top top (nm, f)
                      (mkState (<[top := mkClass anc d0 (Some l) false]> cs) fo ch h)
                    = Ret tt (mkState (<[top := mkClass anc d0 (Some (l ++ [f])) false]> cs)
                                (<[f := rename nm fd]> fo) ch h)).
    { cbn [resolve_entry]. rewrite decide_True by done.
      set (s1 := mkState _ fo ch h).
      rewrite (bind_Ret _ _ _ _ _ (Field_set_name_at s1 f fd nm Hfd)).
      subst s1. unfold set_field_objs; proj.
      set (s2 := mkState _ _ ch h).
      assert (Hk : classes s2 !! top = Some (mkClass anc d0 (Some l) false)).
      { subst s2. proj. by apply list_lookup_insert_eq. }
      rewrite (append_field_Some s2 top _ l f Hk eq_refl).
      subst s2. unfold set_classes, with_cls_fields; proj.
      cbn [cls_ancestors cls_dict cls_init_done].
      by rewrite list_insert_insert_eq. }
    rewrite (bind_Ret _ _ _ _ _ Hstep).
    rewrite IH.
    + cbn [named_fields fold_left map fst snd]. rewrite Hfd. cbn [default from_option].
      unfold id. by rewrite <- app_assoc.
    + eapply Forall_impl; [exact Hb|]. intros e He. cbn beta in *.
      by rewrite length_insert.
Qed.

Lemma bare_ancestors_loop ancs k fo :
  Forall (fun c => c <> top /\ exists kc, cs !! c = Some kc /\ cls_dict kc = []) ancs ->
  for_each ancs (fun cls =>
     let* kc := get_class cls in
     for_each (cls_dict kc) (resolve_entry obj top cls))
    (mkState (<[top := k]> cs) fo ch h) =
  Ret tt (mkState (<[top := k]> cs) fo ch h).
Proof.
  induction ancs as [|c ancs IH]; intros Hb; [done|].
  apply Forall_cons in Hb as [(Hne & kc & Hkc & Hd) Hb].
  cbn [for_each].
  assert (Hget : get_class c (mkState (<[top := k]> cs) fo ch h)
                 = Ret kc (mkState (<[top := k]> cs) fo ch h)).
  { apply get_class_Some. proj. by rewrite list_lookup_insert_ne. }
  assert (Hbody : (let* kc := get_class c in
                   for_each (cls_dict kc) (resolve_entry obj top c))
                    (mkState (<[top := k]> cs) fo ch h)
                  = Ret tt (mkState (<[top := k]> cs) fo ch h)).
  { rewrite (bind_Ret _ _ _ _ _ Hget). by rewrite Hd. }
  rewrite (bind_Ret _ _ _ _ _ Hbody). by apply IH.
Qed.

End OwnFields.

Lemma Typing2_one_time_init_own s obj top attrs anc d fields :
  heap s !! obj = Some (Inst top attrs) ->
  classes s !! top = Some (mkClass anc d fields false) ->
  ancestors_bare s top anc = true ->
  entries_bound s d = true ->
  Typing2_one_time_init obj s =
  Ret tt (mkState (<[top := mkClass anc d (Some (map snd d)) true]> (classes s))
            (named_fields (field_objs s) d) (chains s) (heap s)).
Proof.
  intros Hobj Hk Hanc Hbound.
  - pose proof (lookup_lt_Some _ _ _ Hk) as Htop.
    unfold Typing2_one_time_init.
    rewrite (bind_Ret _ _ _ _ _ (type_of_Inst _ _ _ _ Hobj)).
    rewrite (bind_Ret _ _ _ _ _ (get_class_Some _ _ _ Hk)).
    cbn [cls_init_done cls_ancestors].
    rewrite (bind_Ret _ _ _ _ _ (update_class_Some _ _ _ _ Hk)).
    destruct s as [cs fo ch h]. unfold set_classes, with_cls_fields in *; proj.
    cbn [cls_ancestors cls_dict cls_init_done] in *.
    assert (Hloop : for_each (top :: anc) (fun cls =>
                      let* kc := get_class cls in
                      for_each (cls_dict kc) (resolve_entry obj top cls))
                      (mkState (<[top := mkClass anc d (Some []) false]> cs) fo ch h)
                    = Ret tt (mkState (<[top := mkClass anc d (Some (map snd d)) false]> cs)
                                (named_fields fo d) ch h)).
    { cbn [for_each].
      assert (Hown : (let* kc := get_class top in
                      for_each (cls_dict kc) (resolve_entry obj top top))
                       (mkState (<[top := mkClass anc d (Some []) false]> cs) fo ch h)
                     = Ret tt (mkState
                                 (<[top := mkClass anc d (Some (map snd d)) false]> cs)
                                 (named_fields fo d) ch h)).
      { assert (Hget : get_class top
                           (mkState (<[top := mkClass anc d (Some []) false]> cs) fo ch h)
                         = Ret (mkClass anc d (Some []) false)
                             (mkState (<[top := mkClass anc d (Some []) false]> cs) fo ch h)).
        { apply get_class_Some. proj. by apply list_lookup_insert_eq. }
        rewrite (bind_Ret _ _ _ _ _ Hget). cbn [cls_dict].
        rewrite (own_fields_loop obj top anc d cs ch h Htop d fo []); [done|].
        apply Forall_forall. intros e Hin. unfold entries_bound in Hbound.
        rewrite forallb_forall in Hbound.
        specialize (Hbound e (proj1 (list_elem_of_In _ _) Hin)).
        by apply bool_decide_eq_true in Hbound. }
      rewrite (bind_Ret _ _ _ _ _ Hown).
      apply bare_ancestors_loop.
      apply Forall_forall. intros c0 Hin. unfold ancestors_bare in Hanc.
      rewrite forallb_forall in Hanc.
      specialize (Hanc c0 (proj1 (list_elem_of_In _ _) Hin)).
      apply andb_true_iff in Hanc as [Hne Hd]. apply bool_decide_eq_true in Hne.
      split; [done|]. cbn [classes] in Hd.
      destruct (cs !! c0) as [kc|] eqn:Hc0; [|done]. exists kc. split; [done|].
      by destruct (cls_dict kc). }
    rewrite (bind_Ret _ _ _ _ _ Hloop).
    unfold Typing2_transform_fields. rewrite (bind_Ret _ _ _ tt _ eq_refl).
    rewrite (update_class_Some _ top (mkClass anc d (Some (map snd d)) false));
      [|proj; by apply list_lookup_insert_eq].
    unfold set_classes, with_cls_init_done; proj.
    cbn [cls_ancestors cls_dict cls_fields]. by rewrite list_insert_insert_eq.
Qed.

(** X17.  The first construction of an instance of a class that declares
    fields, under ancestors that declare none, resolves the class: every
    declared field is named after the attribute it is bound to and gets the
    slot of that name, and the resolved fields are the declared ones in
    their order. *)
Theorem own_fields_resolved s obj top attrs anc d fields :
  heap s !! obj = Some (Inst top attrs) ->
  classes s !! top = Some (mkClass anc d fields false) ->
  ancestors_bare s top anc = true ->
  entries_bound s d = true ->
  Typing2_one_time_init obj s =
  Ret tt (mkState (<[top := mkClass anc d (Some (map snd d)) true]> (classes s))
            (named_fields (field_objs s) d) (chains s) (heap s)) /\
  (NoDup (snd <$> d) ->
   forall nm f fd, (nm, f) ∈ d -> field_objs s !! f = Some fd ->
     named_fields (field_objs s) d !! f = Some (rename nm fd)).
Proof.
  intros Hobj Hk Hanc Hbound. split.
  - by eapply Typing2_one_time_init_own.
  - intros Hnd nm f fd Hin Hf. by apply named_fields_lookup.
Qed.

Lemma own_fields_resolved_witness :
  Typing2_one_time_init 0 store_declared =
  Ret tt (mkState
            [mkClass [] [] None false;
             mkClass [0] [("a", 0); ("b", 1)] (Some [0; 1]) true]
            [mkField KField (Some "a") None VNone None false false None None None
               (Some "_a") 0 1;
             mkField KField (Some "b") None (VInt 1) None false false None None None
               (Some "_b") 2 3]
            [[]; []; []; []]
            [Inst 1 ∅]) /\
  named_fields (field_objs store_declared) [("a", 0); ("b", 1)] !! 1 =
  Some (rename "b"
          (mkField KField None None (VInt 1) None false false None None None None 2 3)).
Proof.
  destruct (own_fields_resolved store_declared 0 1 ∅ [0] [("a", 0); ("b", 1)] None
              eq_refl eq_refl eq_refl eq_refl) as [H1 H2].
  split.
  - etrans; [exact H1|by_compute].
  - apply H2; [|apply list_elem_of_further, list_elem_of_here|reflexivity].
    apply (bool_decide_unpack _). by_compute.
Defined.

(** X16.  Resolution happens once: the class is marked, and running
    [__one_time_init] again leaves everything as it is. *)
Theorem one_time_init_once s obj top attrs anc d fields :
  heap s !! obj = Some (Inst top attrs) ->
  classes s !! top = Some (mkClass anc d fields false) ->
  ancestors_bare s top anc = true ->
  entries_bound s d = true ->
  (Typing2_one_time_init obj ;;; Typing2_one_time_init obj) s = Typing2_one_time_init obj s.
Proof.
  intros Hobj Hk Hanc Hbound.
  rewrite (Typing2_one_time_init_own s obj top attrs anc d fields Hobj Hk Hanc Hbound).
  rewrite (bind_Ret _ _ _ _ _
             (Typing2_one_time_init_own s obj top attrs anc d fields Hobj Hk Hanc Hbound)).
  apply (Typing2_one_time_init_done _ obj top attrs (mkClass anc d (Some (map snd d)) true));
    [exact Hobj| |reflexivity].
  proj. apply list_lookup_insert_eq. by eapply lookup_lt_Some.
Qed.

Lemma one_time_init_once_witness :
  (Typing2_one_time_init 0 ;;; Typing2_one_time_init 0) store_declared
  = Typing2_one_time_init 0 store_declared.
Proof.
  apply (one_time_init_once store_declared 0 1 ∅ [0] [("a", 0); ("b", 1)] None
           eq_refl eq_refl eq_refl eq_refl).
Defined.

(** ** Copies and new fields *)

(** X8.  [copy] makes a new field with the configuration of the original
    on two new chain lists, and leaves every field and list that existed as
    it was; a function registered on the copy afterwards reaches the copy
    alone. *)
Theorem copy_is_independent s f self ss gs (fn : func) :
  field_objs s !! f = Some self ->
  chains s !! setters_funcs self = Some ss ->
  chains s !! getters_funcs self = Some gs ->
  exists s',
    (let* c := Field_copy f in
     Field_setters c (Some fn) false ;;;
     Field_getters c (Some fn) false ;;;
     ret c) s = Ret (length (field_objs s)) s' /\
    field_objs s' = field_objs s ++ [copy_of self (length (chains s)) (S (length (chains s)))] /\
    chains s' = chains s ++ [ss ++ [fn]; fn :: rev gs] /\
    classes s' = classes s /\ heap s' = heap s.
Proof.
  intros Hf Hss Hgs.
  rewrite (bind_Ret _ _ _ _ _ (Field_copy_spec s f self ss gs Hf Hss Hgs)).
  set (s1 := mkState _ _ _ _).
  assert (Hc : field_objs s1 !! length (field_objs s)
               = Some (copy_of self (length (chains s)) (S (length (chains s))))).
  { subst s1. proj. by rewrite lookup_app_r, Nat.sub_diag by lia. }
  assert (Hcs : chains s1 !! length (chains s) = Some ss).
  { subst s1. proj. by rewrite lookup_app_r, Nat.sub_diag by lia. }
  rewrite (bind_Ret _ _ _ _ _ (Field_setters_add s1 _ _ ss fn Hc Hcs)).
  set (s2 := set_chains _ s1).
  assert (Hc2 : field_objs s2 !! length (field_objs s)
                = Some (copy_of self (length (chains s)) (S (length (chains s))))) by exact Hc.
  assert (Hcg : chains s2 !! S (length (chains s)) = Some (rev gs)).
  { subst s2 s1. unfold set_chains; proj. cbn [setters_funcs copy_of].
    rewrite list_lookup_insert_ne by lia. rewrite lookup_app_r by lia.
    by replace (S (length (chains s)) - length (chains s)) with 1 by lia. }
  rewrite (bind_Ret _ _ _ _ _ (Field_getters_add s2 _ _ (rev gs) fn Hc2 Hcg)).
  eexists. split; [reflexivity|].
  subst s2 s1. unfold set_chains; proj. cbn [setters_funcs getters_funcs copy_of].
  repeat split.
  rewrite insert_app_r_alt, Nat.sub_diag by lia. cbn [insert list_insert].
  rewrite insert_app_r_alt by lia.
  by replace (S (length (chains s)) - length (chains s)) with 1 by lia.
Qed.

Lemma copy_is_independent_witness :
  exists s',
    (let* c := Field_copy 0 in
     Field_setters c (Some double) false ;;;
     Field_getters c (Some double) false ;;;
     ret c) (store_default [add_ten] [add_ten; double]) = Ret 1 s' /\
    field_objs s' = field_objs (store_default [add_ten] [add_ten; double]) ++
                    [copy_of (mkField KField (Some "a") None (VInt 5) None false false None
                                None None (Some "_a") 0 1) 2 3] /\
    chains s' = [[add_ten]; [add_ten; double]] ++
                [[add_ten] ++ [double]; double :: rev [add_ten; double]] /\
    classes s' = classes (store_default [add_ten] [add_ten; double]) /\
    heap s' = heap (store_default [add_ten] [add_ten; double]).
Proof.
  apply (copy_is_independent (store_default [add_ten] [add_ten; double]) 0
           (mkField KField (Some "a") None (VInt 5) None false false None None None
              (Some "_a") 0 1)
           [add_ten] [add_ten; double] double eq_refl eq_refl eq_refl).
Defined.

(** X9.  Every field constructed gets two new, empty chain lists of its
    own: fields made one after the other share none, and the lists that
    existed stay as they were. *)
Theorem fields_have_own_chains k1 nm1 inst1 dflt1 k2 nm2 inst2 dflt2 s :
  (let* f1 := Field_init k1 nm1 inst1 dflt1 in
   let* f2 := Field_init k2 nm2 inst2 dflt2 in
   ret (f1, f2)) s =
  Ret (length (field_objs s), S (length (field_objs s)))
      (mkState (classes s)
         (field_objs s ++
            [mkField k1 nm1 inst1 dflt1 None false false None None None (slot_of nm1)
               (length (chains s)) (S (length (chains s)));
             mkField k2 nm2 inst2 dflt2 None false false None None None (slot_of nm2)
               (S (S (length (chains s)))) (S (S (S (length (chains s)))))])
         (chains s ++ [[]; []; []; []]) (heap s)).
Proof.
  rewrite (bind_Ret _ _ _ _ _ (Field_init_spec k1 nm1 inst1 dflt1 s)).
  rewrite (bind_Ret _ _ _ _ _ (Field_init_spec k2 nm2 inst2 dflt2 _)).
  unfold ret. proj. rewrite !length_app. cbn [length].
  rewrite <- !app_assoc. cbn [app].
  by replace (length (field_objs s) + 1) with (S (length (field_objs s))) by lia;
     replace (length (chains s) + 2) with (S (S (length (chains s)))) by lia.
Qed.

(** ** List-typed fields: the first read *)

Lemma first_read_list (json_loads : string -> res value) n s obj cls attrs nm f fd slot :
  heap s !! obj = Some (Inst cls attrs) ->
  class_lookup (classes s) cls nm = Some f ->
  field_objs s !! f = Some fd ->
  kind fd = KField ->
  instance_name fd = Some slot ->
  class_lookup (classes s) cls slot = None ->
  attrs !! slot = None ->
  instanciator fd = Some FList ->
  loads_converter fd = None ->
  chains s !! setters_funcs fd = Some [] ->
  chains s !! getters_funcs fd = Some [] ->
  py_getattr (engine json_loads (S (S n))) obj (Some nm) s =
  Ret (VRef (length (heap s)))
      (set_heap (<[obj := Inst cls (<[slot := VRef (length (heap s))]> attrs)]> (heap s)
                 ++ [LObj []]) s).
Proof.
  intros Hobj Hcn Hf Hk Hslot Hcs Hnone Hinst Hconv Hss Hgs.
  pose proof (lookup_lt_Some _ _ _ Hobj) as Hlt.
  set (r := length (heap s)).
  set (sa := set_heap (<[obj := Inst cls (<[slot := VNone]> attrs)]> (heap s)) s).
  assert (Hlen : length (heap sa) = r) by (subst sa; proj; apply length_insert).
  set (sb := set_heap (heap sa ++ [LObj []]) sa).
  assert (Hmake : Field_get_instance (engine json_loads (S (S n))) f obj sa
                  = Ret (VRef r) sb).
  { unfold Field_get_instance.
    rewrite (bind_Ret _ _ _ fd _ (deref_Some sa _ _ Hf)), Hinst.
    unfold new_list. rewrite (bind_Ret _ _ _ [] _ eq_refl).
    unfold alloc_cell, bind, ret. by rewrite Hlen. }
  assert (Hobjb : heap sb !! obj = Some (Inst cls (<[slot := VNone]> attrs))).
  { subst sb sa. proj. rewrite lookup_app_l by (rewrite length_insert; lia).
    by apply list_lookup_insert_eq. }
  assert (Hcv : Field_loads_convert fd (VRef r) = Ok (VRef r)).
  { unfold Field_loads_convert. by rewrite Hconv. }
  rewrite (py_getattr_field _ s obj cls attrs nm f Hobj Hcn).
  rewrite (descr_get_Field _ s f fd obj Hf Hk).
  rewrite (Field_get_first_read json_loads f obj cls n s fd slot attrs (VRef r) sb
             fd slot (<[slot := VNone]> attrs) (VRef r) [] []
             Hf Hslot Hobj Hcs Hnone Hmake Hf Hk Hslot Hobjb Hcs Hcv Hss Hgs).
  cbn [run_chain fold_left]. f_equal. subst sb sa. proj.
  rewrite insert_app_l by (rewrite length_insert; lia).
  by rewrite list_insert_insert_eq, insert_insert_eq.
Qed.

(** X18.  Instances do not share the list of a list-typed field: the first
    read on each instance makes a new empty list for that instance. *)
Theorem list_field_per_instance (json_loads : string -> res value) n s a b cls attrs_a
    attrs_b nm f fd slot :
  a <> b ->
  heap s !! a = Some (Inst cls attrs_a) ->
  heap s !! b = Some (Inst cls attrs_b) ->
  class_lookup (classes s) cls nm = Some f ->
  field_objs s !! f = Some fd ->
  kind fd = KField ->
  instance_name fd = Some slot ->
  class_lookup (classes s) cls slot = None ->
  attrs_a !! slot = None ->
  attrs_b !! slot = None ->
  instanciator fd = Some FList ->
  loads_converter fd = None ->
  chains s !! setters_funcs fd = Some [] ->
  chains s !! getters_funcs fd = Some [] ->
  exists s1 s2,
    py_getattr (engine json_loads (S (S n))) a (Some nm) s
      = Ret (VRef (length (heap s))) s1 /\
    py_getattr (engine json_loads (S (S n))) b (Some nm) s1
      = Ret (VRef (S (length (heap s)))) s2 /\
    heap s2 !! length (heap s) = Some (LObj []) /\
    heap s2 !! S (length (heap s)) = Some (LObj []).
Proof.
  intros Hab Ha Hb Hcn Hf Hk Hslot Hcs Hna Hnb Hinst Hconv Hss Hgs.
  pose proof (lookup_lt_Some _ _ _ Ha) as Hlta.
  pose proof (lookup_lt_Some _ _ _ Hb) as Hltb.
  set (r := length (heap s)).
  set (h1 := <[a := Inst cls (<[slot := VRef r]> attrs_a)]> (heap s) ++ [LObj []]).
  assert (Hlen1 : length h1 = S r).
  { subst h1. rewrite length_app, length_insert. cbn. lia. }
  assert (Hb1 : heap (set_heap h1 s) !! b = Some (Inst cls attrs_b)).
  { subst h1. proj. rewrite lookup_app_l by (rewrite length_insert; lia).
    by rewrite list_lookup_insert_ne. }
  eexists _, _. split; [|split; [|split]].
  - by apply (first_read_list json_loads n s a cls attrs_a nm f fd slot).
  - fold r. fold h1.
    rewrite (first_read_list json_loads n (set_heap h1 s) b cls attrs_b nm f fd slot
               Hb1 Hcn Hf Hk Hslot Hcs Hnb Hinst Hconv Hss Hgs).
    proj. by rewrite Hlen1.
  - proj. rewrite lookup_app_l by (rewrite length_insert, Hlen1; lia).
    rewrite list_lookup_insert_ne by lia.
    subst h1. by rewrite lookup_app_r, length_insert, Nat.sub_diag by (rewrite length_insert; lia).
  - proj. rewrite lookup_app_r by (rewrite length_insert, Hlen1; lia).
    by rewrite length_insert, Hlen1, Nat.sub_diag.
Qed.

Lemma list_field_per_instance_witness :
  exists s1 s2,
    py_getattr (engine no_json 2) 0 (Some "items") (set_heap [Inst 1 ∅; Inst 1 ∅] (store_list None))
      = Ret (VRef 2) s1 /\
    py_getattr (engine no_json 2) 1 (Some "items") s1 = Ret (VRef 3) s2 /\
    heap s2 !! 2 = Some (LObj []) /\
    heap s2 !! 3 = Some (LObj []).
Proof.
  apply (list_field_per_instance no_json 0 (set_heap [Inst 1 ∅; Inst 1 ∅] (store_list None))
           0 1 1 ∅ ∅ "items" 0
           (mkField KField (Some "items") (Some FList) VNone None true false None None None
              (Some "_items") 0 1)
           "_items" ltac:(lia) eq_refl eq_refl eq_refl eq_refl eq_refl eq_refl eq_refl
           eq_refl eq_refl eq_refl eq_refl eq_refl eq_refl).
Defined.

(** ** Models inside models *)

(** X19.  Loading into a field that holds a model loads into that model:
    the item's value goes to [loads_from_dict] of the child the field
    holds, and the field keeps the child. *)
Theorem load_reaches_child (json_loads : string -> res value) n s obj cls attrs k fs key f fd
    nm slot r c' attrs' v :
  heap s !! obj = Some (Inst cls attrs) ->
  classes s !! cls = Some k ->
  mro_fields (classes s) (cls :: cls_ancestors k) = Some fs ->
  find_field (field_objs s) fs key = Some (Some f) ->
  field_objs s !! f = Some fd ->
  kind fd = KField ->
  name fd = Some nm ->
  class_lookup (classes s) cls nm = Some f ->
  instance_name fd = Some slot ->
  class_lookup (classes s) cls slot = None ->
  attrs !! slot = Some (VRef r) ->
  chains s !! getters_funcs fd = Some [] ->
  heap s !! r = Some (Inst c' attrs') ->
  Typing2_loads_from_dict (engine json_loads (S (S n))) obj (VDict [(key, v)]) s =
  Typing2_loads_from_dict (engine json_loads (S n)) r v s.
Proof.
  intros Hobj Hk Hfs Hfind Hf Hkind Hnm Hcn Hslot Hcs Hstored Hgs Hr.
  rewrite loads_from_dict_VDict. cbn [for_each]. rewrite bind_unit.
  unfold load_entry.
  rewrite (bind_Ret _ _ _ _ _ (Typing2_get_field_find s obj cls attrs k fs _ _ Hobj Hk Hfs Hfind)).
  rewrite (bind_Ret _ _ _ fd _ (deref_Some s _ _ Hf)).
  rewrite Hnm, (engine_S json_loads (S n)). proj.
  assert (Hread : py_getattr (engine json_loads (S n)) obj (Some nm) s = Ret (VRef r) s).
  { rewrite (py_getattr_field _ s obj cls attrs nm f Hobj Hcn).
    rewrite (descr_get_Field _ s f fd obj Hf Hkind).
    by rewrite (Field_get_stored json_loads f obj cls n s fd slot attrs (VRef r) []
                  Hf Hslot Hobj Hcs Hstored Hgs). }
  rewrite (bind_Ret _ _ _ _ _ Hread).
  assert (Hty : is_typing (VRef r) s = Ret true s).
  { cbn [is_typing]. by rewrite (bind_Ret _ _ _ _ _ (read_cell_Some _ _ _ Hr)). }
  by rewrite (bind_Ret _ _ _ _ _ Hty).
Qed.

(** X20.  The dump of a model whose one field holds a model nests the dump
    of that model under the field's key. *)
Theorem dump_nests_child (json_loads : string -> res value) n s obj cls attrs k f fd nm slot
    r c' attrs' (raw : bool) key :
  heap s !! obj = Some (Inst cls attrs) ->
  classes s !! cls = Some k ->
  mro_fields (classes s) (cls :: cls_ancestors k) = Some [f] ->
  field_objs s !! f = Some fd ->
  kind fd = KField ->
  name fd = Some nm ->
  class_lookup (classes s) cls nm = Some f ->
  instance_name fd = Some slot ->
  class_lookup (classes s) cls slot = None ->
  attrs !! slot = Some (VRef r) ->
  chains s !! getters_funcs fd = Some [] ->
  heap s !! r = Some (Inst c' attrs') ->
  is_list fd = false ->
  negb raw && hidden fd = false ->
  (if raw then Ok (VRef r) else Field_dumps_convert fd (VRef r)) = Ok (VRef r) ->
  Field_get_name fd raw = Some key ->
  Typing2_dumps (engine json_loads (S (S n))) obj raw s =
  (let* d := Typing2_dumps (engine json_loads (S n)) r raw in ret (VDict [(key, d)])) s.
Proof.
  intros Hobj Hk Hfs Hf Hkind Hnm Hcn Hslot Hcs Hstored Hgs Hr Hl Hh Hconv Hkey.
  unfold Typing2_dumps at 1. unfold Typing2_pre_dumps.
  rewrite (bind_Ret _ _ _ tt _ eq_refl).
  rewrite (bind_Ret _ _ _ _ _ (Typing2_get_fields_Some s obj cls attrs k [f] Hobj Hk Hfs)).
  assert (Hread : py_getattr (engine json_loads (S n)) obj (Some nm) s = Ret (VRef r) s).
  { rewrite (py_getattr_field _ s obj cls attrs nm f Hobj Hcn).
    rewrite (descr_get_Field _ s f fd obj Hf Hkind).
    by rewrite (Field_get_stored json_loads f obj cls n s fd slot attrs (VRef r) []
                  Hf Hslot Hobj Hcs Hstored Hgs). }
  assert (Hty : is_typing (VRef r) s = Ret true s).
  { cbn [is_typing]. by rewrite (bind_Ret _ _ _ _ _ (read_cell_Some _ _ _ Hr)). }
  assert (Hfield : dump_field (engine json_loads (S (S n))) obj raw [] f s
                   = (let* d := Typing2_dumps (engine json_loads (S n)) r raw in
                      ret [(key, d)]) s).
  { unfold dump_field.
    rewrite (bind_Ret _ _ _ fd _ (deref_Some s _ _ Hf)), Hh, Hnm.
    rewrite (engine_S json_loads (S n)). proj.
    rewrite (bind_Ret _ _ _ _ _ (try_AttributeError_Ret _ ret (ret VNone) _ _ _ Hread)).
    rewrite (bind_Ret _ _ _ fd _ (deref_Some s _ _ Hf)).
    assert (Hc : (if raw then ret (VRef r) else lift (Field_dumps_convert fd (VRef r))) s
                 = Ret (VRef r) s).
    { destruct raw; [done|]. by rewrite Hconv. }
    rewrite (bind_Ret _ _ _ _ _ Hc), Hl.
    assert (Hdump : Typing2_dump (engine json_loads (S (S n))) (VRef r) raw false s
                    = Typing2_dumps (engine json_loads (S n)) r raw s).
    { unfold Typing2_dump, dump_one. by rewrite (bind_Ret _ _ _ _ _ Hty). }
    unfold bind. rewrite (engine_S json_loads (S n)) in Hdump. rewrite Hdump.
    destruct (Typing2_dumps _ r raw s) as [d s'| |]; [|done|done].
    by rewrite Hkey. }
  cbn [fold_m]. unfold Typing2_post_dumps.
  unfold bind at 1. unfold bind at 1. rewrite Hfield.
  unfold bind, ret. by destruct (Typing2_dumps _ r raw s).
Qed.

(** ** The dump of a list-typed field *)

Lemma map_m_dump_one_plain R raw xs s :
  forallb (fun x => negb (is_ref x)) xs = true ->
  map_m (fun i => dump_one R i raw) xs s = Ret xs s.
Proof.
  induction xs as [|x xs IH]; intros H; [done|].
  cbn [forallb] in H. apply andb_true_iff in H as [Hx H].
  cbn [map_m].
  assert (Hd : dump_one R x raw s = Ret x s).
  { unfold dump_one. destruct x; try done. }
  rewrite (bind_Ret _ _ _ _ _ Hd), (bind_Ret _ _ _ _ _ (IH H)). done.
Qed.

(** X21.  A list-typed field is dumped as the sequence of the elements of
    the list it holds; elements that are no models are dumped as they are,
    and the store is unchanged. *)
Theorem dump_list_field (json_loads : string -> res value) n s obj cls attrs k f fd nm slot
    l xs (raw : bool) key :
  heap s !! obj = Some (Inst cls attrs) ->
  classes s !! cls = Some k ->
  mro_fields (classes s) (cls :: cls_ancestors k) = Some [f] ->
  field_objs s !! f = Some fd ->
  kind fd = KField ->
  name fd = Some nm ->
  class_lookup (classes s) cls nm = Some f ->
  instance_name fd = Some slot ->
  class_lookup (classes s) cls slot = None ->
  attrs !! slot = Some (VRef l) ->
  chains s !! getters_funcs fd = Some [] ->
  heap s !! l = Some (LObj xs) ->
  forallb (fun x => negb (is_ref x)) xs = true ->
  is_list fd = true ->
  negb raw && hidden fd = false ->
  (if raw then Ok (VRef l) else Field_dumps_convert fd (VRef l)) = Ok (VRef l) ->
  Field_get_name fd raw = Some key ->
  Typing2_dumps (engine json_loads (S (S n))) obj raw s = Ret (VDict [(key, VList xs)]) s.
Proof.
  intros Hobj Hk Hfs Hf Hkind Hnm Hcn Hslot Hcs Hstored Hgs Hl Hplain Hlist Hh Hconv Hkey.
  unfold Typing2_dumps. unfold Typing2_pre_dumps.
  rewrite (bind_Ret _ _ _ tt _ eq_refl).
  rewrite (bind_Ret _ _ _ _ _ (Typing2_get_fields_Some s obj cls attrs k [f] Hobj Hk Hfs)).
  assert (Hread : py_getattr (engine json_loads (S n)) obj (Some nm) s = Ret (VRef l) s).
  { rewrite (py_getattr_field _ s obj cls attrs nm f Hobj Hcn).
    rewrite (descr_get_Field _ s f fd obj Hf Hkind).
    by rewrite (Field_get_stored json_loads f obj cls n s fd slot attrs (VRef l) []
                  Hf Hslot Hobj Hcs Hstored Hgs). }
  assert (Hfield : dump_field (engine json_loads (S (S n))) obj raw [] f s
                   = Ret [(key, VList xs)] s).
  { unfold dump_field.
    rewrite (bind_Ret _ _ _ fd _ (deref_Some s _ _ Hf)), Hh, Hnm.
    rewrite (engine_S json_loads (S n)). proj.
    rewrite (bind_Ret _ _ _ _ _ (try_AttributeError_Ret _ ret (ret VNone) _ _ _ Hread)).
    rewrite (bind_Ret _ _ _ fd _ (deref_Some s _ _ Hf)).
    assert (Hc : (if raw then ret (VRef l) else lift (Field_dumps_convert fd (VRef l))) s
                 = Ret (VRef l) s).
    { destruct raw; [done|]. by rewrite Hconv. }
    rewrite (bind_Ret _ _ _ _ _ Hc), Hlist.
    assert (Hit : iterate (VRef l) s = Ret xs s).
    { cbn [iterate]. by rewrite (bind_Ret _ _ _ _ _ (read_cell_Some _ _ _ Hl)). }
    assert (Hdump : forall R, Typing2_dump R (VRef l) raw true s = Ret (VList xs) s).
    { intros R. unfold Typing2_dump. rewrite (bind_Ret _ _ _ _ _ Hit).
      by rewrite (bind_Ret _ _ _ _ _ (map_m_dump_one_plain _ raw xs s Hplain)). }
    rewrite (bind_Ret _ _ _ _ _ (Hdump _)). by rewrite Hkey. }
  cbn [fold_m]. unfold Typing2_post_dumps.
  unfold bind at 1. unfold bind at 1. by rewrite Hfield.
Qed.

Lemma load_reaches_child_witness :
  Typing2_loads_from_dict (engine no_json 4) 0 (VDict [("child", VDict [("a", VInt 9)])])
    store_family =
  Typing2_loads_from_dict (engine no_json 3) 1 (VDict [("a", VInt 9)]) store_family.
Proof.
  apply (load_reaches_child no_json 2 store_family 0 1 {["_child" := VRef 1]}
           (mkClass [0] [("child", 0)] (Some [0]) true) [0] "child" 0
           (mkField KField (Some "child") (Some (FTyping 2)) VNone None false false None
              None None (Some "_child") 0 1)
           "child" "_child" 1 2 (<["_a" := VInt 7]> {["parent" := VRef 0]})
           (VDict [("a", VInt 9)])
           eq_refl eq_refl eq_refl eq_refl eq_refl eq_refl eq_refl eq_refl eq_refl eq_refl
           eq_refl eq_refl eq_refl).
Defined.

Lemma dump_nests_child_witness :
  Typing2_dumps (engine no_json 4) 0 true store_family =
  (let* d := Typing2_dumps (engine no_json 3) 1 true in ret (VDict [("child", d)]))
    store_family.
Proof.
  apply (dump_nests_child no_json 2 store_family 0 1 {["_child" := VRef 1]}
           (mkClass [0] [("child", 0)] (Some [0]) true) 0
           (mkField KField (Some "child") (Some (FTyping 2)) VNone None false false None
              None None (Some "_child") 0 1)
           "child" "_child" 1 2 (<["_a" := VInt 7]> {["parent" := VRef 0]}) true "child"
           eq_refl eq_refl eq_refl eq_refl eq_refl eq_refl eq_refl eq_refl eq_refl eq_refl
           eq_refl eq_refl eq_refl eq_refl eq_refl eq_refl).
Defined.

Lemma dump_list_field_witness :
  Typing2_dumps (engine no_json 2) 0 false store_list_filled =
  Ret (VDict [("items", VList [VInt 1; VInt 2])]) store_list_filled.
Proof.
  apply (dump_list_field no_json 0 store_list_filled 0 1 {["_items" := VRef 1]}
           (mkClass [0] [("items", 0)] (Some [0]) true) 0
           (mkField KField (Some "items") (Some FList) VNone None true false None None None
              (Some "_items") 0 1)
           "items" "_items" 1 [VInt 1; VInt 2] false "items"
           eq_refl eq_refl eq_refl eq_refl eq_refl eq_refl eq_refl eq_refl eq_refl eq_refl
           eq_refl eq_refl eq_refl eq_refl eq_refl eq_refl eq_refl).
Defined.

(** ** Construction from a dump *)

(** X22.  An instance constructed from the raw dump of an instance of a
    flat model has that raw dump. *)
Theorem construct_from_raw_dump (json_loads : string -> res value) n s c attrs k fs :
  classes s !! c = Some k ->
  cls_init_done k = true ->
  mro_fields (classes s) (c :: cls_ancestors k) = Some fs ->
  class_lookup (classes s) c "parent" = None ->
  flat_model s c fs = true ->
  flat_values s attrs fs = true ->
  loads_fixed s attrs fs ->
  exists s',
    Typing2_new json_loads (engine json_loads (S (S (S n)))) c
      (VDict (raw_dump s attrs fs)) VNone s = Ret (VRef (length (heap s))) s' /\
    Typing2_dumps (engine json_loads (S (S (S n)))) (length (heap s)) true s'
      = Ret (VDict (raw_dump s attrs fs)) s'.
Proof.
  intros Hk Hdone Hfs Hparent Hflat Hval Hfix.
  destruct (flat_model_spec _ _ _ Hflat) as (Hf & Hd & Hsl & Hnm).
  set (r := length (heap s)).
  set (h1 := heap s ++ [Inst c {["parent" := VNone]}]).
  set (h2 := <[r := Inst c (loaded s attrs fs {["parent" := VNone]})]> h1).
  assert (Hnew : h1 !! r = Some (Inst c {["parent" := VNone]})).
  { subst h1 r. by rewrite lookup_app_r, Nat.sub_diag by lia. }
  exists (set_heap h2 s). split.
  - unfold Typing2_new, alloc_cell. unfold bind at 1. fold r.
    set (s0 := set_heap (heap s ++ [Inst c ∅]) s).
    assert (Hobj0 : heap s0 !! r = Some (Inst c ∅)).
    { subst s0 r. proj. by rewrite lookup_app_r, Nat.sub_diag by lia. }
    assert (Hinit : Typing2_init json_loads (engine json_loads (S (S (S n)))) r
                      (VDict (raw_dump s attrs fs)) VNone s0 = Ret tt (set_heap h2 s)).
    { unfold Typing2_init. rewrite (engine_S json_loads (S (S n))) at 1. proj.
      rewrite (bind_Ret _ _ _ _ _ (py_setattr_plain _ s0 r c ∅ "parent" Hobj0 Hparent VNone)).
      set (s1 := set_heap _ s0).
      assert (Hs1 : s1 = set_heap h1 s).
      { subst s1 s0 h1 r. proj. unfold set_heap; proj.
        by rewrite insert_app_r_alt, Nat.sub_diag by lia. }
      rewrite Hs1.
      rewrite (bind_Ret _ _ _ _ _
                 (Typing2_one_time_init_done (set_heap h1 s) r c _ k Hnew Hk Hdone)).
      unfold Typing2_post_init. rewrite (bind_Ret _ _ _ tt _ eq_refl).
      apply (loads_from_dict_flat json_loads s c fs k Hk Hfs); try done.
      by apply flat_values_new. }
    by rewrite (bind_Ret _ _ _ _ _ Hinit).
  - apply (dumps_loaded_flat json_loads n s c k fs _ attrs {["parent" := VNone]});
      try done.
    subst h2. apply list_lookup_insert_eq. by eapply lookup_lt_Some.
Qed.

Lemma construct_from_raw_dump_witness :
  exists s',
    Typing2_new no_json (engine no_json 3) 1 (VDict [("a", VInt 3); ("b", VStr "x")]) VNone
      store_flat = Ret (VRef 2) s' /\
    Typing2_dumps (engine no_json 3) 2 true s'
      = Ret (VDict [("a", VInt 3); ("b", VStr "x")]) s'.
Proof.
  apply (construct_from_raw_dump no_json 0 store_flat 1 {["_a" := VInt 3]}
           (mkClass [0] [("a", 0); ("b", 1)] (Some [0; 1]) true) [0; 1]
           eq_refl eq_refl eq_refl eq_refl ltac:(by_compute) ltac:(by_compute)).
  repeat constructor.
Defined.

(** ** Elements of list-typed fields *)


Section Elements.

Variable json_loads : string -> res value.
Variable s0 : state.





Section Entry.

Variables (self cls : nat) (k : Class) (fs : list nat) (key : string) (f : nat) (fd : Field)
  (nm slot : string).
Hypothesis Hk : classes s0 !! cls = Some k.
Hypothesis Hfs : mro_fields (classes s0) (cls :: cls_ancestors k) = Some fs.
Hypothesis Hfind : find_field (field_objs s0) fs key = Some (Some f).
Hypothesis Hf : field_objs s0 !! f = Some fd.
Hypothesis Hkind : kind fd = KField.
Hypothesis Hlist : is_list fd = true.
Hypothesis Hnm : name fd = Some nm.
Hypothesis Hdescr : class_lookup (classes s0) cls nm = Some f.
Hypothesis Hslot : instance_name fd = Some slot.
Hypothesis Hplain : class_lookup (classes s0) cls slot = None.
Hypothesis Hgs : chains s0 !! getters_funcs fd = Some [].



End Entry.

End Elements.



(** ** The raw dump read back through setters and getters *)








Section ScalarModel.

Variable json_loads : string -> res value.
Variables (s0 : state) (c : nat) (fs : list nat).





Variable k : Class.
Hypothesis Hk : classes s0 !! c = Some k.
Hypothesis Hfs : mro_fields (classes s0) (c :: cls_ancestors k) = Some fs.




End ScalarModel.







